(** * Typing speed test: the session measurement engine

    A shallow embedding of [src/utils/typingLogic.js] (metrics, character
    alignment, end conditions), [src/utils/textGenerator.js] (the text
    corpus provider) and the completion and input handlers of the
    [TypingTest] component, followed by the properties stated about them.
    Numbers are exact rationals with the special values of IEEE 754 where
    a property does not depend on rounding, and binary64 numbers where a
    computed value is stated. *)

From Stdlib Require Import ZArith QArith Qround String Ascii Lia.
From Stdlib Require DecimalString DecimalNat.
From Stdlib Require Import Sorted.
From Stdlib Require Import SpecFloat.
From stdpp Require Import base list gmap.

Local Open Scope nat_scope.

(** ** JavaScript strings

    A JS string is a finite sequence of UTF-16 code units.  A code unit is
    kept as its numeric value; [js] reads an ASCII literal as such a
    sequence. *)

Abbreviation jsstring := (list N) (only parsing).

Definition js (s : string) : jsstring :=
  map N_of_ascii (list_ascii_of_string s).

(** [s[i] || ''] : indexing past the end gives [undefined], which [||]
    replaces by the empty string; a one-unit string is always truthy. *)
Definition char_or_empty (s : jsstring) (i : nat) : jsstring :=
  match s !! i with
  | Some c => [c]
  | None => []
  end.

(** [s.substring(a, b)] for [0 <= a], [0 <= b]: both ends are clamped to the
    length and swapped when [a > b]. *)
Definition substring (s : jsstring) (a b : nat) : jsstring :=
  let lo := Nat.min (Nat.min a b) (length s) in
  let hi := Nat.min (Nat.max a b) (length s) in
  take (hi - lo) (drop lo s).

(** ** Character alignment analyzer ([analyzeTypedText]) *)

Module Analyzer.

Inductive CharState : Type :=
  | correct | incorrect | missed | extra | current | pending.

Inductive MistakeType : Type := substitution | insertion.

Record Mistake : Type := mkMistake {
  position : nat;
  expected : jsstring;
  typed : jsstring;
  type : MistakeType
}.

Record Analysis : Type := mkAnalysis {
  correctCharacters : nat;
  incorrectCharacters : nat;
  totalCharacters : nat;
  mistakes : list Mistake;
  characterStates : list CharState
}.

#[global] Instance CharState_eq_dec : EqDecision CharState.
Proof. solve_decision. Defined.

#[global] Instance MistakeType_eq_dec : EqDecision MistakeType.
Proof. solve_decision. Defined.

#[global] Instance Mistake_eq_dec : EqDecision Mistake.
Proof. solve_decision. Defined.

(** One iteration of the [for] loop, on the [analysis] object it mutates. *)
Definition analyze_step (originalText typedText : jsstring)
    (analysis : Analysis) (i : nat) : Analysis :=
  let originalChar := char_or_empty originalText i in
  let typedChar := char_or_empty typedText i in
  if bool_decide (i < length typedText) && bool_decide (i < length originalText) then
    if bool_decide (originalChar = typedChar) then
      {| correctCharacters := S (correctCharacters analysis);
         incorrectCharacters := incorrectCharacters analysis;
         totalCharacters := totalCharacters analysis;
         mistakes := mistakes analysis;
         characterStates := characterStates analysis ++ [correct] |}
    else
      {| correctCharacters := correctCharacters analysis;
         incorrectCharacters := S (incorrectCharacters analysis);
         totalCharacters := totalCharacters analysis;
         mistakes := mistakes analysis ++
           [mkMistake i originalChar typedChar substitution];
         characterStates := characterStates analysis ++ [incorrect] |}
  else if bool_decide (length typedText <= i) then
    {| correctCharacters := correctCharacters analysis;
       incorrectCharacters := incorrectCharacters analysis;
       totalCharacters := totalCharacters analysis;
       mistakes := mistakes analysis;
       characterStates := characterStates analysis ++ [missed] |}
  else
    {| correctCharacters := correctCharacters analysis;
       incorrectCharacters := S (incorrectCharacters analysis);
       totalCharacters := totalCharacters analysis;
       mistakes := mistakes analysis ++ [mkMistake i [] typedChar insertion];
       characterStates := characterStates analysis ++ [extra] |}.

Definition analysis0 (typedText : jsstring) : Analysis :=
  {| correctCharacters := 0;
     incorrectCharacters := 0;
     totalCharacters := length typedText;
     mistakes := [];
     characterStates := [] |}.

(** The loop run for [i = 0 .. n-1]. *)
Definition analyze_upto (originalText typedText : jsstring) (n : nat) : Analysis :=
  foldl (analyze_step originalText typedText) (analysis0 typedText) (seq 0 n).

Definition analyzeTypedText (originalText typedText : jsstring) : Analysis :=
  let maxLength := Nat.max (length originalText) (length typedText) in
  analyze_upto originalText typedText maxLength.

(** [getCharacterStates]: the cheaper variant used while typing. *)
Definition live_state (originalText typedText : jsstring)
    (currentPosition : nat) (i : nat) : CharState :=
  if bool_decide (i < length typedText) then
    if bool_decide (originalText !! i = typedText !! i) then correct else incorrect
  else if bool_decide (i = currentPosition) then current
  else pending.

Definition getCharacterStates (originalText typedText : jsstring)
    (currentPosition : nat) : list CharState :=
  foldl (fun states i => states ++ [live_state originalText typedText currentPosition i])
        [] (seq 0 (length originalText)).

(** The mistake records of an analysis that sit at position [i]. *)
Definition mistakes_at (i : nat) (a : Analysis) : list Mistake :=
  filter (fun m => position m = i) (mistakes a).

(** The comparison rule as the specification words it, position by
    position: the reference the loop is compared with. *)
Definition spec_state (target typedText : jsstring) (i : nat) : CharState :=
  match target !! i, typedText !! i with
  | Some c, Some d => if decide (c = d) then correct else incorrect
  | _, None => missed
  | None, Some _ => extra
  end.

Definition spec_mistakes (target typedText : jsstring) (i : nat) : list Mistake :=
  match target !! i, typedText !! i with
  | Some c, Some d =>
      if decide (c = d) then [] else [mkMistake i [c] [d] substitution]
  | _, None => []
  | None, Some d => [mkMistake i [] [d] insertion]
  end.

Definition spec_correct (target typedText : jsstring) (i : nat) : nat :=
  match target !! i, typedText !! i with
  | Some c, Some d => if decide (c = d) then 1 else 0
  | _, _ => 0
  end.

End Analyzer.

(** ** JavaScript numbers

    The metrics are computed on JS numbers.  The model keeps the three
    special values of IEEE 754 arithmetic and the rules that create and
    propagate them (division by zero, [Infinity - Infinity], [NaN]
    contagion, comparisons with [NaN]); a finite value is an exact
    rational kept in lowest terms, so the rounding of binary64 and the
    sign of zero are not represented. *)

Module Num.

Inductive num : Type :=
  | NaN
  | PInf
  | NInf
  | Fin (q : Q).

Definition of_Z (z : Z) : num := Fin (inject_Z z).
Definition of_nat (n : nat) : num := of_Z (Z.of_nat n).

Definition is_finite (a : num) : bool :=
  match a with Fin _ => true | _ => false end.

Definition is_NaN (a : num) : bool :=
  match a with NaN => true | _ => false end.

(** [a === b] on numbers. *)
Definition strict_eq (a b : num) : bool :=
  match a, b with
  | Fin x, Fin y => Qeq_bool x y
  | PInf, PInf => true
  | NInf, NInf => true
  | _, _ => false
  end.

(** [a >= b]. *)
Definition geb (a b : num) : bool :=
  match a, b with
  | NaN, _ | _, NaN => false
  | PInf, _ => true
  | _, NInf => true
  | NInf, _ => false
  | _, PInf => false
  | Fin x, Fin y => Qle_bool y x
  end.

(** [a > b]. *)
Definition gtb (a b : num) : bool :=
  match a, b with
  | NaN, _ | _, NaN => false
  | PInf, PInf => false
  | NInf, NInf => false
  | PInf, _ => true
  | _, NInf => true
  | NInf, _ => false
  | _, PInf => false
  | Fin x, Fin y => negb (Qle_bool x y)
  end.

(** Truthiness of a number: [0] and [NaN] are falsy. *)
Definition truthy (a : num) : bool :=
  match a with
  | NaN => false
  | Fin x => negb (Qeq_bool x 0)
  | _ => true
  end.

(** An infinity of the same sign as [inf] when [s] is not negative, of the
    opposite sign otherwise. *)
Definition signed_inf (inf : num) (s : Q) : num :=
  match inf with
  | PInf => if Qle_bool 0 s then PInf else NInf
  | NInf => if Qle_bool 0 s then NInf else PInf
  | other => other
  end.

(** [a / b]. *)
Definition div (a b : num) : num :=
  match a, b with
  | NaN, _ | _, NaN => NaN
  | Fin x, Fin y =>
      if Qeq_bool y 0 then
        match Qcompare x 0 with
        | Gt => PInf
        | Lt => NInf
        | Eq => NaN
        end
      else Fin (Qred (x / y)%Q)
  | Fin _, _ => of_Z 0
  | inf, Fin y => signed_inf inf y
  | _, _ => NaN
  end.

(** [a * b]. *)
Definition mul (a b : num) : num :=
  match a, b with
  | NaN, _ | _, NaN => NaN
  | Fin x, Fin y => Fin (Qred (x * y)%Q)
  | Fin x, inf => if Qeq_bool x 0 then NaN else signed_inf inf x
  | inf, Fin y => if Qeq_bool y 0 then NaN else signed_inf inf y
  | PInf, PInf | NInf, NInf => PInf
  | _, _ => NInf
  end.

(** [a - b]. *)
Definition sub (a b : num) : num :=
  match a, b with
  | NaN, _ | _, NaN => NaN
  | Fin x, Fin y => Fin (Qred (x - y)%Q)
  | PInf, PInf | NInf, NInf => NaN
  | PInf, _ => PInf
  | NInf, _ => NInf
  | Fin _, PInf => NInf
  | Fin _, NInf => PInf
  end.

(** [Math.round]: the nearest integer, ties towards [+Infinity]. *)
Definition round (a : num) : num :=
  match a with
  | Fin x => of_Z (Qfloor (x + (1 # 2))%Q)
  | other => other
  end.

(** [Math.max(a, b)] and [Math.min(a, b)]. *)
Definition max (a b : num) : num :=
  match a, b with
  | NaN, _ | _, NaN => NaN
  | PInf, _ | _, PInf => PInf
  | NInf, other | other, NInf => other
  | Fin x, Fin y => if Qle_bool x y then Fin y else Fin x
  end.

Definition min (a b : num) : num :=
  match a, b with
  | NaN, _ | _, NaN => NaN
  | NInf, _ | _, NInf => NInf
  | PInf, other | other, PInf => other
  | Fin x, Fin y => if Qle_bool x y then Fin x else Fin y
  end.

End Num.

(** ** Metrics calculator

    The formulas on the exact numbers of [Num]; the properties of the
    live statistics and of the completion that do not depend on the
    rounding of a value are stated on them.  [Binary64] below holds
    [calculateWPM] and [calculateAccuracy] on binary64 numbers, for the
    statements about their values. *)

Module Metrics.
Import Num.

Definition calculateWPM (charactersTyped timeElapsed : num) : num :=
  if strict_eq timeElapsed (of_Z 0) then of_Z 0
  else
    let minutes := div timeElapsed (of_Z 60) in
    let words := div charactersTyped (of_Z 5) in
    round (div words minutes).

Definition calculateAccuracy (correctCharacters totalCharacters : num) : num :=
  if strict_eq totalCharacters (of_Z 0) then of_Z 100
  else div (round (mul (div correctCharacters totalCharacters) (of_Z 1000))) (of_Z 10).

Definition calculateNetWPM (grossWPM mistakes timeElapsed : num) : num :=
  let minutes := div timeElapsed (of_Z 60) in
  let errorPenalty := div mistakes minutes in
  max (of_Z 0) (round (sub grossWPM errorPenalty)).

End Metrics.

(** ** Live statistics and end conditions *)

Module Engine.
Import Num.

(** The code units removed by [String.prototype.trim]: the WhiteSpace and
    LineTerminator productions of ECMAScript. *)
Definition is_white_space (c : N) : bool :=
  match c with
  | 9%N | 10%N | 11%N | 12%N | 13%N | 32%N | 160%N
  | 5760%N | 8232%N | 8233%N | 8239%N | 8287%N | 12288%N | 65279%N => true
  | _ => (8192 <=? c)%N && (c <=? 8202)%N
  end.

Fixpoint trimStart (s : jsstring) : jsstring :=
  match s with
  | c :: rest => if is_white_space c then trimStart rest else s
  | [] => []
  end.

Definition trimEnd (s : jsstring) : jsstring :=
  reverse (trimStart (reverse s)).

Definition trim (s : jsstring) : jsstring := trimEnd (trimStart s).

Record RealTimeStats : Type := mkStats {
  wpm : num;
  accuracy : num;
  correctCharacters : nat;
  incorrectCharacters : nat;
  totalCharacters : nat;
  mistakes : nat;
  progress : num
}.

Definition calculateRealTimeStats (originalText typedText : jsstring)
    (timeElapsed : num) : RealTimeStats :=
  let analysis := Analyzer.analyzeTypedText originalText typedText in
  let wpm := Metrics.calculateWPM (of_nat (Analyzer.correctCharacters analysis)) timeElapsed in
  let accuracy :=
    Metrics.calculateAccuracy (of_nat (Analyzer.correctCharacters analysis))
                              (of_nat (Analyzer.totalCharacters analysis)) in
  {| wpm := wpm;
     accuracy := accuracy;
     correctCharacters := Analyzer.correctCharacters analysis;
     incorrectCharacters := Analyzer.incorrectCharacters analysis;
     totalCharacters := Analyzer.totalCharacters analysis;
     mistakes := length (Analyzer.mistakes analysis);
     progress :=
       min (of_Z 100)
           (mul (div (of_nat (length typedText)) (of_nat (length originalText)))
                (of_Z 100)) |}.

Inductive EndReason : Type := time | completed.

Record EndCheck : Type := mkEndCheck {
  shouldEnd : bool;
  reason : option EndReason;   (* [None] is [null] *)
  timeUp : bool;
  textCompleted : bool
}.

Definition checkEndConditions (originalText typedText : jsstring)
    (timeLimit timeElapsed : num) : EndCheck :=
  let timeUp := geb timeElapsed timeLimit in
  let textCompleted :=
    bool_decide (length originalText <= length typedText) &&
    bool_decide (trim typedText =
                 trim (substring originalText 0 (length typedText))) in
  {| shouldEnd := timeUp || textCompleted;
     reason := if timeUp then Some time
               else if textCompleted then Some completed else None;
     timeUp := timeUp;
     textCompleted := textCompleted |}.

End Engine.

(** ** Text corpus provider ([textGenerator.js]) *)

Module TextGenerator.

(** How a call ends: with a value, with a [TypeError] (a property read on
    [undefined]), or without an answer within the given number of loop
    iterations. *)
Inductive outcome (A : Type) : Type :=
  | Returned (a : A)
  | TypeError
  | OutOfFuel.
Arguments Returned {A} a.
Arguments TypeError {A}.
Arguments OutOfFuel {A}.

Definition space : N := 32%N.

(** [a[i]] for a number [i]: [undefined] ([None]) outside the array. *)
Definition at_index (a : list jsstring) (i : Z) : option jsstring :=
  if (i <? 0)%Z then None else a !! Z.to_nat i.

(** String conversion of an array element or of a concatenation operand. *)
Definition join_element (e : option jsstring) : jsstring :=
  match e with Some s => s | None => [] end.

Definition concat_operand (e : option jsstring) : jsstring :=
  match e with Some s => s | None => js "undefined" end.

(** [words.join(' ')]: [undefined] elements are joined as empty strings. *)
Fixpoint join (words : list (option jsstring)) : jsstring :=
  match words with
  | [] => []
  | [w] => join_element w
  | w :: rest => join_element w ++ space :: join rest
  end.

(** [(text ? ' ' : '')] *)
Definition separator (text : jsstring) : jsstring :=
  match text with [] => [] | _ => [space] end.

(** [s.indexOf(c)] for a single code unit [c]: [-1] when absent. *)
Fixpoint indexOf (s : jsstring) (c : N) : Z :=
  match s with
  | [] => (-1)%Z
  | x :: rest =>
      if (x =? c)%N then 0%Z
      else let i := indexOf rest c in
           if (i <? 0)%Z then (-1)%Z else (i + 1)%Z
  end.

(** [text.substring(0, targetLength + text.substring(targetLength).indexOf(' '))];
    [substring] takes a negative end as [0], which [Z.to_nat] does here. *)
Definition truncate_at_space (text : jsstring) (targetLength : nat) : jsstring :=
  substring text 0
    (Z.to_nat (Z.of_nat targetLength + indexOf (drop targetLength text) space)).

Section Generator.

(** [commonWords] and [sentences] are the two arrays imported from
    [wordList.js], whose contents are left open; [random k] is the value
    of the [k]-th call of [Math.random()]. *)
Variable commonWords : list jsstring.
Variable sentences : list jsstring.
Variable random : nat -> Q.

(** [Math.floor(Math.random() * n)] at call [k]. *)
Definition random_index (k n : nat) : Z :=
  Qfloor (random k * inject_Z (Z.of_nat n)).

(** The [for] loop of [generateRandomWords]; [k] counts the calls of
    [Math.random()] made so far. *)
Fixpoint random_words_loop (n : nat) (words : list (option jsstring)) (k : nat)
    : list (option jsstring) * nat :=
  match n with
  | 0 => (words, k)
  | S n' =>
      let randomIndex := random_index k (length commonWords) in
      random_words_loop n' (words ++ [at_index commonWords randomIndex]) (S k)
  end.

Definition generateRandomWords (wordCount : nat) (k : nat) : jsstring * nat :=
  let (words, k') := random_words_loop wordCount [] k in
  (join words, k').

(** The [do ... while (usedSentences.has(randomIndex))] loop. *)
Fixpoint pick_unused (fuel : nat) (usedSentences : gset Z) (k : nat)
    : outcome (Z * nat) :=
  match fuel with
  | 0 => OutOfFuel
  | S fuel' =>
      let randomIndex := random_index k (length sentences) in
      if bool_decide (randomIndex ∈ usedSentences)
      then pick_unused fuel' usedSentences (S k)
      else Returned (randomIndex, S k)
  end.

(** The [while] loop of [generateRandomSentences]. *)
Fixpoint sentences_loop (fuel : nat) (targetLength : nat) (text : jsstring)
    (usedSentences : gset Z) (k : nat) : outcome (jsstring * nat) :=
  match fuel with
  | 0 => OutOfFuel
  | S fuel' =>
      if bool_decide (length text < targetLength) &&
         bool_decide (size usedSentences < length sentences)
      then
        match pick_unused fuel' usedSentences k with
        | Returned (randomIndex, k1) =>
            let usedSentences1 := {[randomIndex]} ∪ usedSentences in
            match at_index sentences randomIndex with
            | None => TypeError
            | Some sentence =>
                if bool_decide (length text + length sentence + 1 <= targetLength + 50)
                then sentences_loop fuel' targetLength
                       (text ++ separator text ++ sentence) usedSentences1 k1
                else Returned (text, k1)
            end
        | TypeError => TypeError
        | OutOfFuel => OutOfFuel
        end
      else Returned (text, k)
  end.

(** The result is a JS value: a string, or [undefined] ([None]) when the
    fallback [sentences[0]] does not exist. *)
Definition generateRandomSentences (fuel : nat) (targetLength : nat) (k : nat)
    : outcome (option jsstring * nat) :=
  match sentences_loop fuel targetLength [] ∅ k with
  | Returned (text, k') =>
      Returned (match text with [] => sentences !! 0 | _ => Some text end, k')
  | TypeError => TypeError
  | OutOfFuel => OutOfFuel
  end.

(** One pass of the body of the [while] loop of [generateMixedText],
    up to the alternation of [useWords]. *)
Definition mixed_body (text : jsstring) (useWords : bool) (k : nat)
    : jsstring * nat :=
  if useWords then
    let wordCount := (Qfloor (random k * 10) + 5)%Z in
    let (words, k') := generateRandomWords (Z.to_nat wordCount) (S k) in
    (text ++ separator text ++ words, k')
  else
    let randomSentence :=
      at_index sentences (random_index k (length sentences)) in
    (text ++ separator text ++ concat_operand randomSentence, S k).

Fixpoint mixed_loop (fuel : nat) (targetLength : nat) (text : jsstring)
    (useWords : bool) (k : nat) : outcome (jsstring * nat) :=
  match fuel with
  | 0 => OutOfFuel
  | S fuel' =>
      if bool_decide (length text < targetLength) then
        let (text1, k1) := mixed_body text useWords k in
        if bool_decide (targetLength + 100 < length text1)
        then Returned (text1, k1)
        else mixed_loop fuel' targetLength text1 (negb useWords) k1
      else Returned (text, k)
  end.

(** The text accumulated by the loop of [generateMixedText]. *)
Definition mixed_accumulate (fuel : nat) (targetLength : nat) (k : nat)
    : outcome (jsstring * nat) :=
  let useWords := negb (Qle_bool (random k) (1 # 2)) in
  mixed_loop fuel targetLength [] useWords (S k).

Definition generateMixedText (fuel : nat) (targetLength : nat) (k : nat)
    : outcome (jsstring * nat) :=
  match mixed_accumulate fuel targetLength k with
  | Returned (text, k') => Returned (truncate_at_space text targetLength, k')
  | TypeError => TypeError
  | OutOfFuel => OutOfFuel
  end.

Definition returned_string (r : jsstring * nat) : outcome (option jsstring * nat) :=
  Returned (Some (fst r), snd r).

Definition generateText (fuel : nat) (mode : jsstring) (length : nat) (k : nat)
    : outcome (option jsstring * nat) :=
  if bool_decide (mode = js "words") then
    returned_string (generateRandomWords length k)
  else if bool_decide (mode = js "sentences") then
    generateRandomSentences fuel length k
  else if bool_decide (mode = js "mixed") then
    match generateMixedText fuel length k with
    | Returned r => returned_string r
    | TypeError => TypeError
    | OutOfFuel => OutOfFuel
    end
  else returned_string (generateRandomWords length k).

End Generator.

(** A cut of [text] after [n] code units splits a word when the units on
    both sides of the cut are not spaces. *)
Definition splits_word (text : jsstring) (n : nat) : Prop :=
  exists a b, 0 < n /\ text !! (n - 1) = Some a /\ text !! n = Some b /\
              a <> space /\ b <> space.

(** A small corpus and two sequences of draws used in the examples. *)
Definition example_words : list jsstring :=
  [js "the"; js "quick"; js "fox"].

Definition example_sentences : list jsstring :=
  [js "The quick brown fox jumps over the lazy dog.";
   js "Practice makes perfect."].

(** Every call of [Math.random()] returns [0]. *)
Definition draws_zero : nat -> Q := fun _ => 0%Q.

(** The calls of [Math.random()] return [0], [0.5], [0], [0.5], ... *)
Definition draws_alternate : nat -> Q :=
  fun k => if Nat.even k then 0%Q else (1 # 2)%Q.

(** The condition under which the rejection loop of
    [generateRandomSentences] ends: after any call, every index is drawn
    again at some later call. *)
Definition draws_every_index (random : nat -> Q) (n : nat) : Prop :=
  forall i k, i < n -> exists d, Qfloor (random (k + d) * inject_Z (Z.of_nat n)) = Z.of_nat i.

(** The draws are values of [Math.random()]: in [[0, 1)]. *)
Definition draws_in_range (random : nat -> Q) : Prop :=
  forall k, (0 <= random k)%Q /\ (random k < 1)%Q.

End TextGenerator.

(** ** The [TypingTest] component: completion and input handlers

    A handler is a closure created by one render: it reads the state
    values of that render (the snapshot [snap]) and acts on the world
    through the state setters and the collaborators.  The world holds the
    React state as it stands once the queued setter calls are applied,
    the result store, the audio cues played, the interval timers and the
    calls of the [onTestComplete] property. *)

Module TypingTest.
Import Num.

Inductive SoundName : Type := keyPress | keyError | testComplete | countdown.

Record State : Type := mkState {
  timeLimit : num;
  textMode : jsstring;
  testText : jsstring;
  typedText : jsstring;
  isActive : bool;
  isPaused : bool;
  timeElapsed : num;
  isComplete : bool;
  isSoundEnabled : bool;
  currentStats : Engine.RealTimeStats;
  characterStates : list Analyzer.CharState
}.

(** The [result] object built at completion. *)
Module Result.
Record t : Type := mk {
  wpm : num;
  netWPM : num;
  accuracy : num;
  mistakes : nat;
  totalCharacters : nat;
  correctCharacters : nat;
  incorrectCharacters : nat;
  timeElapsed : num;
  timeLimit : num;
  textMode : jsstring;
  testText : jsstring;
  timestamp : Z;
  characterStates : list Analyzer.CharState;
  mistakeDetails : list Analyzer.Mistake
}.
End Result.

(** [{...result, id: Date.now(), timestamp: new Date().toISOString()}];
    an instant stands for its ISO rendering. *)
Record SavedResult : Type := mkSaved {
  result : Result.t;
  id : Z;
  savedTimestamp : Z
}.

Record World : Type := mkWorld {
  state : State;
  storage : list SavedResult;          (* the stored array of test results *)
  storageThrows : bool;                (* [localStorage] raises when used *)
  now : Z;                             (* the clock read by [Date] *)
  played : list (SoundName * Q);       (* [playSound] calls, oldest first *)
  intervalRef : option nat;            (* [intervalRef.current] *)
  activeIntervals : list nat;          (* interval timers still scheduled *)
  notified : list (option SavedResult) (* [onTestComplete] calls; [None] is [null] *)
}.

Definition set_state (f : State -> State) (w : World) : World :=
  {| state := f (state w);
     storage := storage w;
     storageThrows := storageThrows w;
     now := now w;
     played := played w;
     intervalRef := intervalRef w;
     activeIntervals := activeIntervals w;
     notified := notified w |}.

Definition playSound (soundName : SoundName) (volume : Q) (w : World) : World :=
  {| state := state w;
     storage := storage w;
     storageThrows := storageThrows w;
     now := now w;
     played := played w ++ [(soundName, volume)];
     intervalRef := intervalRef w;
     activeIntervals := activeIntervals w;
     notified := notified w |}.

(** [clearInterval(intervalRef.current)] *)
Definition clearInterval (w : World) : World :=
  {| state := state w;
     storage := storage w;
     storageThrows := storageThrows w;
     now := now w;
     played := played w;
     intervalRef := intervalRef w;
     activeIntervals :=
       match intervalRef w with
       | Some h => filter (fun h' => h' <> h) (activeIntervals w)
       | None => activeIntervals w
       end;
     notified := notified w |}.

Definition notify (saved : option SavedResult) (w : World) : World :=
  {| state := state w;
     storage := storage w;
     storageThrows := storageThrows w;
     now := now w;
     played := played w;
     intervalRef := intervalRef w;
     activeIntervals := activeIntervals w;
     notified := notified w ++ [saved] |}.

(** [saveTestResult] of [localStorage.js]: appends, keeps the last 100
    results, and returns [null] when the store raises. *)
Definition saveTestResult (r : Result.t) (w : World) : option SavedResult * World :=
  if storageThrows w then (None, w)
  else
    let newResult := {| result := r; id := now w; savedTimestamp := now w |} in
    let updatedResults := storage w ++ [newResult] in
    let kept :=
      if bool_decide (100 < length updatedResults)
      then drop (length updatedResults - 100) updatedResults
      else updatedResults in
    (Some newResult,
     {| state := state w;
        storage := kept;
        storageThrows := storageThrows w;
        now := now w;
        played := played w;
        intervalRef := intervalRef w;
        activeIntervals := activeIntervals w;
        notified := notified w |}).

Definition setCurrentStats (s : Engine.RealTimeStats) (st : State) : State :=
  {| timeLimit := timeLimit st; textMode := textMode st; testText := testText st;
     typedText := typedText st; isActive := isActive st; isPaused := isPaused st;
     timeElapsed := timeElapsed st; isComplete := isComplete st;
     isSoundEnabled := isSoundEnabled st; currentStats := s;
     characterStates := characterStates st |}.

Definition setIsActive (b : bool) (st : State) : State :=
  {| timeLimit := timeLimit st; textMode := textMode st; testText := testText st;
     typedText := typedText st; isActive := b; isPaused := isPaused st;
     timeElapsed := timeElapsed st; isComplete := isComplete st;
     isSoundEnabled := isSoundEnabled st; currentStats := currentStats st;
     characterStates := characterStates st |}.

Definition setIsComplete (b : bool) (st : State) : State :=
  {| timeLimit := timeLimit st; textMode := textMode st; testText := testText st;
     typedText := typedText st; isActive := isActive st; isPaused := isPaused st;
     timeElapsed := timeElapsed st; isComplete := b;
     isSoundEnabled := isSoundEnabled st; currentStats := currentStats st;
     characterStates := characterStates st |}.

Definition setTypedText (v : jsstring) (st : State) : State :=
  {| timeLimit := timeLimit st; textMode := textMode st; testText := testText st;
     typedText := v; isActive := isActive st; isPaused := isPaused st;
     timeElapsed := timeElapsed st; isComplete := isComplete st;
     isSoundEnabled := isSoundEnabled st; currentStats := currentStats st;
     characterStates := characterStates st |}.

(** The session accepts input: active, not paused, not complete. *)
Definition running (snap : State) : Prop :=
  isActive snap = true /\ isPaused snap = false /\ isComplete snap = false.

Section Handlers.

(** Whether the parent passed an [onTestComplete] property. *)
Variable onTestComplete : bool.

Definition buildResult (snap : State) (finalTimeElapsed : num)
    (finalStats : Engine.RealTimeStats) (netWPM : num)
    (analysis : Analyzer.Analysis) (instant : Z) : Result.t :=
  {| Result.wpm := Engine.wpm finalStats;
     Result.netWPM := netWPM;
     Result.accuracy := Engine.accuracy finalStats;
     Result.mistakes := length (Analyzer.mistakes analysis);
     Result.totalCharacters := Engine.totalCharacters finalStats;
     Result.correctCharacters := Engine.correctCharacters finalStats;
     Result.incorrectCharacters := Engine.incorrectCharacters finalStats;
     Result.timeElapsed := finalTimeElapsed;
     Result.timeLimit := timeLimit snap;
     Result.textMode := textMode snap;
     Result.testText :=
       substring (testText snap) 0 100 ++
       (if bool_decide (100 < length (testText snap)) then js "..." else []);
     Result.timestamp := instant;
     Result.characterStates :=
       Analyzer.getCharacterStates (testText snap) (typedText snap)
                                   (length (typedText snap));
     Result.mistakeDetails := Analyzer.mistakes analysis |}.

Definition handleTestComplete (snap : State) (w : World) : World :=
  if isComplete snap then w
  else
    let finalTimeElapsed :=
      if truthy (timeElapsed snap) then timeElapsed snap else timeLimit snap in
    let finalStats :=
      Engine.calculateRealTimeStats (testText snap) (typedText snap) finalTimeElapsed in
    let w1 := if isSoundEnabled snap then playSound testComplete (4 # 10) w else w in
    let netWPM :=
      Metrics.calculateNetWPM (Engine.wpm finalStats)
                              (of_nat (Engine.mistakes finalStats))
                              finalTimeElapsed in
    let analysis := Analyzer.analyzeTypedText (testText snap) (typedText snap) in
    let r := buildResult snap finalTimeElapsed finalStats netWPM analysis (now w1) in
    let (savedResult, w2) := saveTestResult r w1 in
    let w3 := set_state (setCurrentStats finalStats) w2 in
    let w4 := set_state (setIsActive false) w3 in
    let w5 := set_state (setIsComplete true) w4 in
    let w6 := clearInterval w5 in
    if onTestComplete then notify savedResult w6 else w6.

Definition handleInputChange (value : jsstring) (snap : State) (w : World) : World :=
  if negb (isActive snap) || isPaused snap || isComplete snap then w
  else
    let w1 :=
      if bool_decide (length (typedText snap) < length value) then
        let newChar := value !! (length value - 1) in
        let expectedChar := testText snap !! (length value - 1) in
        if bool_decide (newChar = expectedChar) then
          if isSoundEnabled snap then playSound keyPress (2 # 10) w else w
        else
          if isSoundEnabled snap then playSound keyError (3 # 10) w else w
      else w in
    if bool_decide (length value <= length (testText snap))
    then set_state (setTypedText value) w1
    else w1.

(** The handler of the render that follows the current world. *)
Definition complete_now (w : World) : World := handleTestComplete (state w) w.

End Handlers.

(** A running session used in the examples: the exact-match scenario,
    [the cat sat] typed in full after 10 of 15 seconds. *)
Definition initialStats : Engine.RealTimeStats :=
  {| Engine.wpm := of_Z 0;
     Engine.accuracy := of_Z 100;
     Engine.correctCharacters := 0;
     Engine.incorrectCharacters := 0;
     Engine.totalCharacters := 0;
     Engine.mistakes := 0;
     Engine.progress := of_Z 0 |}.

Definition example_session : State :=
  {| timeLimit := of_Z 15;
     textMode := js "words";
     testText := js "the cat sat";
     typedText := js "the cat sat";
     isActive := true;
     isPaused := false;
     timeElapsed := of_Z 10;
     isComplete := false;
     isSoundEnabled := true;
     currentStats := initialStats;
     characterStates := [] |}.

Definition example_world : World :=
  {| state := example_session;
     storage := [];
     storageThrows := false;
     now := 1700000000000%Z;
     played := [];
     intervalRef := Some 1;
     activeIntervals := [1];
     notified := [] |}.

End TypingTest.

(** ** Further operations on JavaScript numbers *)

Module NumOps.
Import Num.

(** [a + b]. *)
Definition add (a b : num) : num :=
  match a, b with
  | NaN, _ | _, NaN => NaN
  | Fin x, Fin y => Fin (Qred (x + y)%Q)
  | PInf, NInf | NInf, PInf => NaN
  | PInf, _ | _, PInf => PInf
  | NInf, _ | _, NInf => NInf
  end.

(** [a < b]. *)
Definition ltb (a b : num) : bool := gtb b a.

(** [Math.floor] and [Math.ceil]. *)
Definition floor (a : num) : num :=
  match a with
  | Fin x => of_Z (Qfloor x)
  | other => other
  end.

Definition ceil (a : num) : num :=
  match a with
  | Fin x => of_Z (Qceiling x)
  | other => other
  end.

(** [xs.reduce((sum, x) => sum + x, 0)] *)
Definition sum (xs : list num) : num := foldl add (of_Z 0) xs.

(** [Math.max(...xs)]: [-Infinity] for no argument. *)
Definition max_of (xs : list num) : num := foldl max NInf xs.

End NumOps.

(** ** JavaScript numbers as binary64 values

    The module [Num] above computes on exact rationals; it serves the
    properties that do not depend on the rounding of a value (guards,
    ranges, counts, the order of effects).  Where the value itself is
    stated, the code is embedded here on IEEE 754 binary64 numbers, the
    numbers of JavaScript: [spec_float] with 53 bits of precision, every
    operation rounded to nearest, ties to even, with both zeros, the
    infinities and [NaN]. *)

Module Binary64.

Definition prec : Z := 53.
Definition emax : Z := 1024.

(** The number nearest to a whole number (the number itself below
    [2 ^ 53]). *)
Definition of_Z (z : Z) : spec_float := binary_normalize prec emax z 0 false.
Definition of_nat (n : nat) : spec_float := of_Z (Z.of_nat n).

(** The literal [0]. *)
Definition zero : spec_float := S754_zero false.

(** [a / b], [a * b] *)
Definition div (a b : spec_float) : spec_float := SFdiv prec emax a b.
Definition mul (a b : spec_float) : spec_float := SFmul prec emax a b.

(** [a === b] on numbers: [NaN] equals nothing, the two zeros are equal. *)
Definition strict_eq (a b : spec_float) : bool := SFeqb a b.

(** [a > b] *)
Definition gtb (a b : spec_float) : bool := SFltb b a.

(** The integer [m] with the sign [s]. *)
Definition signed (s : bool) (m : positive) : Z := if s then Z.neg m else Z.pos m.

(** The whole number [n] as the result of rounding a number of sign [s]
    to an integer: a zero keeps the sign. *)
Definition whole (s : bool) (n : Z) : spec_float :=
  if (n =? 0)%Z then S754_zero s else of_Z n.

(** [Math.round]: the nearest integer, ties towards [+Infinity]; a number
    with a non-negative exponent is an integer already, and otherwise
    [m * 2 ^ e] rounds to [floor ((2 m + 2 ^ -e) / 2 ^ (1 - e))]. *)
Definition round (x : spec_float) : spec_float :=
  match x with
  | S754_finite s m e =>
      if (0 <=? e)%Z then x
      else whole s (Z.shiftr (2 * signed s m + 2 ^ (- e)) (- e + 1))
  | other => other
  end.

(** [Math.ceil] *)
Definition ceil (x : spec_float) : spec_float :=
  match x with
  | S754_finite s m e =>
      if (0 <=? e)%Z then x else whole s (- Z.shiftr (- signed s m) (- e))
  | other => other
  end.

(** The whole number a JS number stands for where the code uses it as a
    length or as the bound of a counting loop; given for the whole numbers
    from 0 below [2 ^ 53] only. *)
Definition to_length (x : spec_float) : option nat :=
  match x with
  | S754_zero _ => Some 0
  | S754_finite false m e =>
      if (0 <=? e)%Z then
        if (Z.pos m * 2 ^ e <? 2 ^ 53)%Z then Some (Z.to_nat (Z.pos m * 2 ^ e))
        else None
      else if (Z.pos m mod 2 ^ (- e) =? 0)%Z then Some (Z.to_nat (Z.pos m / 2 ^ (- e)))
      else None
  | _ => None
  end.

(** [calculateWPM] *)
Definition calculateWPM (charactersTyped timeElapsed : spec_float) : spec_float :=
  if strict_eq timeElapsed zero then zero
  else
    let minutes := div timeElapsed (of_Z 60) in
    let words := div charactersTyped (of_Z 5) in
    round (div words minutes).

(** [calculateAccuracy] *)
Definition calculateAccuracy (correctCharacters totalCharacters : spec_float)
    : spec_float :=
  if strict_eq totalCharacters zero then of_Z 100
  else div (round (mul (div correctCharacters totalCharacters) (of_Z 1000))) (of_Z 10).

(** The whole numbers [1 .. n]. *)
Definition whole_seconds (n : nat) : list Z := map Z.of_nat (seq 1 n).

(** The elapsed time in minutes is positive. *)
Definition positive_minutes (seconds : Z) : bool :=
  gtb (div (of_Z seconds) (of_Z 60)) zero.

(** The smallest positive number, [2 ^ -1074] (about [5e-324]). *)
Definition min_value : spec_float := S754_finite false 1 (-1074).

End Binary64.

(** ** Further code of [typingLogic.js] and the predicates used to state
    its properties *)

Module TypingLogicMore.
Import Num.

(** The text neither starts nor ends with a unit that [trim] removes. *)
Definition no_edge_space (s : jsstring) : Prop :=
  (forall c, head s = Some c -> Engine.is_white_space c = false) /\
  (forall c, last s = Some c -> Engine.is_white_space c = false).

(** [n.toString()] for a whole number [n >= 0]: its decimal digits. *)
Definition toString (n : nat) : string :=
  DecimalString.NilZero.string_of_uint (Nat.to_uint n).

(** [s.padStart(2, '0')] *)
Definition padStart2 (s : string) : string :=
  match String.length s with
  | 0 => "00"
  | 1 => String "0" s
  | _ => s
  end.

(** [formatTime] for a whole number of seconds: the text, and the text
    as a JS string. *)
Definition formatTime_text (seconds : nat) : string :=
  let mins := seconds / 60 in
  let secs := seconds mod 60 in
  (padStart2 (toString mins) ++ ":" ++ padStart2 (toString secs))%string.







End TypingLogicMore.

(** ** The result store ([localStorage.js]) *)

Module ResultStore.
Import Num NumOps TypingTest.

(** [getTestResults]: the stored array, or the empty array when the store
    raises. *)
Definition getTestResults (w : World) : list SavedResult :=
  if storageThrows w then [] else storage w.

(** [clearTestResults]: removes the stored array; answers [false] when
    the store raises. *)
Definition clearTestResults (w : World) : bool * World :=
  if storageThrows w then (false, w)
  else (true,
        {| state := state w;
           storage := [];
           storageThrows := storageThrows w;
           now := now w;
           played := played w;
           intervalRef := intervalRef w;
           activeIntervals := activeIntervals w;
           notified := notified w |}).

(** [results.slice(-limit)] for a whole [limit >= 0]: the last [limit]
    elements, but the whole array for [limit = 0], since [-0] is the
    index [0]. *)
Definition slice_last {A : Type} (limit : nat) (results : list A) : list A :=
  if bool_decide (limit = 0) then results
  else drop (length results - limit) results.

Definition getRecentResults (limit : nat) (w : World) : list SavedResult :=
  reverse (slice_last limit (getTestResults w)).

Record Statistics : Type := mkStatistics {
  totalTests : nat;
  averageWPM : num;
  averageAccuracy : num;
  bestWPM : num;
  bestAccuracy : num;
  totalTimeTyped : num;
  totalCharactersTyped : nat;
  totalMistakes : nat
}.

Definition getTestStatistics (w : World) : Statistics :=
  let results := getTestResults w in
  if bool_decide (length results = 0) then
    {| totalTests := 0;
       averageWPM := of_Z 0;
       averageAccuracy := of_Z 0;
       bestWPM := of_Z 0;
       bestAccuracy := of_Z 0;
       totalTimeTyped := of_Z 0;
       totalCharactersTyped := 0;
       totalMistakes := 0 |}
  else
    let totalWPM := sum (map (fun r => Result.wpm (result r)) results) in
    let totalAccuracy := sum (map (fun r => Result.accuracy (result r)) results) in
    let totalTime := sum (map (fun r => Result.timeElapsed (result r)) results) in
    let totalChars :=
      foldl (fun s r => s + Result.totalCharacters (result r)) 0 results in
    let totalErrors :=
      foldl (fun s r => s + Result.mistakes (result r)) 0 results in
    {| totalTests := length results;
       averageWPM := round (div totalWPM (of_nat (length results)));
       averageAccuracy := round (div totalAccuracy (of_nat (length results)));
       bestWPM := max_of (map (fun r => Result.wpm (result r)) results);
       bestAccuracy := max_of (map (fun r => Result.accuracy (result r)) results);
       totalTimeTyped := round totalTime;
       totalCharactersTyped := totalChars;
       totalMistakes := totalErrors |}.


End ResultStore.

(** ** Further code of the text corpus provider *)

Module TextGeneratorMore.
Import TextGenerator.

(** The number of spaces of a text. *)
Definition count_spaces (s : jsstring) : nat :=
  length (filter (fun c => c = space) s).

Section Provider.

Variable commonWords : list jsstring.
Variable sentences : list jsstring.
Variable random : nat -> Q.

(** [getRandomQuote] *)
Definition getRandomQuote (k : nat) : option jsstring * nat :=
  (at_index sentences (random_index random k (length sentences)), S k).

(** [bufferMultiplier], the literal [1.5]: [6755399441055744 * 2 ^ -52]. *)
Definition bufferMultiplier : spec_float := S754_finite false 6755399441055744 (-52).

(** [Math.ceil((timeLimit / 60) * estimatedWPM * bufferMultiplier)] with
    40 words per minute, in binary64 arithmetic. *)
Definition estimatedWords (timeLimit : spec_float) : spec_float :=
  Binary64.ceil
    (Binary64.mul (Binary64.mul (Binary64.div timeLimit (Binary64.of_Z 60))
                                (Binary64.of_Z 40))
                  bufferMultiplier).

(** [generateTextForTime]; [None] when the estimate is not a whole number
    from 0 below [2 ^ 53], for which the generators are not modelled. *)
Definition generateTextForTime (fuel : nat) (timeLimit : spec_float) (mode : jsstring)
    (k : nat) : option (outcome (option jsstring * nat)) :=
  let estimatedWords := estimatedWords timeLimit in
  if bool_decide (mode = js "words") then
    match Binary64.to_length estimatedWords with
    | Some wordCount =>
        Some (generateText commonWords sentences random fuel (js "words") wordCount k)
    | None => None
    end
  else if bool_decide (mode = js "sentences") then
    let estimatedChars := Binary64.mul estimatedWords (Binary64.of_Z 5) in
    match Binary64.to_length estimatedChars with
    | Some targetLength =>
        Some (generateText commonWords sentences random fuel (js "sentences")
                           targetLength k)
    | None => None
    end
  else
    let estimatedChars := Binary64.mul estimatedWords (Binary64.of_Z 5) in
    match Binary64.to_length estimatedChars with
    | Some targetLength =>
        Some (generateText commonWords sentences random fuel (js "mixed")
                           targetLength k)
    | None => None
    end.

End Provider.

(** The estimate for a whole number of seconds is a count of at least one
    word, and five times as many characters. *)
Definition estimate_fits (seconds : Z) : bool :=
  match Binary64.to_length (estimatedWords (Binary64.of_Z seconds)),
        Binary64.to_length (Binary64.mul (estimatedWords (Binary64.of_Z seconds))
                                         (Binary64.of_Z 5)) with
  | Some wordCount, Some targetLength =>
      (1 <=? wordCount) && (targetLength =? wordCount * 5)
  | _, _ => false
  end.

(** The sentences at the indices [idxs], joined by single spaces. *)
Definition chosen_text (sentences : list jsstring) (idxs : list Z) : jsstring :=
  join (at_index sentences <$> idxs).

(** What the loop of [generateRandomSentences] keeps true of the text it
    accumulates and of the set of used indices. *)
Definition sentences_invariant (sentences : list jsstring) (targetLength : nat)
    (text : jsstring) (usedSentences : gset Z) : Prop :=
  exists idxs : list Z,
    NoDup idxs /\
    (forall i, i ∈ idxs -> i ∈ usedSentences) /\
    Forall (fun i => is_Some (at_index sentences i)) idxs /\
    text = chosen_text sentences idxs /\
    (idxs = [] \/ (text <> [] /\ length text <= targetLength + 50)).

End TextGeneratorMore.

(** ** The [TypingTest] component: pause, timer and statistics effect *)

Module Lifecycle.
Import Num NumOps TypingTest.

(** The world of the component together with its [startTimeRef]
    reference, [null] ([None]) until a test starts. *)
Record Session : Type := mkSession {
  world : World;
  startTimeRef : option num
}.

(** A [null] reference counts as [0] in arithmetic. *)
Definition ref_value (r : option num) : num :=
  match r with Some x => x | None => of_Z 0 end.


Definition setTimeElapsed (t : num) (st : State) : State :=
  {| timeLimit := timeLimit st; textMode := textMode st; testText := testText st;
     typedText := typedText st; isActive := isActive st; isPaused := isPaused st;
     timeElapsed := t; isComplete := isComplete st;
     isSoundEnabled := isSoundEnabled st; currentStats := currentStats st;
     characterStates := characterStates st |}.

Definition setCharacterStates (cs : list Analyzer.CharState) (st : State) : State :=
  {| timeLimit := timeLimit st; textMode := textMode st; testText := testText st;
     typedText := typedText st; isActive := isActive st; isPaused := isPaused st;
     timeElapsed := timeElapsed st; isComplete := isComplete st;
     isSoundEnabled := isSoundEnabled st; currentStats := currentStats st;
     characterStates := cs |}.




(** The callback of that interval. *)
Definition timerTick (onTestComplete : bool) (snap : State) (s : Session) : Session :=
  let elapsed :=
    floor (div (sub (of_Z (now (world s))) (ref_value (startTimeRef s))) (of_Z 1000)) in
  let w1 := set_state (setTimeElapsed elapsed) (world s) in
  {| world :=
       if geb elapsed (timeLimit snap)
       then handleTestComplete onTestComplete snap w1
       else w1;
     startTimeRef := startTimeRef s |}.

(** The effect that refreshes the statistics after a render and checks
    the end conditions. *)
Definition statsEffect (onTestComplete : bool) (snap : State) (w : World) : World :=
  if isActive snap && negb (bool_decide (testText snap = [])) then
    let stats :=
      Engine.calculateRealTimeStats (testText snap) (typedText snap) (timeElapsed snap) in
    let w1 := set_state (setCurrentStats stats) w in
    let states :=
      Analyzer.getCharacterStates (testText snap) (typedText snap)
                                  (length (typedText snap)) in
    let w2 := set_state (setCharacterStates states) w1 in
    let endCheck :=
      Engine.checkEndConditions (testText snap) (typedText snap)
                                (timeLimit snap) (timeElapsed snap) in
    if Engine.shouldEnd endCheck && negb (isComplete snap)
    then handleTestComplete onTestComplete snap w2
    else w2
  else w.

End Lifecycle.

(** ** Theme preference ([saveTheme], [getTheme])

    The entries of [localStorage] as strings under string keys; every
    access raises when [raises] is set. *)

Module Preferences.

Record LocalStorage : Type := mkLocalStorage {
  items : gmap (list N) (list N);
  raises : bool
}.

Definition THEMES : jsstring := js "typeVelocity_theme".

(** [None] stands for a raised exception. *)
Definition setItem (key value : jsstring) (ls : LocalStorage) : option LocalStorage :=
  if raises ls then None
  else Some {| items := <[key := value]> (items ls); raises := raises ls |}.

(** The outer [None] stands for a raised exception, the inner one for
    [null]. *)
Definition getItem (key : jsstring) (ls : LocalStorage) : option (option (list N)) :=
  if raises ls then None else Some (items ls !! key).

Definition saveTheme (theme : jsstring) (ls : LocalStorage) : bool * LocalStorage :=
  match setItem THEMES theme ls with
  | Some ls' => (true, ls')
  | None => (false, ls)
  end.

(** [localStorage.getItem(...) || 'mauve']: [null] and the empty string
    are falsy. *)
Definition getTheme (ls : LocalStorage) : jsstring :=
  match getItem THEMES ls with
  | Some (Some theme) => if bool_decide (theme = []) then js "mauve" else theme
  | Some None => js "mauve"
  | None => js "mauve"
  end.

End Preferences.

(** ** Mistake frequencies ([getMistakeAnalysis]) *)

Module MistakeAnalysis.
Import TypingTest ResultStore.

(** The separator [' → '] (U+2192 between two spaces). *)
Definition arrow : jsstring := [32; 8594; 32]%N.

(** [s || '?'] *)
Definition or_question (s : jsstring) : jsstring :=
  if bool_decide (s = []) then js "?" else s.

Definition mistake_key (m : Analyzer.Mistake) : jsstring :=
  or_question (Analyzer.expected m) ++ arrow ++ or_question (Analyzer.typed m).

(** [mistakeFreq[key] = (mistakeFreq[key] || 0) + 1] on an object whose
    keys are enumerated in insertion order (a key holds the separator, so
    it is never an array index and never a property of the prototype). *)
Fixpoint bump (key : jsstring) (mistakeFreq : list (list N * nat)) : list (list N * nat) :=
  match mistakeFreq with
  | [] => [(key, 1)]
  | (k, c) :: rest =>
      if bool_decide (k = key) then (k, c + 1) :: rest
      else (k, c) :: bump key rest
  end.

(** The two nested [forEach] loops. *)
Definition count_mistakes (results : list SavedResult) : list (list N * nat) :=
  foldl (fun mistakeFreq r =>
           foldl (fun mistakeFreq m => bump (mistake_key m) mistakeFreq)
                 mistakeFreq (Result.mistakeDetails (result r)))
        [] results.

(** [s.split(sep)] for a separator that is not empty: [skip] counts the
    units of a separator still to pass, [cur] holds the current piece
    backwards. *)
Fixpoint split_go (sep s : jsstring) (skip : nat) (cur : jsstring) : list (list N) :=
  match s with
  | [] => [reverse cur]
  | c :: rest =>
      match skip with
      | S k => split_go sep rest k cur
      | 0 =>
          if bool_decide (take (length sep) s = sep)
          then reverse cur :: split_go sep rest (length sep - 1) []
          else split_go sep rest 0 (c :: cur)
      end
  end.

Definition split (sep s : jsstring) : list (list N) := split_go sep s 0 [].

(** An element of the answer; [None] is [undefined]. *)
Record Entry : Type := mkEntry {
  mistake : jsstring;
  count : nat;
  expected : option (list N);
  typed : option (list N)
}.

Definition to_entry (kc : list N * nat) : Entry :=
  {| mistake := kc.1;
     count := kc.2;
     expected := split arrow kc.1 !! 0;
     typed := split arrow kc.1 !! 1 |}.

(** [sort((a, b) => b.count - a.count)]: larger counts first, equal
    counts in their former order. *)
Fixpoint insert_desc (e : Entry) (sorted : list Entry) : list Entry :=
  match sorted with
  | [] => [e]
  | x :: rest =>
      if bool_decide (count x <= count e) then e :: sorted
      else x :: insert_desc e rest
  end.

Definition sort_desc (entries : list Entry) : list Entry :=
  foldr insert_desc [] entries.

Definition getMistakeAnalysis (w : World) : list Entry :=
  take 10 (sort_desc (map to_entry (count_mistakes (getTestResults w)))).

(** All mistake records of the stored results, oldest first. *)
Definition stored_mistakes (w : World) : list Analyzer.Mistake :=
  flat_map (fun r => Result.mistakeDetails (result r)) (getTestResults w).

(** How many of the records [ms] are filed under [key]. *)
Definition occurrences (key : jsstring) (ms : list Analyzer.Mistake) : nat :=
  length (filter (fun m => mistake_key m = key) ms).

End MistakeAnalysis.

(** ** Result page and dashboard *)

Module Views.
Import Num NumOps TypingTest ResultStore.

Inductive Level : Type := Expert | Advanced | Intermediate | Beginner.

Inductive Icon : Type := Trophy | TrendingUp | Target | Clock.

Record Performance : Type := mkPerformance {
  level : Level;
  levelColor : string;
  icon : Icon
}.

(** [getPerformanceLevel] of the result page. *)
Definition getPerformanceLevel (wpm : num) : Performance :=
  if geb wpm (of_Z 70) then mkPerformance Expert "bg-green-500" Trophy
  else if geb wpm (of_Z 50) then mkPerformance Advanced "bg-blue-500" TrendingUp
  else if geb wpm (of_Z 30) then mkPerformance Intermediate "bg-yellow-500" Target
  else mkPerformance Beginner "bg-gray-500" Clock.

(** [getAccuracyColor] of the result page. *)
Definition getAccuracyColor (accuracy : num) : string :=
  if geb accuracy (of_Z 95) then "text-green-500"
  else if geb accuracy (of_Z 90) then "text-blue-500"
  else if geb accuracy (of_Z 80) then "text-yellow-500"
  else "text-red-500".

(** A slice of a distribution chart. *)
Record Bucket : Type := mkBucket {
  name : string;
  value : nat;
  color : string
}.

Section Distributions.

(** The chart data, of which the distributions read the accuracy and
    the speed. *)
Context {Datum : Type}.
Variables (accuracy wpm : Datum -> num).

Definition accuracyDistribution (chartData : list Datum) : list Bucket :=
  List.filter (fun item => 0 <? value item)
    [ mkBucket "Excellent (95-100%)"
        (length (List.filter (fun d => geb (accuracy d) (of_Z 95)) chartData))
        "#10B981";
      mkBucket "Good (90-94%)"
        (length (List.filter (fun d => geb (accuracy d) (of_Z 90) &&
                                       ltb (accuracy d) (of_Z 95)) chartData))
        "#3B82F6";
      mkBucket "Fair (80-89%)"
        (length (List.filter (fun d => geb (accuracy d) (of_Z 80) &&
                                       ltb (accuracy d) (of_Z 90)) chartData))
        "#F59E0B";
      mkBucket "Poor (<80%)"
        (length (List.filter (fun d => ltb (accuracy d) (of_Z 80)) chartData))
        "#EF4444" ].

Definition speedDistribution (chartData : list Datum) : list Bucket :=
  List.filter (fun item => 0 <? value item)
    [ mkBucket "Expert (70+ WPM)"
        (length (List.filter (fun d => geb (wpm d) (of_Z 70)) chartData))
        "#10B981";
      mkBucket "Advanced (50-69 WPM)"
        (length (List.filter (fun d => geb (wpm d) (of_Z 50) &&
                                       ltb (wpm d) (of_Z 70)) chartData))
        "#3B82F6";
      mkBucket "Intermediate (30-49 WPM)"
        (length (List.filter (fun d => geb (wpm d) (of_Z 30) &&
                                       ltb (wpm d) (of_Z 50)) chartData))
        "#F59E0B";
      mkBucket "Beginner (<30 WPM)"
        (length (List.filter (fun d => ltb (wpm d) (of_Z 30)) chartData))
        "#EF4444" ].

(** The slice of the speed chart named after a performance level. *)
Definition level_bucket (l : Level) : string :=
  match l with
  | Expert => "Expert (70+ WPM)"
  | Advanced => "Advanced (50-69 WPM)"
  | Intermediate => "Intermediate (30-49 WPM)"
  | Beginner => "Beginner (<30 WPM)"
  end.

(** The value a chart shows for a slice: none when the slice is absent. *)
Definition shown (bucket : string) (distribution : list Bucket) : nat :=
  list_sum (map value (List.filter (fun item => String.eqb (name item) bucket)
                                   distribution)).

End Distributions.

#[global] Instance Level_eq_dec : EqDecision Level.
Proof. solve_decision. Defined.

(** The comparison figures of the dashboard. *)
Record PeriodStats : Type := mkPeriodStats {
  avgWPM : num;
  bestWPM : num;
  avgAccuracy : num
}.

(** [recentResults.slice(0, half)] *)
Definition previousResults (recentResults : list SavedResult) : list SavedResult :=
  let half := length recentResults / 2 in
  take half recentResults.

(** [previousPeriodStats]; [None] is [null]. *)
Definition previousPeriodStats (recentResults : list SavedResult) : option PeriodStats :=
  if bool_decide (length recentResults <= 1) then None
  else
    let previousResults := previousResults recentResults in
    let totalWPM := sum (map (fun r => Result.wpm (result r)) previousResults) in
    let totalAccuracy := sum (map (fun r => Result.accuracy (result r)) previousResults) in
    Some {| avgWPM := round (div totalWPM (of_nat (length previousResults)));
            bestWPM := max_of (map (fun r => Result.wpm (result r)) previousResults);
            avgAccuracy := round (div totalAccuracy (of_nat (length previousResults))) |}.

End Views.

(** * Properties *)

(** ** The analyzer *)

Section AnalyzerFacts.
Import Analyzer.

Variables originalText typedText : jsstring.

Lemma analyze_step_effect (a : Analysis) (i : nat) :
  let a' := analyze_step originalText typedText a i in
  characterStates a' = characterStates a ++ [spec_state originalText typedText i] /\
  mistakes a' = mistakes a ++ spec_mistakes originalText typedText i /\
  correctCharacters a' = correctCharacters a + spec_correct originalText typedText i /\
  incorrectCharacters a' =
    incorrectCharacters a + length (spec_mistakes originalText typedText i) /\
  totalCharacters a' = totalCharacters a.
Proof.
  unfold analyze_step, spec_state, spec_mistakes, spec_correct, char_or_empty.
  destruct (originalText !! i) as [c|] eqn:Ho, (typedText !! i) as [d|] eqn:Ht.
  - apply lookup_lt_Some in Ho as Ho', Ht as Ht'.
    rewrite !bool_decide_eq_true_2 by lia. cbn [andb].
    destruct (decide (c = d)) as [->|Hne].
    + rewrite bool_decide_eq_true_2 by reflexivity. cbn.
      repeat split; try lia. now rewrite app_nil_r.
    + rewrite bool_decide_eq_false_2 by congruence. cbn.
      repeat split; lia.
  - apply lookup_lt_Some in Ho as Ho'. apply lookup_ge_None in Ht as Ht'.
    rewrite (bool_decide_eq_false_2 (i < length typedText)) by lia. cbn [andb].
    rewrite bool_decide_eq_true_2 by lia. cbn.
    repeat split; try lia. now rewrite app_nil_r.
  - apply lookup_lt_Some in Ht as Ht'. apply lookup_ge_None in Ho as Ho'.
    rewrite (bool_decide_eq_false_2 (i < length originalText)) by lia.
    rewrite andb_false_r.
    rewrite bool_decide_eq_false_2 by lia. cbn.
    repeat split; lia.
  - apply lookup_ge_None in Ht as Ht'.
    rewrite (bool_decide_eq_false_2 (i < length typedText)) by lia. cbn [andb].
    rewrite bool_decide_eq_true_2 by lia. cbn.
    repeat split; try lia. now rewrite app_nil_r.
Qed.

Lemma analyze_upto_S (n : nat) :
  analyze_upto originalText typedText (S n) =
  analyze_step originalText typedText (analyze_upto originalText typedText n) n.
Proof.
  unfold analyze_upto. rewrite seq_S, foldl_app. reflexivity.
Qed.

(** The loop builds exactly the reference classification, in order. *)
Lemma analyze_upto_spec (n : nat) :
  let a := analyze_upto originalText typedText n in
  characterStates a = map (spec_state originalText typedText) (seq 0 n) /\
  mistakes a = flat_map (spec_mistakes originalText typedText) (seq 0 n) /\
  correctCharacters a = list_sum (map (spec_correct originalText typedText) (seq 0 n)) /\
  incorrectCharacters a =
    length (flat_map (spec_mistakes originalText typedText) (seq 0 n)) /\
  totalCharacters a = length typedText.
Proof.
  induction n as [|n IH].
  - cbn. repeat split.
  - cbn zeta in *. rewrite analyze_upto_S.
    destruct (analyze_step_effect (analyze_upto originalText typedText n) n)
      as (Hs & Hm & Hc & Hi & Ht).
    destruct IH as (IHs & IHm & IHc & IHi & IHt).
    rewrite Hs, Hm, Hc, Hi, Ht, IHs, IHm, IHc, IHi, IHt.
    rewrite seq_S, map_app, flat_map_app, map_app, list_sum_app, length_app.
    cbn. rewrite app_nil_r. repeat split; lia.
Qed.

Lemma filter_spec_mistakes (i j : nat) :
  filter (fun m => position m = i) (spec_mistakes originalText typedText j) =
  if decide (j = i) then spec_mistakes originalText typedText j else [].
Proof.
  unfold spec_mistakes.
  destruct (originalText !! j), (typedText !! j); try destruct (decide (_ = _ :> N));
    destruct (decide (j = i)); try reflexivity;
    first [ rewrite filter_cons_True by assumption
          | rewrite filter_cons_False by assumption ]; reflexivity.
Qed.

Lemma filter_position_flat_map (i n : nat) :
  filter (fun m => position m = i)
         (flat_map (spec_mistakes originalText typedText) (seq 0 n)) =
  if decide (i < n) then spec_mistakes originalText typedText i else [].
Proof.
  induction n as [|n IH].
  - reflexivity.
  - rewrite seq_S, flat_map_app, filter_app, IH.
    change (flat_map (spec_mistakes originalText typedText) [0 + n])
      with (spec_mistakes originalText typedText n ++ []).
    rewrite app_nil_r, filter_spec_mistakes.
    destruct (decide (i < n)), (decide (n = i)), (decide (i < S n));
      subst; try lia; try reflexivity.
    now rewrite app_nil_r.
Qed.

End AnalyzerFacts.

Section AnalyzerClaims.
Import Analyzer.

Lemma spec_typed_position (target typedText : jsstring) (i : nat) :
  spec_correct target typedText i + length (spec_mistakes target typedText i) =
  if decide (i < length typedText) then 1 else 0.
Proof.
  unfold spec_correct, spec_mistakes.
  destruct (typedText !! i) as [d|] eqn:Ht.
  - apply lookup_lt_Some in Ht. rewrite decide_True by assumption.
    destruct (target !! i); [destruct (decide _)|]; reflexivity.
  - apply lookup_ge_None in Ht. rewrite decide_False by lia.
    destruct (target !! i); reflexivity.
Qed.

Lemma spec_typed_count (target typedText : jsstring) (n : nat) :
  list_sum (map (spec_correct target typedText) (seq 0 n)) +
  length (flat_map (spec_mistakes target typedText) (seq 0 n)) =
  Nat.min n (length typedText).
Proof.
  induction n as [|n IH]; [reflexivity|].
  rewrite seq_S, map_app, flat_map_app, list_sum_app, length_app.
  change (flat_map (spec_mistakes target typedText) [0 + n])
    with (spec_mistakes target typedText n ++ []).
  rewrite app_nil_r.
  change (list_sum (map (spec_correct target typedText) [0 + n]))
    with (spec_correct target typedText n + 0).
  pose proof (spec_typed_position target typedText n) as H.
  destruct (decide (n < length typedText)); lia.
Qed.

Lemma spec_state_mistakes (target typedText : jsstring) (i : nat) :
  length (spec_mistakes target typedText i) =
  match spec_state target typedText i with
  | incorrect | extra => 1
  | _ => 0
  end.
Proof.
  unfold spec_mistakes, spec_state.
  destruct (target !! i), (typedText !! i); try destruct (decide _); reflexivity.
Qed.

Lemma analyze_state_lookup (target typedText : jsstring) (i : nat) :
  i < Nat.max (length target) (length typedText) ->
  characterStates (analyzeTypedText target typedText) !! i =
  Some (spec_state target typedText i).
Proof.
  intros Hi. unfold analyzeTypedText.
  destruct (analyze_upto_spec target typedText
              (Nat.max (length target) (length typedText))) as (-> & _).
  rewrite list_lookup_fmap, lookup_seq_lt by assumption. reflexivity.
Qed.

Lemma analyze_mistakes_at (target typedText : jsstring) (i : nat) :
  i < Nat.max (length target) (length typedText) ->
  mistakes_at i (analyzeTypedText target typedText) = spec_mistakes target typedText i.
Proof.
  intros Hi. unfold mistakes_at, analyzeTypedText.
  destruct (analyze_upto_spec target typedText
              (Nat.max (length target) (length typedText))) as (_ & -> & _).
  rewrite filter_position_flat_map, decide_True by assumption. reflexivity.
Qed.

(** C1. For every target and typed string, the analysis has one state per
    position up to the longer of the two lengths, and position [i] is
    [correct] when both strings have the same unit there, [incorrect] with
    the substitution mistake [{position: i, expected: target[i], typed:
    typed[i]}] when both have a unit and they differ, [missed] with no
    mistake when [i >= len(typed)], and [extra] with the insertion mistake
    [{position: i, expected: '', typed: typed[i]}] when [i >= len(target)]. *)
Theorem analyzeTypedText_classifies (target typedText : jsstring) :
  let a := analyzeTypedText target typedText in
  length (characterStates a) = Nat.max (length target) (length typedText) /\
  forall i, i < Nat.max (length target) (length typedText) ->
    (forall c d, target !! i = Some c -> typedText !! i = Some d -> c = d ->
       characterStates a !! i = Some correct /\ mistakes_at i a = []) /\
    (forall c d, target !! i = Some c -> typedText !! i = Some d -> c <> d ->
       characterStates a !! i = Some incorrect /\
       mistakes_at i a = [mkMistake i [c] [d] substitution]) /\
    (length typedText <= i ->
       characterStates a !! i = Some missed /\ mistakes_at i a = []) /\
    (length target <= i ->
       exists d, typedText !! i = Some d /\
         characterStates a !! i = Some extra /\
         mistakes_at i a = [mkMistake i [] [d] insertion]).
Proof.
  cbn zeta. split.
  - unfold analyzeTypedText.
    destruct (analyze_upto_spec target typedText
                (Nat.max (length target) (length typedText))) as (-> & _).
    now rewrite length_map, length_seq.
  - intros i Hi.
    rewrite (analyze_state_lookup _ _ _ Hi), (analyze_mistakes_at _ _ _ Hi).
    unfold spec_state, spec_mistakes.
    split; [|split; [|split]].
    + intros c d -> -> ->. now destruct (decide (d = d)).
    + intros c d -> -> Hne. now destruct (decide (c = d)).
    + intros Hge. destruct (typedText !! i) as [d|] eqn:Hd.
      * apply lookup_lt_Some in Hd. lia.
      * now destruct (target !! i).
    + intros Hge. destruct (target !! i) as [c|] eqn:Ho.
      { apply lookup_lt_Some in Ho. lia. }
      destruct (typedText !! i) as [d|] eqn:Hd.
      * exists d. repeat split.
      * apply lookup_ge_None in Hd. lia.
Qed.

Lemma analyzeTypedText_classifies_witness :
  let a := analyzeTypedText (js "abc") (js "abXde") in
  characterStates a = [correct; correct; incorrect; extra; extra] /\
  (characterStates a !! 2 = Some incorrect /\
   mistakes_at 2 a = [mkMistake 2 (js "c") (js "X") substitution]) /\
  (exists d, js "abXde" !! 4 = Some d /\
     characterStates a !! 4 = Some extra /\
     mistakes_at 4 a = [mkMistake 4 [] [d] insertion]).
Proof.
  split; [reflexivity|]. split.
  - apply (analyzeTypedText_classifies (js "abc") (js "abXde")) with (i := 2);
      [cbn; lia | reflexivity | reflexivity | discriminate].
  - apply (analyzeTypedText_classifies (js "abc") (js "abXde")) with (i := 4);
      cbn; lia.
Defined.

(** C10. For every target and typed string the counts of the analysis
    satisfy [correctCharacters + incorrectCharacters = totalCharacters =
    len(typed)], the number of recorded mistakes is [incorrectCharacters],
    and a position holds exactly one mistake record when its state is
    [incorrect] or [extra] and none otherwise. *)
Theorem analyzeTypedText_counts (target typedText : jsstring) :
  let a := analyzeTypedText target typedText in
  correctCharacters a + incorrectCharacters a = totalCharacters a /\
  totalCharacters a = length typedText /\
  length (mistakes a) = incorrectCharacters a /\
  forall i s, characterStates a !! i = Some s ->
    length (mistakes_at i a) =
    match s with incorrect | extra => 1 | _ => 0 end.
Proof.
  cbn zeta.
  pose proof (analyze_upto_spec target typedText
                (Nat.max (length target) (length typedText))) as H.
  cbn zeta in H. fold (analyzeTypedText target typedText) in H.
  destruct H as (Hs & Hm & Hc & Hi & Ht).
  repeat split.
  - rewrite Hc, Hi, Ht, spec_typed_count. lia.
  - exact Ht.
  - now rewrite Hm, Hi.
  - intros i s Hlook.
    assert (Hlt : i < Nat.max (length target) (length typedText)).
    { apply lookup_lt_Some in Hlook.
      now rewrite Hs, length_map, length_seq in Hlook. }
    rewrite (analyze_state_lookup _ _ _ Hlt) in Hlook. injection Hlook as <-.
    rewrite (analyze_mistakes_at _ _ _ Hlt). apply spec_state_mistakes.
Qed.

Lemma analyzeTypedText_counts_witness :
  let a := analyzeTypedText (js "abc") (js "abXde") in
  correctCharacters a = 2 /\ incorrectCharacters a = 3 /\
  length (mistakes_at 3 a) = 1.
Proof.
  cbn zeta. split; [reflexivity|]. split; [reflexivity|].
  apply (analyzeTypedText_counts (js "abc") (js "abXde")) with (i := 3) (s := extra).
  reflexivity.
Defined.

(** The one-substitution scenario of the specification. *)
Example one_substitution_scenario :
  let a := analyzeTypedText (js "abc") (js "abd") in
  mistakes a = [mkMistake 2 (js "c") (js "d") substitution] /\
  correctCharacters a = 2 /\ incorrectCharacters a = 1.
Proof. repeat split. Qed.

End AnalyzerClaims.

(** ** End conditions *)

Lemma substring_prefix (s : jsstring) (n : nat) : substring s 0 n = take n s.
Proof.
  unfold substring. cbn [Nat.min Nat.max]. rewrite Nat.sub_0_r, drop_0.
  destruct (Nat.le_ge_cases n (length s)) as [H|H].
  - now rewrite Nat.min_l.
  - rewrite Nat.min_r by assumption. now rewrite firstn_all, take_ge.
Qed.

Section EndConditionClaims.
Import Num Engine.

(** C2. For every target text, typed text, time limit and elapsed time,
    the end-condition check says that the session should end exactly when
    [elapsed >= timeLimit] or ([len(typed) >= len(target)] and the trimmed
    typed text equals the trimmed prefix of the target of length
    [len(typed)]); the reason is [time] exactly when the time condition
    holds, also when the text is completed too, and it is [completed]
    exactly when the time condition fails and the text condition holds. *)
Theorem checkEndConditions_decides (target typedText : jsstring)
    (timeLimit elapsed : num) :
  let r := checkEndConditions target typedText timeLimit elapsed in
  let time_up := geb elapsed timeLimit = true in
  let text_done :=
    length target <= length typedText /\
    trim typedText = trim (take (length typedText) target) in
  (shouldEnd r = true <-> time_up \/ text_done) /\
  (time_up -> reason r = Some time) /\
  (reason r = Some time -> time_up) /\
  (reason r = Some completed <-> ~ time_up /\ text_done).
Proof.
  cbn zeta. unfold checkEndConditions. cbn [shouldEnd reason].
  rewrite substring_prefix.
  set (tc := bool_decide (length target <= length typedText) &&
             bool_decide (trim typedText = trim (take (length typedText) target))).
  assert (Htc : tc = true <->
                length target <= length typedText /\
                trim typedText = trim (take (length typedText) target)).
  { unfold tc. rewrite andb_true_iff, !bool_decide_eq_true. reflexivity. }
  destruct (geb elapsed timeLimit); cbn [orb]; [|destruct tc].
  - intuition discriminate.
  - intuition discriminate.
  - intuition discriminate.
Qed.

(** The timeout scenario of the specification: [timeLimit = 15],
    [elapsed = 15], a typed text shorter than the target. *)
Lemma checkEndConditions_decides_witness :
  let r := checkEndConditions (js "the cat sat") (js "the c") (of_Z 15) (of_Z 15) in
  geb (of_Z 15) (of_Z 15) = true /\ reason r = Some time /\ reason r <> Some completed.
Proof.
  cbn zeta. split; [reflexivity|]. split.
  - apply (checkEndConditions_decides (js "the cat sat") (js "the c") (of_Z 15) (of_Z 15)).
    reflexivity.
  - discriminate.
Defined.

End EndConditionClaims.

(** ** Metrics *)

Section NumFacts.
Import Num.

Lemma Qeq_bool_false_iff (x y : Q) : Qeq_bool x y = false <-> ~ x == y.
Proof.
  split.
  - apply Qeq_bool_neq.
  - intros H. destruct (Qeq_bool x y) eqn:E; [|reflexivity].
    now apply Qeq_bool_eq in E.
Qed.

Lemma div_finite (x y : Q) :
  ~ y == 0 -> div (Fin x) (Fin y) = Fin (Qred (x / y)).
Proof.
  intros H. cbn [div]. apply Qeq_bool_false_iff in H. now rewrite H.
Qed.

Lemma Fin_Qeq (x y : Q) : x == y -> Fin (Qred x) = Fin (Qred y).
Proof. intros H. f_equal. now apply Qred_complete. Qed.

Lemma Qdiv_nonzero (x y : Q) : ~ x == 0 -> ~ y == 0 -> ~ x / y == 0.
Proof.
  intros Hx Hy H. apply Hx.
  rewrite <- (Qmult_div_r x y Hy), H. ring.
Qed.

Lemma round_finite (x : Q) : round (Fin x) = of_Z (Qfloor (x + (1 # 2))).
Proof. reflexivity. Qed.

(** [Math.round] leaves an integer as it is. *)
Lemma round_integer (z : Z) : round (of_Z z) = of_Z z.
Proof.
  unfold of_Z. cbn [round]. unfold of_Z. do 2 f_equal.
  assert (H : (inject_Z z <= inject_Z z + (1 # 2))%Q).
  { rewrite <- (Qplus_0_r (inject_Z z)) at 1. apply Qplus_le_r. discriminate. }
  apply Qfloor_resp_le in H. rewrite Qfloor_Z in H.
  assert (H' : (inject_Z z + (1 # 2) < inject_Z (z + 1))%Q).
  { rewrite inject_Z_plus. apply Qplus_lt_r. reflexivity. }
  pose proof (Qfloor_le (inject_Z z + (1 # 2))) as Hf.
  assert (Hlt : (inject_Z (Qfloor (inject_Z z + (1 # 2))) < inject_Z (z + 1))%Q).
  { eapply Qle_lt_trans; eassumption. }
  rewrite <- Zlt_Qlt in Hlt. lia.
Qed.

End NumFacts.

Section MetricsClaims.
Import Num Metrics.

Lemma minutes_nonzero (t : num) :
  strict_eq t (of_Z 0) = false -> strict_eq (div t (of_Z 60)) (of_Z 0) = false.
Proof.
  destruct t as [| | |q]; try reflexivity.
  cbn [strict_eq of_Z]. intros H. apply Qeq_bool_false_iff in H.
  unfold of_Z. rewrite div_finite by discriminate.
  cbn [strict_eq]. apply Qeq_bool_false_iff.
  rewrite Qred_correct. apply Qdiv_nonzero; [assumption | discriminate].
Qed.


Lemma calculateAccuracy_rational (c n : Q) :
  ~ n == 0 ->
  calculateAccuracy (Fin c) (Fin n) =
    Fin (Qred (inject_Z (Qfloor (c / n * 1000 + (1 # 2))) / 10)).
Proof.
  intros Hn. unfold calculateAccuracy.
  replace (strict_eq (Fin n) (of_Z 0)) with false
    by (symmetry; now apply Qeq_bool_false_iff).
  rewrite div_finite by assumption.
  unfold of_Z at 1. cbn [mul]. rewrite round_finite.
  unfold of_Z. rewrite div_finite by discriminate.
  apply Fin_Qeq.
  assert (E : Qfloor (Qred (Qred (c / n) * inject_Z 1000) + (1 # 2)) =
              Qfloor (c / n * 1000 + (1 # 2))).
  { apply Qfloor_comp. now rewrite !Qred_correct. }
  now rewrite E.
Qed.

Lemma of_nat_nonzero (n : nat) : n <> 0 -> ~ inject_Z (Z.of_nat n) == 0.
Proof.
  intros Hn H. unfold Qeq in H. cbn in H. lia.
Qed.



(** With no elapsed time and at least one mistake the penalty is
    [Infinity] and the net speed is floored at [0]. *)
Lemma calculateNetWPM_zero_time_mistakes (g m : Q) :
  (0 < m)%Q -> calculateNetWPM (Fin g) (Fin m) (of_Z 0) = of_Z 0.
Proof.
  intros Hm. unfold calculateNetWPM. cbn zeta.
  change (div (of_Z 0) (of_Z 60)) with (Fin 0).
  cbn [div]. change (Qeq_bool 0 0) with true. cbn iota.
  apply Qgt_alt in Hm. rewrite Hm. reflexivity.
Qed.

(** C5, at the failing input. With no mistake and no elapsed time,
    [calculateNetWPM] computes [0 / 0] for the penalty and returns [NaN]
    whatever the gross speed: the function has no branch for a zero
    elapsed time, unlike [calculateWPM]. *)
Theorem calculateNetWPM_zero_time_NaN (g : num) :
  calculateNetWPM g (of_nat 0) (of_Z 0) = NaN /\
  is_finite (calculateNetWPM g (of_nat 0) (of_Z 0)) = false.
Proof. destruct g; split; reflexivity. Qed.

End MetricsClaims.

(** ** Metrics on binary64 numbers *)

Section Binary64Claims.
Import Binary64.

(** A number divided by itself is exactly 1. *)
Lemma div_self (s : bool) (m : positive) (e : Z) :
  div (S754_finite s m e) (S754_finite s m e) = of_Z 1.
Proof.
  unfold div, SFdiv, SFdiv_core_binary.
  replace (Zdigits2 (Z.pos m) + e - (Zdigits2 (Z.pos m) + e))%Z with 0%Z by lia.
  replace (e - e)%Z with 0%Z by lia.
  change (Z.min (fexp prec emax 0) 0) with (-53)%Z.
  change (0 - -53)%Z with 53%Z. cbv iota.
  rewrite Z.shiftl_mul_pow2 by lia.
  destruct (Z.div_eucl (Z.pos m * 2 ^ 53) (Z.pos m)) as [q r] eqn:E.
  assert (Hq : q = (2 ^ 53)%Z).
  { change q with (fst (q, r)). rewrite <- E.
    change (fst (Z.div_eucl ?a ?b)) with (a / b)%Z.
    rewrite Z.mul_comm. now apply Z.div_mul. }
  assert (Hr : r = 0%Z).
  { change r with (snd (q, r)). rewrite <- E.
    change (snd (Z.div_eucl ?a ?b)) with (a mod b)%Z.
    rewrite Z.mul_comm. now apply Z.mod_mul. }
  subst q r.
  assert (Hloc : new_location (Z.pos m) 0 = loc_Exact).
  { unfold new_location, new_location_even, new_location_odd.
    now destruct (Z.even (Z.pos m)). }
  rewrite Hloc. now destruct s.
Qed.

Lemma digits2_size (p : positive) : digits2_pos p = Pos.size p.
Proof. induction p; cbn; now rewrite ?IHp. Qed.

Lemma digits2_bound (p : positive) :
  (Z.pos p < 2 ^ 53)%Z -> (Z.pos (digits2_pos p) <= 53)%Z.
Proof.
  intros H. rewrite digits2_size.
  pose proof (Pos.size_le p) as Hs.
  assert (Hz : (2 ^ Z.pos (Pos.size p) <= 2 * Z.pos p)%Z).
  { rewrite <- Pos2Z.inj_pow. change (2 * Z.pos p)%Z with (Z.pos p~0).
    now apply Pos2Z.pos_le_pos. }
  assert (Hlt : (2 ^ Z.pos (Pos.size p) < 2 ^ 54)%Z) by lia.
  apply Z.pow_lt_mono_r_iff in Hlt; lia.
Qed.

Lemma digits2_iter_xO (p k : positive) :
  digits2_pos (Pos.iter xO p k) = (digits2_pos p + k)%positive.
Proof.
  induction k as [|k IH] using Pos.peano_ind.
  - cbn. lia.
  - rewrite Pos.iter_succ. cbn [digits2_pos]. rewrite IH. lia.
Qed.

(** A positive whole number below [2 ^ 53] is a positive binary64
    number. *)
Lemma of_Z_finite (z : Z) :
  (0 < z < 2 ^ 53)%Z -> exists m e, of_Z z = S754_finite false m e.
Proof.
  intros [Hpos Hlt]. destruct z as [|p|p]; try lia.
  pose proof (digits2_bound p Hlt) as Hd.
  unfold of_Z, binary_normalize, binary_round, shl_align.
  set (d := digits2_pos p) in *.
  assert (Hfexp : fexp prec emax (Z.pos d + 0) = (Z.pos d - 53)%Z).
  { unfold fexp, emin, prec, emax. lia. }
  rewrite Hfexp.
  assert (Haux : forall mz ez, (Z.pos (digits2_pos mz) = 53)%Z -> (-52 <= ez <= 0)%Z ->
            binary_round_aux prec emax false (Z.pos mz) ez loc_Exact =
            S754_finite false mz ez).
  { intros mz ez Hmz Hez. unfold binary_round_aux, shr_fexp.
    cbn [Zdigits2 shr_record_of_loc]. rewrite Hmz.
    assert (H0 : (fexp prec emax (53 + ez) - ez = 0)%Z).
    { unfold fexp, emin, prec, emax. lia. }
    rewrite H0. cbn [shr shr_m loc_of_shr_record round_nearest_even Zdigits2
                     shr_record_of_loc].
    rewrite Hmz, H0. cbn [shr shr_m].
    replace (ez <=? emax - prec)%Z with true; [reflexivity|].
    symmetry. apply Z.leb_le. unfold emax, prec. lia. }
  destruct (Z.pos d - 53 - 0)%Z as [|k|k] eqn:Ek.
  - eexists _, _. apply Haux; [fold d|]; lia.
  - lia.
  - eexists _, _. apply Haux; [|lia]. rewrite digits2_iter_xO. fold d. lia.
Qed.

Lemma of_nat_finite (n : nat) :
  n <> 0 -> (Z.of_nat n < 2 ^ 53)%Z -> exists m e, of_nat n = S754_finite false m e.
Proof. intros Hn Hlt. apply of_Z_finite. lia. Qed.

(** Every whole number of seconds up to an hour is a positive number of
    minutes. *)
Lemma positive_minutes_hour : forallb positive_minutes (whole_seconds (60 * 60)) = true.
Proof. vm_compute. reflexivity. Qed.

Lemma whole_seconds_In (s : Z) (n : nat) :
  (1 <= s <= Z.of_nat n)%Z -> In s (whole_seconds n).
Proof.
  intros H. unfold whole_seconds. apply in_map_iff.
  exists (Z.to_nat s). split; [lia|]. apply in_seq. lia.
Qed.

(** The original claim fails for a positive time so small that its
    sixtieth underflows: the time is not zero, the divisor [t / 60] is
    zero, and [WPM(0, t)] is [0 / 0], that is [NaN]. *)
Lemma calculateWPM_underflow :
  gtb min_value zero = true /\
  strict_eq min_value zero = false /\
  div min_value (of_Z 60) = zero /\
  calculateWPM (of_nat 0) min_value = S754_nan.
Proof. vm_compute. repeat split. Qed.

(** Each division is rounded: 3 characters in 24 seconds give the
    quotient [1.4999999999999998] and the speed 1, where the formula
    computed exactly gives [1.5] and the speed 2. *)
Lemma calculateWPM_rounds_each_step :
  calculateWPM (of_nat 3) (of_Z 24) = of_Z 1 /\
  Metrics.calculateWPM (Num.of_nat 3) (Num.of_Z 24) = Num.of_Z 2.
Proof. split; vm_compute; reflexivity. Qed.

(** C3, amended. For every count [c] of correct characters and every
    elapsed time [t], [WPM(c, t)] is [0] when [t] is zero and
    [round((c / 5) / (t / 60))] otherwise, each division rounded to
    binary64; whenever the divisor [t / 60] is positive, it is not zero
    and [WPM(0, t)] is [0]; and the divisor is positive for every whole
    number of seconds from 1 to 3600. *)
Theorem calculateWPM_formula (c : nat) (t : spec_float) :
  (strict_eq t zero = true -> calculateWPM (of_nat c) t = zero) /\
  (strict_eq t zero = false ->
     calculateWPM (of_nat c) t =
       round (div (div (of_nat c) (of_Z 5)) (div t (of_Z 60)))) /\
  (gtb (div t (of_Z 60)) zero = true ->
     strict_eq (div t (of_Z 60)) zero = false /\
     strict_eq (calculateWPM (of_nat 0) t) zero = true) /\
  (forall s : Z, (1 <= s <= 3600)%Z ->
     gtb (div (of_Z s) (of_Z 60)) zero = true /\
     strict_eq (calculateWPM (of_nat 0) (of_Z s)) zero = true).
Proof.
  assert (Hpos : forall x, gtb (div x (of_Z 60)) zero = true ->
            strict_eq (div x (of_Z 60)) zero = false /\
            strict_eq (calculateWPM (of_nat 0) x) zero = true).
  { intros x Hd.
    assert (Hx : strict_eq x zero = false).
    { destruct x as [sx|sx| |sx mx ex];
        [destruct sx; vm_compute in Hd; discriminate Hd
        | now destruct sx | reflexivity | now destruct sx]. }
    unfold calculateWPM. rewrite Hx.
    change (div (of_nat 0) (of_Z 5)) with (S754_zero false).
    destruct (div x (of_Z 60)) as [sd|sd| |sd md ed];
      unfold gtb, zero, SFltb, SFcompare in Hd; try discriminate Hd;
      destruct sd; try discriminate Hd; split; reflexivity. }
  split; [|split; [|split]].
  - intros H. unfold calculateWPM. now rewrite H.
  - intros H. unfold calculateWPM. now rewrite H.
  - apply Hpos.
  - intros s Hs.
    assert (Hd : gtb (div (of_Z s) (of_Z 60)) zero = true).
    { pose proof positive_minutes_hour as Hall.
      rewrite forallb_forall in Hall. apply (Hall s).
      apply whole_seconds_In. change (Z.of_nat (60 * 60)) with 3600%Z. lia. }
    split; [exact Hd|]. now apply Hpos.
Qed.

(** The exact-match scenario: 11 correct characters in 10 seconds. *)
Lemma calculateWPM_formula_witness :
  calculateWPM (of_nat 11) (of_Z 10) =
    round (div (div (of_nat 11) (of_Z 5)) (div (of_Z 10) (of_Z 60))) /\
  calculateWPM (of_nat 11) (of_Z 10) = of_Z 13 /\
  strict_eq (calculateWPM (of_nat 0) (of_Z 10)) zero = true.
Proof.
  destruct (calculateWPM_formula 11 (of_Z 10)) as (_ & Hformula & Hzero & _).
  split; [|split].
  - apply Hformula. reflexivity.
  - vm_compute. reflexivity.
  - apply Hzero. reflexivity.
Defined.

(** Each operation is rounded: 201 correct characters of 400 give
    [502.49999999999994] tenths and the accuracy 50.2, where the formula
    computed exactly gives 502.5 tenths and 50.3. *)
Lemma calculateAccuracy_rounds_each_step :
  calculateAccuracy (of_nat 201) (of_nat 400) = div (of_Z 502) (of_Z 10) /\
  Metrics.calculateAccuracy (Num.of_nat 201) (Num.of_nat 400) = Num.Fin (503 # 10).
Proof. split; vm_compute; reflexivity. Qed.

(** C4. For every count [c] of correct characters and every count [n] of
    typed characters (a length, so below [2 ^ 53]), [Accuracy(c, n)] is
    [100] when [n = 0] and [round((c / n) * 1000) / 10] otherwise, each
    operation rounded to binary64: a whole number of tenths divided by
    10; and [Accuracy(n, n) = 100] for every [n]. *)
Theorem calculateAccuracy_formula (c n : nat) :
  (n = 0 -> calculateAccuracy (of_nat c) (of_nat n) = of_Z 100) /\
  (n <> 0 -> (Z.of_nat n < 2 ^ 53)%Z ->
     calculateAccuracy (of_nat c) (of_nat n) =
       div (round (mul (div (of_nat c) (of_nat n)) (of_Z 1000))) (of_Z 10)) /\
  ((Z.of_nat n < 2 ^ 53)%Z -> calculateAccuracy (of_nat n) (of_nat n) = of_Z 100).
Proof.
  split; [|split].
  - intros ->. reflexivity.
  - intros Hn Hlt. destruct (of_nat_finite n Hn Hlt) as (m & e & E).
    unfold calculateAccuracy. rewrite E. reflexivity.
  - intros Hlt. destruct (Nat.eq_dec n 0) as [->|Hn]; [reflexivity|].
    destruct (of_nat_finite n Hn Hlt) as (m & e & E).
    unfold calculateAccuracy. rewrite E.
    change (strict_eq (S754_finite false m e) zero) with false. cbv iota.
    rewrite div_self. vm_compute. reflexivity.
Qed.

Lemma calculateAccuracy_formula_witness :
  calculateAccuracy (of_nat 2) (of_nat 3) =
    div (round (mul (div (of_nat 2) (of_nat 3)) (of_Z 1000))) (of_Z 10) /\
  calculateAccuracy (of_nat 2) (of_nat 3) = div (of_Z 667) (of_Z 10) /\
  calculateAccuracy (of_nat 7) (of_nat 7) = of_Z 100.
Proof.
  destruct (calculateAccuracy_formula 2 3) as (_ & Hformula & _).
  destruct (calculateAccuracy_formula 7 7) as (_ & _ & Hall).
  split; [|split].
  - apply Hformula; [discriminate | reflexivity].
  - vm_compute. reflexivity.
  - apply Hall. reflexivity.
Defined.

End Binary64Claims.

(** ** Completion and input handlers *)

Section HandlerClaims.
Import Num TypingTest.

(** The first completion marks the session complete and inactive. *)
Lemma handleTestComplete_completes (onTestComplete : bool) (snap : State) (w : World) :
  isComplete snap = false ->
  let w' := handleTestComplete onTestComplete snap w in
  isComplete (state w') = true /\ isActive (state w') = false.
Proof.
  intros H. unfold handleTestComplete. rewrite H.
  destruct (saveTestResult _ _) as [saved w2].
  destruct onTestComplete; split; reflexivity.
Qed.

Lemma saveTestResult_stores (r : Result.t) (w : World) :
  storageThrows w = false -> length (storage w) < 100 ->
  length (storage (snd (saveTestResult r w))) = S (length (storage w)) /\
  notified (snd (saveTestResult r w)) = notified w /\
  fst (saveTestResult r w) = Some {| result := r; id := now w; savedTimestamp := now w |}.
Proof.
  intros Hs Hl. unfold saveTestResult. rewrite Hs. cbn [fst snd storage notified].
  rewrite bool_decide_eq_false_2 by (rewrite length_app; cbn; lia).
  rewrite length_app. cbn. repeat split; lia.
Qed.

(** The first completion stores one result when the store works, and
    notifies the parent once when it listens. *)
Lemma handleTestComplete_saves_once (snap : State) (w : World) :
  isComplete snap = false -> storageThrows w = false -> length (storage w) < 100 ->
  let w' := handleTestComplete true snap w in
  length (storage w') = S (length (storage w)) /\
  length (notified w') = S (length (notified w)).
Proof.
  intros H Hs Hl. unfold handleTestComplete. rewrite H.
  set (w1 := if isSoundEnabled snap then playSound testComplete (4 # 10) w else w).
  assert (Hw1 : storageThrows w1 = false /\ storage w1 = storage w /\
                notified w1 = notified w)
    by (unfold w1; destruct (isSoundEnabled snap); repeat split; assumption).
  destruct Hw1 as (Hs1 & Hst1 & Hn1).
  match goal with |- context [saveTestResult ?r w1] =>
    destruct (saveTestResult_stores r w1 Hs1 ltac:(rewrite Hst1; exact Hl))
      as (Hlen & Hnot & _);
    destruct (saveTestResult r w1) as [saved w2]
  end.
  cbn [snd] in Hlen, Hnot. cbn.
  rewrite Hlen, Hst1, Hnot, Hn1, length_app. cbn. split; lia.
Qed.

(** The guard: the handler of a render that saw the session complete
    returns before anything is computed, so no second result is built or
    stored, no state is set, no sound is played, no timer is touched and
    the parent is not notified again. *)
Lemma handleTestComplete_after_complete (onTestComplete : bool)
    (snap : State) (w : World) :
  isComplete snap = true -> handleTestComplete onTestComplete snap w = w.
Proof.
  intros H. unfold handleTestComplete. now rewrite H.
Qed.

(** Completing twice through the handler of the latest render is the same
    as completing once. *)
Lemma complete_now_idempotent (onTestComplete : bool) (w : World) :
  complete_now onTestComplete (complete_now onTestComplete w) =
  complete_now onTestComplete w.
Proof.
  unfold complete_now at 1.
  destruct (isComplete (state w)) eqn:Hdone.
  - unfold complete_now, handleTestComplete. now rewrite !Hdone.
  - destruct (handleTestComplete_completes onTestComplete (state w) w Hdone)
      as [Hc _].
    fold (complete_now onTestComplete w) in Hc.
    unfold handleTestComplete at 1. now rewrite Hc.
Qed.

Example handleTestComplete_after_complete_example :
  let w1 := complete_now true example_world in
  isComplete (state w1) = true /\
  length (storage w1) = 1 /\
  handleTestComplete true (state w1) w1 = w1.
Proof.
  cbn zeta. split; [reflexivity|]. split; [reflexivity|].
  apply handleTestComplete_after_complete. reflexivity.
Defined.

(** What one completion adds: a sound when sounds are on, a stored
    result, a notification. *)
Lemma handleTestComplete_adds (snap : State) (w : World) :
  isComplete snap = false -> storageThrows w = false -> length (storage w) < 100 ->
  let w' := handleTestComplete true snap w in
  isComplete (state w') = true /\
  storageThrows w' = false /\
  length (storage w') = S (length (storage w)) /\
  length (notified w') = S (length (notified w)) /\
  length (played w') =
    (if isSoundEnabled snap then S (length (played w)) else length (played w)).
Proof.
  intros Hc Hs Hl. cbn zeta.
  destruct (handleTestComplete_completes true snap w Hc) as [Hdone _].
  destruct (handleTestComplete_saves_once snap w Hc Hs Hl) as [Hsto Hnot].
  cbn zeta in Hdone, Hsto, Hnot.
  split; [exact Hdone|]. split; [|split; [exact Hsto|split; [exact Hnot|]]].
  - unfold handleTestComplete. rewrite Hc.
    destruct (isSoundEnabled snap); unfold saveTestResult; cbn; now rewrite Hs.
  - unfold handleTestComplete. rewrite Hc.
    destruct (isSoundEnabled snap); unfold saveTestResult; cbn; rewrite Hs; cbn;
      rewrite ?length_app; cbn; lia.
Qed.

(** C6, at the failing input. The guard reads the [isComplete] of the
    render that created the handler.  A handler created before the
    completion (the interval callback and the statistics effect of one
    render hold the same one) still sees [false] after the session has
    become complete: invoked again, it builds and stores a second result,
    notifies the parent a second time and plays the completion sound a
    second time. *)
Theorem handleTestComplete_stale_handler (snap : State) (w : World) :
  isComplete snap = false -> storageThrows w = false -> length (storage w) < 99 ->
  let w1 := handleTestComplete true snap w in
  let w2 := handleTestComplete true snap w1 in
  isComplete (state w1) = true /\
  length (storage w2) = S (S (length (storage w))) /\
  length (notified w2) = S (S (length (notified w))) /\
  (isSoundEnabled snap = true -> length (played w2) = S (S (length (played w)))).
Proof.
  intros Hc Hs Hl. cbn zeta.
  destruct (handleTestComplete_adds snap w Hc Hs ltac:(lia))
    as (Hdone & Hs1 & Hsto1 & Hnot1 & Hpl1).
  cbn zeta in *.
  destruct (handleTestComplete_adds snap (handleTestComplete true snap w) Hc Hs1
              ltac:(lia)) as (_ & _ & Hsto2 & Hnot2 & Hpl2).
  cbn zeta in *.
  split; [exact Hdone|]. split; [lia|]. split; [lia|].
  intros Hsound. rewrite Hsound in *. lia.
Qed.

Lemma handleTestComplete_stale_handler_witness :
  let w1 := handleTestComplete true example_session example_world in
  let w2 := handleTestComplete true example_session w1 in
  isComplete (state w1) = true /\
  length (storage w2) = 2 /\
  length (notified w2) = 2 /\
  (isSoundEnabled example_session = true -> length (played w2) = 2).
Proof.
  cbn zeta.
  apply (handleTestComplete_stale_handler example_session example_world);
    first [reflexivity | cbn; lia].
Defined.

(** The exact-match scenario of the specification, as stored at
    completion: 13 words per minute, gross and net, with full accuracy. *)
Example exact_match_result :
  match storage (complete_now true example_world) with
  | [saved] =>
      Result.wpm (result saved) = of_Z 13 /\
      Result.netWPM (result saved) = of_Z 13 /\
      Result.accuracy (result saved) = of_Z 100 /\
      Result.correctCharacters (result saved) = 11 /\
      Result.incorrectCharacters (result saved) = 0
  | _ => False
  end.
Proof. vm_compute. repeat split. Qed.

Lemma handleInputChange_overlong (value : jsstring) (snap : State) (w : World) :
  length (testText snap) < length value ->
  let w' := handleInputChange value snap w in
  state w' = state w /\ storage w' = storage w /\ notified w' = notified w /\
  activeIntervals w' = activeIntervals w /\ intervalRef w' = intervalRef w.
Proof.
  intros Hlen. unfold handleInputChange.
  destruct (negb (isActive snap) || isPaused snap || isComplete snap);
    [repeat split|].
  rewrite (bool_decide_eq_false_2 (length value <= _)) by lia.
  destruct (bool_decide (length (typedText snap) < length value));
    [|repeat split].
  destruct (bool_decide _), (isSoundEnabled snap); repeat split.
Qed.

Lemma handleInputChange_accepts (value : jsstring) (snap : State) (w : World) :
  running snap -> length value <= length (testText snap) ->
  typedText (state (handleInputChange value snap w)) = value.
Proof.
  intros (Ha & Hp & Hc) Hlen. unfold handleInputChange.
  rewrite Ha, Hp, Hc. cbn [negb orb].
  rewrite (bool_decide_eq_true_2 (length value <= _)) by assumption.
  reflexivity.
Qed.

Lemma handleInputChange_testText (value : jsstring) (snap : State) (w : World) :
  testText (state (handleInputChange value snap w)) = testText (state w).
Proof.
  unfold handleInputChange.
  destruct (negb (isActive snap) || isPaused snap || isComplete snap);
    [reflexivity|].
  destruct (bool_decide (length value <= _)),
           (bool_decide (length (typedText snap) < length value)),
           (bool_decide (value !! (length value - 1) =
                         testText snap !! (length value - 1))),
           (isSoundEnabled snap); reflexivity.
Qed.

(** C7. In a running session with target text [T], an input string longer
    than [T] leaves the typed buffer as it was: the session state, the
    result store, the timers and the notifications are unchanged and
    nothing is raised; an input that is accepted becomes the buffer; hence
    a buffer no longer than [T] stays no longer than [T] after every
    input. *)
Theorem handleInputChange_clamps (snap : State) (w : World) :
  running snap ->
  (forall value, length (testText snap) < length value ->
     let w' := handleInputChange value snap w in
     typedText (state w') = typedText (state w) /\
     state w' = state w /\ storage w' = storage w /\ notified w' = notified w /\
     activeIntervals w' = activeIntervals w /\ intervalRef w' = intervalRef w) /\
  (forall value, length value <= length (testText snap) ->
     typedText (state (handleInputChange value snap w)) = value) /\
  (forall value,
     length (typedText (state w)) <= length (testText snap) ->
     length (typedText (state (handleInputChange value snap w)))
       <= length (testText snap)).
Proof.
  intros Hrun. split; [|split].
  - intros value Hlen. cbn zeta.
    destruct (handleInputChange_overlong value snap w Hlen) as (Hs & Hrest).
    split; [now rewrite Hs|]. split; assumption.
  - intros value Hlen. now apply handleInputChange_accepts.
  - intros value Hinv.
    destruct (Nat.le_gt_cases (length value) (length (testText snap))) as [Hle|Hgt].
    + now rewrite handleInputChange_accepts.
    + destruct (handleInputChange_overlong value snap w Hgt) as (-> & _).
      exact Hinv.
Qed.

Lemma handleInputChange_clamps_witness :
  running example_session /\
  typedText (state (handleInputChange (js "the cat sat!") example_session example_world))
    = js "the cat sat" /\
  typedText (state (handleInputChange (js "the cat") example_session example_world))
    = js "the cat".
Proof.
  assert (Hrun : running example_session) by (repeat split).
  split; [exact Hrun|]. split.
  - apply (handleInputChange_clamps example_session example_world Hrun).
    cbn. lia.
  - apply (handleInputChange_clamps example_session example_world Hrun).
    cbn. lia.
Defined.

(** What the over-long input does besides: the error cue is played when
    sound is enabled, because the typed unit has no expected counterpart. *)
Lemma handleInputChange_overlong_cue (value : jsstring) (snap : State) (w : World) :
  running snap ->
  length (typedText snap) <= length (testText snap) ->
  length (testText snap) < length value ->
  handleInputChange value snap w =
  if isSoundEnabled snap then playSound keyError (3 # 10) w else w.
Proof.
  intros (Ha & Hp & Hc) Hinv Hlen. unfold handleInputChange.
  rewrite Ha, Hp, Hc. cbn [negb orb].
  rewrite (bool_decide_eq_false_2 (length value <= _)) by lia.
  rewrite (bool_decide_eq_true_2 (length (typedText snap) < _)) by lia.
  rewrite bool_decide_eq_false_2; [reflexivity|].
  intros E.
  assert (H1 : is_Some (value !! (length value - 1)))
    by (apply lookup_lt_is_Some; lia).
  assert (H2 : testText snap !! (length value - 1) = None)
    by (apply lookup_ge_None; lia).
  rewrite E, H2 in H1. now destruct H1.
Qed.

End HandlerClaims.

(** ** Text generation *)

Section TruncationFacts.
Import TextGenerator.

Lemma indexOf_lower (s : jsstring) (c : N) : (-1 <= indexOf s c)%Z.
Proof.
  induction s as [|x s IH]; cbn [indexOf]; [lia|].
  destruct (x =? c)%N; [lia|].
  destruct (indexOf s c <? 0)%Z eqn:E; lia.
Qed.

(** [indexOf] finds the first occurrence. *)
Lemma indexOf_found (s : jsstring) (c : N) (k : nat) :
  indexOf s c = Z.of_nat k ->
  s !! k = Some c /\ forall j, j < k -> s !! j <> Some c.
Proof.
  revert k. induction s as [|x s IH]; intros k; cbn [indexOf]; [lia|].
  destruct (x =? c)%N eqn:Ex.
  - intros Hk. assert (k = 0) as -> by lia. apply N.eqb_eq in Ex as ->.
    split; [reflexivity|]. intros j Hj. lia.
  - apply N.eqb_neq in Ex.
    destruct (indexOf s c <? 0)%Z eqn:E; [lia|].
    apply Z.ltb_ge in E. intros Hk.
    destruct k as [|k]; [lia|].
    destruct (IH k ltac:(lia)) as [Hat Hbefore].
    split; [exact Hat|].
    intros [|j] Hj; cbn; [congruence|]. apply Hbefore. lia.
Qed.

(** [indexOf] answers [-1] only when the unit does not occur. *)
Lemma indexOf_absent (s : jsstring) (c : N) :
  indexOf s c = (-1)%Z -> forall j, s !! j <> Some c.
Proof.
  induction s as [|x s IH]; cbn [indexOf]; intros H j; [now destruct j|].
  destruct (x =? c)%N eqn:Ex; [lia|]. apply N.eqb_neq in Ex.
  destruct (indexOf s c <? 0)%Z eqn:E.
  - apply Z.ltb_lt in E. pose proof (indexOf_lower s c).
    destruct j as [|j]; cbn; [congruence|]. apply IH. lia.
  - apply Z.ltb_ge in E. lia.
Qed.

(** When a space stands at or after [targetLength], the text is cut just
    before the first such space. *)
Lemma truncate_at_space_found (text : jsstring) (targetLength k : nat) :
  indexOf (drop targetLength text) space = Z.of_nat k ->
  truncate_at_space text targetLength = take (targetLength + k) text /\
  text !! (targetLength + k) = Some space /\
  forall j, targetLength <= j < targetLength + k -> text !! j <> Some space.
Proof.
  intros H. unfold truncate_at_space. rewrite H, substring_prefix.
  replace (Z.to_nat (Z.of_nat targetLength + Z.of_nat k)) with (targetLength + k) by lia.
  destruct (indexOf_found _ _ _ H) as [Hat Hbefore].
  rewrite lookup_drop in Hat. split; [reflexivity|]. split; [exact Hat|].
  intros j Hj. specialize (Hbefore (j - targetLength) ltac:(lia)).
  rewrite lookup_drop in Hbefore.
  now replace (targetLength + (j - targetLength)) with j in Hbefore by lia.
Qed.

(** When no space stands at or after [targetLength], the [-1] answered by
    [indexOf] is added to [targetLength]: the text is cut one unit before
    [targetLength]. *)
Lemma truncate_at_space_absent (text : jsstring) (targetLength : nat) :
  indexOf (drop targetLength text) space = (-1)%Z ->
  truncate_at_space text targetLength = take (targetLength - 1) text.
Proof.
  intros H. unfold truncate_at_space. rewrite H, substring_prefix.
  f_equal. lia.
Qed.

(** Whatever the corpus: when the first draw selects a sentence that
    reaches [targetLength] and has no space from there on, mixed mode
    returns that sentence cut one unit before [targetLength]. *)
Lemma generateMixedText_no_space_after (commonWords sentences : list jsstring)
    (random : nat -> Q) (sentence : jsstring) (fuel targetLength k : nat) :
  Qle_bool (random k) (1 # 2) = true ->
  at_index sentences (random_index random (S k) (length sentences)) = Some sentence ->
  0 < targetLength <= length sentence -> length sentence <= targetLength + 100 ->
  indexOf (drop targetLength sentence) space = (-1)%Z ->
  2 <= fuel ->
  generateMixedText commonWords sentences random fuel targetLength k =
    Returned (take (targetLength - 1) sentence, S (S k)).
Proof.
  intros Hdraw Hat [Hpos Hreach] Hsmall Hnone Hfuel.
  destruct fuel as [|[|fuel]]; try lia.
  unfold generateMixedText, mixed_accumulate. rewrite Hdraw.
  cbn [negb mixed_loop length].
  rewrite (bool_decide_eq_true_2 (0 < targetLength)) by assumption.
  unfold mixed_body. rewrite Hat. cbn [concat_operand separator app].
  rewrite bool_decide_eq_false_2 by lia.
  rewrite bool_decide_eq_false_2 by lia.
  now rewrite truncate_at_space_absent.
Qed.

(** C8, at the failing input. With the sentence [The quick brown fox jumps
    over the lazy dog.] drawn first and [targetLength = 42], no space
    follows position 42, [indexOf] answers [-1], and mixed-mode generation
    returns the accumulated text cut after 41 units, inside its last word
    [dog.]. *)
Theorem generateMixedText_splits_word :
  mixed_accumulate example_words example_sentences draws_zero 10 42 0 =
    Returned (js "The quick brown fox jumps over the lazy dog.", 2) /\
  indexOf (drop 42 (js "The quick brown fox jumps over the lazy dog.")) space
    = (-1)%Z /\
  generateMixedText example_words example_sentences draws_zero 10 42 0 =
    Returned (js "The quick brown fox jumps over the lazy d", 2) /\
  splits_word (js "The quick brown fox jumps over the lazy dog.") 41.
Proof.
  split; [vm_compute; reflexivity|]. split; [vm_compute; reflexivity|].
  split; [vm_compute; reflexivity|].
  exists 100%N, 111%N. repeat split; try discriminate. lia.
Qed.

End TruncationFacts.

Section GeneratorFacts.
Import TextGenerator.

Variables commonWords sentences : list jsstring.
Variable random : nat -> Q.
Hypothesis Hrange : draws_in_range random.

Lemma random_index_range (k n : nat) :
  0 < n -> (0 <= random_index random k n < Z.of_nat n)%Z.
Proof.
  intros Hn. unfold random_index. destruct (Hrange k) as [H0 H1].
  assert (Hpos : (0 < inject_Z (Z.of_nat n))%Q).
  { change 0%Q with (inject_Z 0). rewrite <- Zlt_Qlt. lia. }
  split.
  - change 0%Z with (Qfloor 0). apply Qfloor_resp_le.
    apply Qmult_le_0_compat; [assumption | now apply Qlt_le_weak].
  - rewrite Zlt_Qlt.
    eapply Qle_lt_trans; [apply Qfloor_le|].
    rewrite <- (Qmult_1_l (inject_Z (Z.of_nat n))) at 2.
    now apply Qmult_lt_compat_r.
Qed.

Lemma at_index_defined (a : list jsstring) (i : Z) :
  (0 <= i < Z.of_nat (length a))%Z -> exists s, at_index a i = Some s /\ s ∈ a.
Proof.
  intros Hi. unfold at_index.
  replace (i <? 0)%Z with false by (symmetry; apply Z.ltb_ge; lia).
  destruct (lookup_lt_is_Some_2 a (Z.to_nat i) ltac:(lia)) as [s Hs].
  exists s. split; [exact Hs|]. eapply list_elem_of_lookup_2, Hs.
Qed.

(** *** Words mode *)

Lemma random_words_loop_app (n : nat) (words : list (option jsstring)) (k : nat) :
  exists drawn,
    random_words_loop commonWords random n words k = (words ++ drawn, k + n) /\
    length drawn = n.
Proof.
  revert words k. induction n as [|n IH]; intros words k; cbn [random_words_loop].
  - exists []. now rewrite app_nil_r, Nat.add_0_r.
  - destruct (IH (words ++ [at_index commonWords
                              (random_index random k (length commonWords))]) (S k))
      as (drawn & -> & Hlen).
    eexists (_ :: drawn). rewrite <- app_assoc. cbn [app length].
    split; [f_equal; lia | now rewrite Hlen].
Qed.

Lemma join_head_nonempty (w : jsstring) (rest : list (option jsstring)) :
  w <> [] -> join (Some w :: rest) <> [].
Proof.
  intros Hw. cbn [join join_element]. destruct rest; [exact Hw|].
  destruct w; [congruence | discriminate].
Qed.

Lemma join_length (words : list (option jsstring)) :
  length words - 1 <= length (join words).
Proof.
  induction words as [|w [|w' rest] IH]; cbn [join length] in *; try lia.
  rewrite length_app. cbn [length]. lia.
Qed.

Lemma generateRandomWords_length (n k : nat) :
  n - 1 <= length (fst (generateRandomWords commonWords random n k)) /\
  snd (generateRandomWords commonWords random n k) = k + n.
Proof.
  unfold generateRandomWords.
  destruct (random_words_loop_app n [] k) as (drawn & -> & Hlen).
  cbn [app fst snd]. split; [|reflexivity].
  rewrite <- Hlen. apply join_length.
Qed.

Lemma generateRandomWords_nonempty (n k : nat) :
  commonWords <> [] -> Forall (fun w => w <> []) commonWords -> 1 <= n ->
  fst (generateRandomWords commonWords random n k) <> [].
Proof.
  intros Hne Hall Hn. destruct n as [|n]; [lia|].
  unfold generateRandomWords. cbn [random_words_loop app].
  destruct (random_words_loop_app n
              [at_index commonWords (random_index random k (length commonWords))] (S k))
    as (drawn & -> & _).
  cbn [fst app].
  destruct (at_index_defined commonWords (random_index random k (length commonWords)))
    as (w & -> & Hin).
  { apply random_index_range. destruct commonWords; [congruence | cbn; lia]. }
  apply join_head_nonempty.
  rewrite Forall_forall in Hall. now apply Hall.
Qed.

(** *** Mixed mode *)

Lemma mixed_body_grows (text : jsstring) (useWords : bool) (k : nat) :
  length text + (if useWords then 4 else 0) <=
  length (fst (mixed_body commonWords sentences random text useWords k)).
Proof.
  unfold mixed_body. destruct useWords.
  - set (wordCount := Z.to_nat (Qfloor (random k * 10) + 5)).
    assert (Hwc : 5 <= wordCount).
    { unfold wordCount. destruct (Hrange k) as [H0 _].
      assert (H : (Qfloor 0 <= Qfloor (random k * 10))%Z).
      { apply Qfloor_resp_le. apply Qmult_le_0_compat; [assumption | discriminate]. }
      change (Qfloor 0) with 0%Z in H. lia. }
    pose proof (generateRandomWords_length wordCount (S k)) as [Hlen _].
    destruct (generateRandomWords commonWords random wordCount (S k)) as [words k'].
    cbn [fst] in *. rewrite !length_app. lia.
  - cbn [fst]. rewrite !length_app. lia.
Qed.

Lemma mixed_loop_returns (targetLength : nat) (fuel : nat) :
  forall (text : jsstring) (useWords : bool) (k : nat),
  2 * (targetLength - length text) + (if useWords then 0 else 1) < fuel ->
  exists text' k',
    mixed_loop commonWords sentences random fuel targetLength text useWords k =
      Returned (text', k') /\
    targetLength <= length text'.
Proof.
  induction fuel as [|fuel IH]; intros text useWords k Hfuel; [lia|].
  cbn [mixed_loop].
  destruct (bool_decide (length text < targetLength)) eqn:Hcond.
  2:{ apply bool_decide_eq_false in Hcond. exists text, k. split; [reflexivity | lia]. }
  apply bool_decide_eq_true in Hcond.
  pose proof (mixed_body_grows text useWords k) as Hgrow.
  destruct (mixed_body commonWords sentences random text useWords k) as [text1 k1].
  cbn [fst] in Hgrow.
  destruct (bool_decide (targetLength + 100 < length text1)) eqn:Hbig.
  - apply bool_decide_eq_true in Hbig. exists text1, k1. split; [reflexivity | lia].
  - apply IH. destruct useWords; cbn [negb]; lia.
Qed.

Lemma truncate_at_space_length (text : jsstring) (targetLength : nat) :
  targetLength <= length text ->
  targetLength - 1 <= length (truncate_at_space text targetLength).
Proof.
  intros Hlen. unfold truncate_at_space. rewrite substring_prefix, length_take.
  pose proof (indexOf_lower (drop targetLength text) space). lia.
Qed.

Lemma generateMixedText_returns (targetLength k fuel : nat) :
  2 <= targetLength -> 2 * targetLength + 1 < fuel ->
  exists text k',
    generateMixedText commonWords sentences random fuel targetLength k =
      Returned (text, k') /\
    text <> [].
Proof.
  intros Hn Hf.
  set (useWords := negb (Qle_bool (random k) (1 # 2))).
  destruct (mixed_loop_returns targetLength fuel [] useWords (S k))
    as (text & k' & Hloop & Hlen).
  { cbn [length]. destruct useWords; lia. }
  exists (truncate_at_space text targetLength), k'. split.
  - unfold generateMixedText, mixed_accumulate. fold useWords. now rewrite Hloop.
  - pose proof (truncate_at_space_length text targetLength Hlen) as H.
    intros E. rewrite E in H. cbn [length] in H. lia.
Qed.

(** *** Sentences mode *)

Lemma pick_unused_returns (usedSentences : gset Z) (d : nat) : forall k,
  random_index random (k + d) (length sentences) ∉ usedSentences ->
  exists j, (random_index random j (length sentences) ∉ usedSentences) /\
    forall fuel, d < fuel ->
      pick_unused sentences random fuel usedSentences k =
      Returned (random_index random j (length sentences), S j).
Proof.
  induction d as [|d IH]; intros k Hout.
  - rewrite Nat.add_0_r in Hout. exists k. split; [exact Hout|].
    intros [|fuel] Hf; [lia|]. cbn [pick_unused].
    now rewrite bool_decide_eq_false_2.
  - destruct (decide (random_index random k (length sentences) ∈ usedSentences))
      as [Hin|Hnin].
    + replace (k + S d) with (S k + d) in Hout by lia.
      destruct (IH (S k) Hout) as (j & Hj & Hfuel).
      exists j. split; [exact Hj|].
      intros [|fuel] Hf; [lia|]. cbn [pick_unused].
      rewrite bool_decide_eq_true_2 by assumption. apply Hfuel. lia.
    + exists k. split; [exact Hnin|].
      intros [|fuel] Hf; [lia|]. cbn [pick_unused].
      now rewrite bool_decide_eq_false_2.
Qed.

(** A set of fewer than [n] numbers misses one of [0 .. n-1]. *)
Lemma unused_index_exists (usedSentences : gset Z) (n : nat) :
  size usedSentences < n -> exists i, i < n /\ Z.of_nat i ∉ usedSentences.
Proof.
  intros Hsize.
  destruct (decide (Forall (fun i => Z.of_nat i ∈ usedSentences) (seq 0 n)))
    as [Hall|Hnot].
  - exfalso.
    assert (Hsub : (list_to_set (Z.of_nat <$> seq 0 n) : gset Z) ⊆ usedSentences).
    { intros z Hz. apply elem_of_list_to_set, list_elem_of_fmap in Hz
        as (i & -> & Hi).
      rewrite Forall_forall in Hall. now apply Hall. }
    apply subseteq_size in Hsub.
    rewrite size_list_to_set in Hsub.
    + rewrite length_fmap, length_seq in Hsub. lia.
    + apply NoDup_fmap_2; [intros a b; lia | apply NoDup_seq].
  - apply not_Forall_Exists in Hnot; [|intros i; apply _].
    apply Exists_exists in Hnot as (i & Hi & Hout).
    apply elem_of_seq in Hi. exists i. split; [lia | exact Hout].
Qed.

Hypothesis Hfair : draws_every_index random (length sentences).

Lemma sentences_loop_returns (targetLength : nat) (m : nat) :
  forall (text : jsstring) (usedSentences : gset Z) (k : nat),
  length sentences - size usedSentences <= m ->
  exists res f0, forall fuel, f0 <= fuel ->
    sentences_loop sentences random fuel targetLength text usedSentences k =
    Returned res.
Proof.
  induction m as [|m IH]; intros text usedSentences k Hm.
  - exists (text, k), 1. intros [|fuel] Hf; [lia|]. cbn [sentences_loop].
    rewrite (bool_decide_eq_false_2 (size usedSentences < _)) by lia.
    now rewrite andb_false_r.
  - destruct (bool_decide (length text < targetLength) &&
              bool_decide (size usedSentences < length sentences)) eqn:Hcond.
    2:{ exists (text, k), 1. intros [|fuel] Hf; [lia|]. cbn [sentences_loop].
        now rewrite Hcond. }
    apply andb_true_iff in Hcond as Hc. destruct Hc as [_ Hsize].
    apply bool_decide_eq_true in Hsize.
    destruct (unused_index_exists usedSentences _ Hsize) as (i & Hi & Hout).
    destruct (Hfair i k Hi) as (d & Hd).
    fold (random_index random (k + d) (length sentences)) in Hd.
    rewrite <- Hd in Hout.
    destruct (pick_unused_returns usedSentences d k Hout) as (j & Hj & Hpick).
    destruct (at_index_defined sentences (random_index random j (length sentences)))
      as (sentence & Hat & _).
    { apply random_index_range. lia. }
    destruct (bool_decide (length text + length sentence + 1 <= targetLength + 50))
      eqn:Hfit.
    + destruct (IH (text ++ separator text ++ sentence)
                   ({[random_index random j (length sentences)]} ∪ usedSentences)
                   (S j)) as (res & f0 & Hrec).
      { rewrite size_union by set_solver. rewrite size_singleton. lia. }
      exists res, (S (Nat.max (S d) f0)).
      intros [|fuel] Hf; [lia|]. cbn [sentences_loop].
      rewrite Hcond, Hpick by lia. cbn zeta. rewrite Hat, Hfit.
      apply Hrec. lia.
    + exists (text, S j), (S (S d)).
      intros [|fuel] Hf; [lia|]. cbn [sentences_loop].
      rewrite Hcond, Hpick by lia. cbn zeta. now rewrite Hat, Hfit.
Qed.

Lemma generateRandomSentences_returns (targetLength k : nat) :
  sentences <> [] -> Forall (fun s => s <> []) sentences ->
  exists text k' f0, text <> [] /\ forall fuel, f0 <= fuel ->
    generateRandomSentences sentences random fuel targetLength k =
    Returned (Some text, k').
Proof.
  intros Hne Hall.
  destruct (sentences_loop_returns targetLength (length sentences) [] ∅ k)
    as ([text k'] & f0 & Hloop); [lia|].
  destruct sentences as [|s0 rest] eqn:Es; [congruence|].
  apply Forall_cons in Hall as [Hs0 _].
  exists (match text with [] => s0 | _ => text end), k', f0.
  split.
  - destruct text; [exact Hs0 | discriminate].
  - intros fuel Hf. unfold generateRandomSentences. rewrite (Hloop fuel Hf).
    destruct text; reflexivity.
Qed.

End GeneratorFacts.

Section GeneratorClaims.
Import TextGenerator.

Lemma draws_alternate_in_range : draws_in_range draws_alternate.
Proof.
  intros k. unfold draws_alternate. destruct (Nat.even k); split; reflexivity || discriminate.
Qed.

Lemma draws_alternate_every_index : draws_every_index draws_alternate 2.
Proof.
  intros i k Hi. unfold draws_alternate.
  destruct (Nat.even k) eqn:Ek, i as [|[|i]]; try lia.
  - exists 0. now rewrite Nat.add_0_r, Ek.
  - exists 1. now rewrite Nat.add_1_r, Nat.even_succ, <- Nat.negb_even, Ek.
  - exists 1. now rewrite Nat.add_1_r, Nat.even_succ, <- Nat.negb_even, Ek.
  - exists 0. now rewrite Nat.add_0_r, Ek.
Qed.

(** Whatever the corpus and the draws, zero words are joined into the
    empty string. *)
Lemma generateText_words_zero (commonWords sentences : list jsstring)
    (random : nat -> Q) (fuel k : nat) :
  generateText commonWords sentences random fuel (js "words") 0 k =
    Returned (Some [], k).
Proof. reflexivity. Qed.

(** C9, counterexample. Asked for zero words, the words mode returns the
    empty string; so does the mixed mode for a target length of zero. No
    fallback sentence is substituted in these modes. *)
Lemma generateText_zero_length_empty :
  generateText example_words example_sentences draws_zero 10 (js "words") 0 0
    = Returned (Some [], 0) /\
  generateText example_words example_sentences draws_zero 10 (js "mixed") 0 0
    = Returned (Some [], 1).
Proof. split; vm_compute; reflexivity. Qed.

(** C9, amended. With a corpus of non-empty words and sentences and draws
    in [[0, 1)], text generation raises no exception and returns a
    non-empty string, given enough loop iterations, in the sentences mode
    for every length (the first sentence is returned when nothing was
    accumulated; the rejection loop ends because every index keeps being
    drawn), in the words mode for every length of at least 1, and in the
    mixed mode for every length of at least 2. *)
Theorem generateText_nonempty (commonWords sentences : list jsstring)
    (random : nat -> Q) (mode : jsstring) (n k : nat) :
  draws_in_range random ->
  commonWords <> [] -> Forall (fun w => w <> []) commonWords ->
  sentences <> [] -> Forall (fun s => s <> []) sentences ->
  (mode = js "sentences" -> draws_every_index random (length sentences)) ->
  (mode = js "words" /\ 1 <= n) \/
  mode = js "sentences" \/
  (mode = js "mixed" /\ 2 <= n) ->
  exists f0, forall fuel, f0 <= fuel ->
    exists text k',
      generateText commonWords sentences random fuel mode n k =
        Returned (Some text, k') /\
      text <> [].
Proof.
  intros Hrange Hw Hwall Hs Hsall Hfair [[-> Hlen]|[->|[-> Hlen]]].
  - exists 0. intros fuel _. unfold generateText.
    rewrite bool_decide_eq_true_2 by reflexivity.
    eexists _, _. split; [reflexivity|].
    now apply generateRandomWords_nonempty.
  - destruct (generateRandomSentences_returns sentences random Hrange
                (Hfair eq_refl) n k Hs Hsall) as (text & k' & f0 & Hne & Hret).
    exists f0. intros fuel Hf. exists text, k'. split; [|exact Hne].
    unfold generateText.
    rewrite bool_decide_eq_false_2 by discriminate.
    rewrite bool_decide_eq_true_2 by reflexivity.
    now apply Hret.
  - exists (2 * n + 2). intros fuel Hf.
    destruct (generateMixedText_returns commonWords sentences random Hrange
                n k fuel Hlen ltac:(lia)) as (text & k' & Hret & Hne).
    exists text, k'. split; [|exact Hne].
    unfold generateText.
    rewrite !bool_decide_eq_false_2 by discriminate.
    rewrite bool_decide_eq_true_2 by reflexivity.
    now rewrite Hret.
Qed.

Lemma generateText_nonempty_witness :
  exists f0, forall fuel, f0 <= fuel ->
    exists text k',
      generateText example_words example_sentences draws_alternate fuel
                   (js "sentences") 0 0 = Returned (Some text, k') /\
      text <> [].
Proof.
  apply generateText_nonempty.
  - exact draws_alternate_in_range.
  - discriminate.
  - repeat constructor; discriminate.
  - discriminate.
  - repeat constructor; discriminate.
  - intros _. exact draws_alternate_every_index.
  - right. left. reflexivity.
Defined.

(** The fallback of the sentences mode and an accumulation in the same
    mode, on the example corpus. *)
Example generateText_sentences_examples :
  generateText example_words example_sentences draws_alternate 10 (js "sentences") 0 0
    = Returned (Some (js "The quick brown fox jumps over the lazy dog."), 0) /\
  generateText example_words example_sentences draws_alternate 10 (js "sentences") 50 0
    = Returned (Some (js "The quick brown fox jumps over the lazy dog. Practice makes perfect."), 2).
Proof. split; vm_compute; reflexivity. Qed.

End GeneratorClaims.

(** * Further properties of the code *)

(** ** Live character states ([getCharacterStates]) *)

Section LiveStateFacts.
Import Analyzer.

Lemma foldl_snoc_map {A B : Type} (f : A -> B) (l : list A) (acc : list B) :
  foldl (fun states i => states ++ [f i]) acc l = acc ++ map f l.
Proof.
  revert acc. induction l as [|x l IH]; intros acc; cbn [foldl map].
  - now rewrite app_nil_r.
  - rewrite IH, <- app_assoc. reflexivity.
Qed.

Lemma getCharacterStates_map (target typedText : jsstring) (cursor : nat) :
  getCharacterStates target typedText cursor =
  map (live_state target typedText cursor) (seq 0 (length target)).
Proof. unfold getCharacterStates. now rewrite foldl_snoc_map. Qed.

(** The live states cover the target, one state per position: a typed
    position is [correct] or [incorrect] by comparison, an untyped one is
    [current] at the cursor and [pending] elsewhere. *)
Theorem getCharacterStates_classifies (target typedText : jsstring) (cursor : nat) :
  let states := getCharacterStates target typedText cursor in
  length states = length target /\
  forall i c, target !! i = Some c ->
    (forall d, typedText !! i = Some d ->
       states !! i = Some (if decide (c = d) then correct else incorrect)) /\
    (length typedText <= i ->
       states !! i = Some (if decide (i = cursor) then current else pending)).
Proof.
  cbn zeta. rewrite getCharacterStates_map. split.
  - now rewrite length_map, length_seq.
  - intros i c Hc. apply lookup_lt_Some in Hc as Hi.
    rewrite list_lookup_fmap, lookup_seq_lt by assumption.
    cbn [fmap option_fmap option_map Nat.add].
    unfold live_state. split.
    + intros d Hd. apply lookup_lt_Some in Hd as Hi'.
      rewrite bool_decide_eq_true_2 by assumption. rewrite Hc, Hd.
      destruct (decide (c = d)) as [->|Hne].
      * now rewrite bool_decide_eq_true_2.
      * rewrite bool_decide_eq_false_2; [reflexivity | congruence].
    + intros Hge. rewrite bool_decide_eq_false_2 by lia.
      destruct (decide (i = cursor)).
      * now rewrite bool_decide_eq_true_2.
      * now rewrite bool_decide_eq_false_2.
Qed.

Lemma getCharacterStates_classifies_witness :
  getCharacterStates (js "abcd") (js "aX") 2 !! 1 = Some incorrect /\
  getCharacterStates (js "abcd") (js "aX") 2 !! 2 = Some current /\
  getCharacterStates (js "abcd") (js "aX") 2 !! 3 = Some pending.
Proof.
  pose proof (getCharacterStates_classifies (js "abcd") (js "aX") 2) as [_ H].
  split; [|split].
  - destruct (H 1 98%N eq_refl) as [H1 _]. exact (H1 88%N eq_refl).
  - destruct (H 2 99%N eq_refl) as [_ H2]. apply H2. cbn. lia.
  - destruct (H 3 100%N eq_refl) as [_ H3]. apply H3. cbn. lia.
Defined.

Lemma live_state_correct (target typedText : jsstring) (cursor i : nat) :
  (if decide (live_state target typedText cursor i = correct) then 1 else 0) =
  spec_correct target typedText i.
Proof.
  unfold live_state, spec_correct.
  destruct (typedText !! i) as [d|] eqn:Hd.
  - apply lookup_lt_Some in Hd as Hi.
    rewrite bool_decide_eq_true_2 by assumption.
    destruct (target !! i) as [c|] eqn:Hc.
    + destruct (decide (c = d)) as [->|Hne].
      * now rewrite bool_decide_eq_true_2.
      * rewrite bool_decide_eq_false_2 by congruence. reflexivity.
    + rewrite bool_decide_eq_false_2 by discriminate. reflexivity.
  - apply lookup_ge_None in Hd.
    rewrite bool_decide_eq_false_2 by lia.
    destruct (bool_decide (i = cursor)), (target !! i); reflexivity.
Qed.

Lemma count_correct_live (target typedText : jsstring) (cursor : nat) (l : list nat) :
  length (filter (fun s => s = correct)
                 (map (live_state target typedText cursor) l)) =
  list_sum (map (spec_correct target typedText) l).
Proof.
  induction l as [|i l IH]; [reflexivity|].
  cbn [map].
  change (list_sum (spec_correct target typedText i ::
                    map (spec_correct target typedText) l))
    with (spec_correct target typedText i +
          list_sum (map (spec_correct target typedText) l)).
  rewrite <- IH, <- live_state_correct with (cursor := cursor).
  rewrite filter_cons. destruct (decide _); reflexivity.
Qed.

Lemma spec_correct_beyond (target typedText : jsstring) (n d : nat) :
  length target <= n ->
  list_sum (map (spec_correct target typedText) (seq 0 (n + d))) =
  list_sum (map (spec_correct target typedText) (seq 0 n)).
Proof.
  intros Hn. induction d as [|d IH].
  - now rewrite Nat.add_0_r.
  - replace (n + S d) with (S (n + d)) by lia.
    rewrite seq_S, map_app, list_sum_app, IH.
    change (list_sum (map (spec_correct target typedText) [0 + (n + d)]))
      with (spec_correct target typedText (n + d) + 0).
    unfold spec_correct. rewrite (lookup_ge_None_2 target (n + d)) by lia. lia.
Qed.

(** The live states and the full analysis agree: on every position that
    is typed and inside the target they give the same state, and the
    number of [correct] live states is the [correctCharacters] of the
    analysis, whatever the cursor. *)
Theorem getCharacterStates_agrees (target typedText : jsstring) (cursor : nat) :
  (forall i, i < length typedText -> i < length target ->
     getCharacterStates target typedText cursor !! i =
     characterStates (analyzeTypedText target typedText) !! i) /\
  length (filter (fun s => s = correct) (getCharacterStates target typedText cursor)) =
  correctCharacters (analyzeTypedText target typedText).
Proof.
  split.
  - intros i Ht Ho.
    rewrite analyze_state_lookup by lia.
    rewrite getCharacterStates_map, list_lookup_fmap, lookup_seq_lt by assumption.
    cbn [fmap option_fmap option_map Nat.add]. f_equal.
    unfold live_state, spec_state.
    rewrite bool_decide_eq_true_2 by assumption.
    destruct (lookup_lt_is_Some_2 target i Ho) as [c ->].
    destruct (lookup_lt_is_Some_2 typedText i Ht) as [d ->].
    destruct (decide (c = d)) as [->|Hne].
    + now rewrite bool_decide_eq_true_2.
    + rewrite bool_decide_eq_false_2; [reflexivity | congruence].
  - rewrite getCharacterStates_map, count_correct_live.
    unfold analyzeTypedText.
    destruct (analyze_upto_spec target typedText
                (Nat.max (length target) (length typedText))) as (_ & _ & -> & _).
    replace (Nat.max (length target) (length typedText))
      with (length target + (Nat.max (length target) (length typedText) - length target))
      by lia.
    now rewrite spec_correct_beyond.
Qed.

Lemma getCharacterStates_agrees_witness :
  getCharacterStates (js "abcd") (js "aXc") 3 !! 1 =
  characterStates (analyzeTypedText (js "abcd") (js "aXc")) !! 1.
Proof.
  apply (getCharacterStates_agrees (js "abcd") (js "aXc") 3); cbn; lia.
Defined.

Lemma count_current_live (target typedText : jsstring) (cursor n : nat) :
  length (filter (fun s => s = current)
                 (map (live_state target typedText cursor) (seq 0 n))) =
  if bool_decide (length typedText <= cursor < n) then 1 else 0.
Proof.
  induction n as [|n IH].
  - cbn. rewrite bool_decide_eq_false_2 by lia. reflexivity.
  - rewrite seq_S, map_app, filter_app, length_app, IH. cbn [map Nat.add].
    unfold live_state.
    destruct (decide (n < length typedText)) as [Hlt|Hge].
    + rewrite (bool_decide_eq_true_2 (n < _)) by assumption.
      destruct (bool_decide (target !! n = typedText !! n));
        rewrite filter_cons_False by (intros [=]);
        cbn [filter list_filter length];
      destruct (decide (length typedText <= cursor < n)),
               (decide (length typedText <= cursor < S n));
        rewrite ?bool_decide_eq_true_2, ?bool_decide_eq_false_2 by assumption; lia.
    + rewrite (bool_decide_eq_false_2 (n < _)) by assumption.
      destruct (decide (n = cursor)) as [->|Hne].
      * rewrite (bool_decide_eq_true_2 (cursor = cursor)) by reflexivity.
        rewrite filter_cons_True by reflexivity. cbn [filter list_filter length].
        rewrite (bool_decide_eq_false_2 (_ <= cursor < cursor)) by lia.
        rewrite bool_decide_eq_true_2 by lia. reflexivity.
      * rewrite (bool_decide_eq_false_2 (n = cursor)) by assumption.
        rewrite filter_cons_False by (intros [=]). cbn [filter list_filter length].
        destruct (decide (length typedText <= cursor < n)),
                 (decide (length typedText <= cursor < S n));
          rewrite ?bool_decide_eq_true_2, ?bool_decide_eq_false_2 by assumption; lia.
Qed.

(** The live states mark the cursor at most once: exactly one position is
    [current] when the cursor stands on an untyped position of the target,
    none otherwise; and no live state is [missed] or [extra]. *)
Theorem getCharacterStates_cursor (target typedText : jsstring) (cursor : nat) :
  let states := getCharacterStates target typedText cursor in
  length (filter (fun s => s = current) states) =
    (if bool_decide (length typedText <= cursor < length target) then 1 else 0) /\
  Forall (fun s => s <> missed /\ s <> extra) states.
Proof.
  cbn zeta. rewrite getCharacterStates_map. split.
  - apply count_current_live.
  - apply Forall_forall. intros s Hs. apply list_elem_of_fmap in Hs as (i & -> & _).
    unfold live_state. repeat case_bool_decide; split; discriminate.
Qed.

End LiveStateFacts.

(** ** Completion by text ([checkEndConditions]) *)

Section TextCompletionFacts.
Import Num Engine TypingLogicMore.

Lemma trimStart_head (s : jsstring) :
  (forall c, head s = Some c -> is_white_space c = false) -> trimStart s = s.
Proof.
  destruct s as [|c s]; [reflexivity|].
  intros H. cbn [trimStart]. now rewrite (H c eq_refl).
Qed.

Lemma trim_no_edge_space (s : jsstring) : no_edge_space s -> trim s = s.
Proof.
  intros [Hh Hl]. unfold trim, trimEnd. rewrite (trimStart_head s Hh).
  rewrite trimStart_head; [apply reverse_involutive|].
  intros c Hc. apply Hl. now rewrite <- head_reverse.
Qed.

(** Typing the target itself completes the text, whatever the target; a
    typed text shorter than the target never does; and when neither text
    starts or ends with white space, the text is completed exactly when
    the typed text is the target. *)
Theorem checkEndConditions_text (target typedText : jsstring)
    (timeLimit elapsed : num) :
  textCompleted (checkEndConditions target target timeLimit elapsed) = true /\
  (length typedText < length target ->
     textCompleted (checkEndConditions target typedText timeLimit elapsed) = false) /\
  (no_edge_space target -> no_edge_space typedText ->
     (textCompleted (checkEndConditions target typedText timeLimit elapsed) = true
      <-> typedText = target)).
Proof.
  unfold checkEndConditions. cbn [textCompleted].
  rewrite !substring_prefix. split; [|split].
  - rewrite firstn_all.
    now rewrite !bool_decide_eq_true_2.
  - intros Hlt. now rewrite (bool_decide_eq_false_2 (length target <= _)) by lia.
  - intros Ht Hy. rewrite andb_true_iff, !bool_decide_eq_true.
    rewrite (trim_no_edge_space typedText Hy). split.
    + intros [Hlen E]. rewrite take_ge in E by assumption.
      now rewrite (trim_no_edge_space target Ht) in E.
    + intros ->. rewrite firstn_all. split; [lia|].
      now rewrite trim_no_edge_space.
Qed.

Lemma checkEndConditions_text_witness :
  textCompleted (checkEndConditions (js "the cat") (js "the") (of_Z 15) (of_Z 3)) = false /\
  (textCompleted (checkEndConditions (js "the cat") (js "the cat") (of_Z 15) (of_Z 3)) = true
   <-> js "the cat" = js "the cat").
Proof.
  assert (H1 : no_edge_space (js "the cat")).
  { split; intros c [= <-]; reflexivity. }
  split.
  - apply (checkEndConditions_text (js "the cat") (js "the") (of_Z 15) (of_Z 3)).
    cbn. lia.
  - apply (checkEndConditions_text (js "the cat") (js "the cat") (of_Z 15) (of_Z 3));
      exact H1.
Defined.

End TextCompletionFacts.

(** ** Live statistics ([calculateRealTimeStats]) *)

Section LiveStatsFacts.
Import Num Engine.


Lemma inject_nat_le (a b : nat) :
  a <= b -> (inject_Z (Z.of_nat a) <= inject_Z (Z.of_nat b))%Q.
Proof. intros H. rewrite <- Zle_Qle. lia. Qed.

Lemma inject_nat_pos (n : nat) : 0 < n -> (0 < inject_Z (Z.of_nat n))%Q.
Proof. intros H. change 0%Q with (inject_Z 0). rewrite <- Zlt_Qlt. lia. Qed.

Lemma Qfloor_half_integer (k : Z) : Qfloor (inject_Z k + (1 # 2)) = k.
Proof.
  assert (Hlo : (Qfloor (inject_Z k) <= Qfloor (inject_Z k + (1 # 2)))%Z).
  { apply Qfloor_resp_le. rewrite <- (Qplus_0_r (inject_Z k)) at 1.
    apply Qplus_le_r. discriminate. }
  rewrite Qfloor_Z in Hlo.
  assert (Hhi : (inject_Z (Qfloor (inject_Z k + (1 # 2))) < inject_Z (k + 1))%Q).
  { eapply Qle_lt_trans; [apply Qfloor_le|].
    rewrite inject_Z_plus. apply Qplus_lt_r. reflexivity. }
  rewrite <- Zlt_Qlt in Hhi. lia.
Qed.




(** The progress figure: with a non-empty target it is a finite
    percentage between 0 and 100, equal to 100 once the typed text is as
    long as the target and below 100 before; with an empty target it is
    [NaN] when nothing is typed ([0 / 0]) and 100 otherwise. *)
Theorem calculateRealTimeStats_progress (target typedText : jsstring) (elapsed : num) :
  let p := progress (calculateRealTimeStats target typedText elapsed) in
  (target <> [] ->
     exists q, p = Fin q /\ (0 <= q)%Q /\ (q <= 100)%Q /\
       (length target <= length typedText -> q == 100) /\
       (length typedText < length target -> (q < 100)%Q)) /\
  (target = [] -> typedText = [] -> p = NaN) /\
  (target = [] -> typedText <> [] -> p = of_Z 100).
Proof.
  cbn zeta. unfold calculateRealTimeStats. cbn [progress]. split; [|split].
  - intros Hne.
    assert (Hlo : 0 < length target) by (destruct target; [congruence | cbn; lia]).
    pose proof (inject_nat_pos _ Hlo) as Hpos.
    unfold of_nat at 1 2. unfold of_Z at 2 3.
    rewrite div_finite by (apply of_nat_nonzero; lia).
    unfold of_Z at 2. cbn [mul].
    set (y := Qred (Qred (inject_Z (Z.of_nat (length typedText)) /
                          inject_Z (Z.of_nat (length target))) * inject_Z 100)).
    assert (Hy : y == inject_Z (Z.of_nat (length typedText)) /
                      inject_Z (Z.of_nat (length target)) * 100).
    { unfold y. now rewrite !Qred_correct. }
    assert (Hy0 : (0 <= y)%Q).
    { rewrite Hy. apply Qmult_le_0_compat; [|discriminate].
      apply Qle_shift_div_l; [assumption|]. rewrite Qmult_0_l.
      change 0%Q with (inject_Z 0). rewrite <- Zle_Qle. lia. }
    assert (Hge : length target <= length typedText -> (100 <= y)%Q).
    { intros H. rewrite Hy. rewrite <- (Qmult_1_l 100) at 1.
      apply Qmult_le_compat_r; [|discriminate].
      apply Qle_shift_div_l; [assumption|]. rewrite Qmult_1_l.
      now apply inject_nat_le. }
    assert (Hlt : length typedText < length target -> (y < 100)%Q).
    { intros H. rewrite Hy. rewrite <- (Qmult_1_l 100) at 2.
      apply Qmult_lt_compat_r; [reflexivity|].
      apply Qlt_shift_div_r; [assumption|]. rewrite Qmult_1_l.
      rewrite <- Zlt_Qlt. lia. }
    unfold of_Z. cbn [min].
    destruct (Qle_bool (inject_Z 100) y) eqn:E.
    + apply Qle_bool_iff in E. exists (inject_Z 100).
      split; [reflexivity|]. split; [discriminate|]. split; [apply Qle_refl|].
      split; [reflexivity|].
      intros H. apply Hlt in H. exfalso. eapply Qlt_not_le; eassumption.
    + assert (Hy100 : (y < 100)%Q).
      { apply Qnot_le_lt. intros H. apply Qle_bool_iff in H.
        change 100%Q with (inject_Z 100) in H. congruence. }
      exists y. split; [reflexivity|]. split; [assumption|].
      split; [now apply Qlt_le_weak|]. split; [|auto].
      intros H. apply Hge in H. exfalso. eapply Qlt_not_le; eassumption.
  - intros -> ->. reflexivity.
  - intros -> Hne. destruct typedText as [|c rest]; [congruence|].
    cbn [length]. unfold of_nat, of_Z. cbn [div].
    change (Qeq_bool (inject_Z (Z.of_nat 0)) 0) with true. cbn iota.
    replace (inject_Z (Z.of_nat (S (length rest))) ?= 0)%Q with Gt; [reflexivity|].
    symmetry. apply Qgt_alt. apply inject_nat_pos. lia.
Qed.

Lemma calculateRealTimeStats_progress_witness :
  exists q, progress (calculateRealTimeStats (js "abcd") (js "ab") (of_Z 3)) = Fin q /\
    (0 <= q)%Q /\ (q <= 100)%Q /\
    (length (js "abcd") <= length (js "ab") -> q == 100) /\
    (length (js "ab") < length (js "abcd") -> (q < 100)%Q).
Proof.
  apply (calculateRealTimeStats_progress (js "abcd") (js "ab") (of_Z 3)).
  discriminate.
Defined.

End LiveStatsFacts.

(** ** The result store *)

Section ResultStoreFacts.
Import Num NumOps TypingTest ResultStore.

(** Saving keeps the newest results only: with a working store the new
    result is returned and becomes the last stored one, the store is the
    old one followed by it and cut to its last 100 entries; with a store
    that raises, [null] is returned and nothing changes. *)
Theorem saveTestResult_retention (r : Result.t) (w : World) :
  let newResult := {| result := r; id := now w; savedTimestamp := now w |} in
  (storageThrows w = false ->
     fst (saveTestResult r w) = Some newResult /\
     storage (snd (saveTestResult r w)) =
       drop (S (length (storage w)) - 100) (storage w ++ [newResult]) /\
     last (storage (snd (saveTestResult r w))) = Some newResult /\
     length (storage (snd (saveTestResult r w))) = Nat.min (S (length (storage w))) 100) /\
  (storageThrows w = true ->
     fst (saveTestResult r w) = None /\ snd (saveTestResult r w) = w).
Proof.
  cbn zeta. unfold saveTestResult. split.
  - intros ->. cbn [fst snd storage].
    assert (E : (if bool_decide (100 < length (storage w ++ [mkSaved r (now w) (now w)]))
                 then drop (length (storage w ++ [mkSaved r (now w) (now w)]) - 100)
                           (storage w ++ [mkSaved r (now w) (now w)])
                 else storage w ++ [mkSaved r (now w) (now w)]) =
                drop (S (length (storage w)) - 100)
                     (storage w ++ [mkSaved r (now w) (now w)])).
    { rewrite length_app. cbn [length]. rewrite Nat.add_1_r.
      case_bool_decide; [reflexivity|].
      replace (S (length (storage w)) - 100) with 0 by lia. reflexivity. }
    rewrite E. split; [reflexivity|]. split; [reflexivity|]. split.
    + rewrite drop_app_le by lia. apply last_snoc.
    + rewrite length_drop, length_app. cbn [length]. lia.
  - intros ->. split; reflexivity.
Qed.

Lemma saveTestResult_retention_witness :
  length (storage (snd (saveTestResult
            (Result.mk (of_Z 13) (of_Z 13) (of_Z 100) 0 11 11 0 (of_Z 10) (of_Z 15)
                       (js "words") (js "the cat sat") 0 [] [])
            example_world))) = 1.
Proof.
  apply (saveTestResult_retention
           (Result.mk (of_Z 13) (of_Z 13) (of_Z 100) 0 11 11 0 (of_Z 10) (of_Z 15)
                      (js "words") (js "the cat sat") 0 [] [])
           example_world).
  reflexivity.
Defined.

(** The recent results are the newest first: for a limit of at least 1,
    at most [limit] of them; for a limit of 0 all of them, since
    [slice(-0)] is the whole array; and none when the store raises. *)
Theorem getRecentResults_newest_first (limit : nat) (w : World) :
  (storageThrows w = false -> 1 <= limit ->
     getRecentResults limit w = take limit (reverse (storage w)) /\
     length (getRecentResults limit w) = Nat.min limit (length (storage w))) /\
  (storageThrows w = false -> getRecentResults 0 w = reverse (storage w)) /\
  (storageThrows w = true -> getRecentResults limit w = []).
Proof.
  unfold getRecentResults, getTestResults, slice_last. split; [|split].
  - intros -> Hl. rewrite bool_decide_eq_false_2 by lia.
    assert (E : reverse (drop (length (storage w) - limit) (storage w)) =
                take limit (reverse (storage w))).
    { rewrite reverse_drop.
      destruct (Nat.le_gt_cases limit (length (storage w))) as [Hle|Hgt].
      - f_equal. lia.
      - rewrite !take_ge; [reflexivity | rewrite length_reverse; lia
                          | rewrite length_reverse; lia]. }
    rewrite E. split; [reflexivity|].
    rewrite length_take, length_reverse. reflexivity.
  - intros ->. reflexivity.
  - intros ->. now destruct (bool_decide (limit = 0)).
Qed.

Lemma getRecentResults_newest_first_witness :
  getRecentResults 20 (complete_now true example_world) =
  take 20 (reverse (storage (complete_now true example_world))).
Proof.
  destruct (getRecentResults_newest_first 20 (complete_now true example_world))
    as [H _].
  apply H; [reflexivity | lia].
Defined.











End ResultStoreFacts.

(** ** The first completion ([handleTestComplete] past its guard) *)

Section CompletionFacts.
Import Num TypingTest.

(** The elapsed time the completion works with: [timeElapsed || timeLimit]. *)
Lemma handleTestComplete_unfold (onTestComplete : bool) (snap : State) (w : World) :
  isComplete snap = false ->
  handleTestComplete onTestComplete snap w =
  let finalTimeElapsed :=
    if truthy (timeElapsed snap) then timeElapsed snap else timeLimit snap in
  let finalStats :=
    Engine.calculateRealTimeStats (testText snap) (typedText snap) finalTimeElapsed in
  let w1 := if isSoundEnabled snap then playSound testComplete (4 # 10) w else w in
  let netWPM :=
    Metrics.calculateNetWPM (Engine.wpm finalStats)
      (of_nat (Engine.mistakes finalStats)) finalTimeElapsed in
  let analysis := Analyzer.analyzeTypedText (testText snap) (typedText snap) in
  let r := buildResult snap finalTimeElapsed finalStats netWPM analysis (now w1) in
  let w6 :=
    clearInterval
      (set_state (setIsComplete true)
         (set_state (setIsActive false)
            (set_state (setCurrentStats finalStats) (snd (saveTestResult r w1))))) in
  if onTestComplete then notify (fst (saveTestResult r w1)) w6 else w6.
Proof.
  intros H. unfold handleTestComplete. rewrite H. cbn zeta.
  now destruct (saveTestResult _ _).
Qed.

Lemma saveTestResult_frame (r : Result.t) (w : World) :
  state (snd (saveTestResult r w)) = state w /\
  notified (snd (saveTestResult r w)) = notified w /\
  played (snd (saveTestResult r w)) = played w /\
  storageThrows (snd (saveTestResult r w)) = storageThrows w.
Proof.
  unfold saveTestResult. destruct (storageThrows w) eqn:E; cbn; repeat split;
    try assumption.
Qed.

Lemma saveTestResult_last (r : Result.t) (w : World) :
  storageThrows w = false ->
  fst (saveTestResult r w) = Some (mkSaved r (now w) (now w)) /\
  last (storage (snd (saveTestResult r w))) = Some (mkSaved r (now w) (now w)).
Proof.
  intros E. unfold saveTestResult. rewrite E. cbn [fst snd storage].
  split; [reflexivity|].
  case_bool_decide as Hlen; [|apply last_snoc].
  rewrite length_app in *. cbn [length] in *.
  rewrite drop_app_le by lia. apply last_snoc.
Qed.

Lemma saveTestResult_throws (r : Result.t) (w : World) :
  storageThrows w = true -> saveTestResult r w = (None, w).
Proof. intros E. unfold saveTestResult. now rewrite E. Qed.

Lemma sound_frame (snap : State) (w : World) :
  let w1 := if isSoundEnabled snap then playSound testComplete (4 # 10) w else w in
  state w1 = state w /\ storage w1 = storage w /\ notified w1 = notified w /\
  storageThrows w1 = storageThrows w /\ now w1 = now w.
Proof. cbn zeta. destruct (isSoundEnabled snap); repeat split. Qed.

(** The first completion with a working store: the session becomes
    complete and inactive, the typed and target texts are left alone, one
    result is stored last and handed to the parent, and that result
    carries the elapsed time (the time limit when no time has elapsed),
    counts that add up to the number of typed characters, and as many
    mistakes as incorrect characters and as mistake records. *)
Theorem handleTestComplete_first (snap : State) (w : World) :
  isComplete snap = false -> storageThrows w = false ->
  let w' := handleTestComplete true snap w in
  isComplete (state w') = true /\ isActive (state w') = false /\
  typedText (state w') = typedText (state w) /\
  testText (state w') = testText (state w) /\
  exists saved,
    last (storage w') = Some saved /\
    notified w' = notified w ++ [Some saved] /\
    id saved = now w /\
    Result.timeElapsed (result saved) =
      (if truthy (timeElapsed snap) then timeElapsed snap else timeLimit snap) /\
    Result.correctCharacters (result saved) + Result.incorrectCharacters (result saved)
      = Result.totalCharacters (result saved) /\
    Result.totalCharacters (result saved) = length (typedText snap) /\
    Result.mistakes (result saved) = Result.incorrectCharacters (result saved) /\
    Result.mistakes (result saved) = length (Result.mistakeDetails (result saved)).
Proof.
  intros Hc Hs. cbn zeta. rewrite (handleTestComplete_unfold true snap w Hc). cbn zeta.
  destruct (sound_frame snap w) as (Hst1 & Hsto1 & Hn1 & Hth1 & Hnow1).
  set (w1 := if isSoundEnabled snap then playSound testComplete (4 # 10) w else w) in *.
  match goal with |- context [saveTestResult ?r0 w1] => set (r := r0) end.
  destruct (saveTestResult_frame r w1) as (Hst2 & Hn2 & _ & _).
  destruct (saveTestResult_last r w1 ltac:(congruence)) as (Hfst & Hlast).
  cbn [notify clearInterval set_state state storage notified
       setIsComplete setIsActive setCurrentStats isComplete isActive typedText testText].
  rewrite Hst2, Hst1, Hn2, Hn1, Hfst, Hlast.
  split; [reflexivity|]. split; [reflexivity|]. split; [reflexivity|].
  split; [reflexivity|].
  eexists. split; [reflexivity|]. split; [reflexivity|].
  cbn [id result]. split; [exact Hnow1|].
  unfold r, buildResult. cbn [Result.timeElapsed Result.correctCharacters
    Result.incorrectCharacters Result.totalCharacters Result.mistakes
    Result.mistakeDetails].
  unfold Engine.calculateRealTimeStats.
  cbn [Engine.correctCharacters Engine.incorrectCharacters Engine.totalCharacters].
  pose proof (analyze_upto_spec (testText snap) (typedText snap)
                (Nat.max (length (testText snap)) (length (typedText snap)))) as H.
  cbn zeta in H.
  fold (Analyzer.analyzeTypedText (testText snap) (typedText snap)) in H.
  destruct H as (_ & Hm & Hcc & Hi & Ht).
  split; [reflexivity|].
  rewrite Hcc, Hi, Ht, Hm. rewrite spec_typed_count.
  repeat split; lia.
Qed.

Lemma handleTestComplete_first_witness :
  isComplete (state (handleTestComplete true example_session example_world)) = true.
Proof.
  apply (handleTestComplete_first example_session example_world); reflexivity.
Defined.

(** The first completion with a store that raises: the session still
    becomes complete and inactive, nothing is stored, and the parent is
    notified with [null] in place of a result. *)
Theorem handleTestComplete_store_failure (snap : State) (w : World) :
  isComplete snap = false -> storageThrows w = true ->
  let w' := handleTestComplete true snap w in
  isComplete (state w') = true /\ isActive (state w') = false /\
  storage w' = storage w /\
  notified w' = notified w ++ [None].
Proof.
  intros Hc Hs. cbn zeta. rewrite (handleTestComplete_unfold true snap w Hc). cbn zeta.
  destruct (sound_frame snap w) as (Hst1 & Hsto1 & Hn1 & Hth1 & Hnow1).
  set (w1 := if isSoundEnabled snap then playSound testComplete (4 # 10) w else w) in *.
  rewrite saveTestResult_throws by congruence.
  cbn [fst snd notify clearInterval set_state state storage notified
       setIsComplete setIsActive setCurrentStats isComplete isActive].
  rewrite Hsto1, Hn1. repeat split.
Qed.

Lemma handleTestComplete_store_failure_witness :
  let w := mkWorld example_session [] true 0%Z [] None [] [] in
  notified (handleTestComplete true example_session w) = [None].
Proof.
  cbn zeta.
  apply (handleTestComplete_store_failure example_session
           (mkWorld example_session [] true 0%Z [] None [] [])); reflexivity.
Defined.



End CompletionFacts.

(** ** Words mode ([generateRandomWords]) *)

Section WordsFacts.
Import TextGenerator TextGeneratorMore.

Variable commonWords : list jsstring.
Variable random : nat -> Q.
Hypothesis Hrange : draws_in_range random.
Hypothesis Hwords : commonWords <> [].

Lemma random_words_loop_drawn (n : nat) :
  forall (words : list (option jsstring)) (k : nat),
  exists ws,
    length ws = n /\ Forall (fun w => w ∈ commonWords) ws /\
    random_words_loop commonWords random n words k = (words ++ (Some <$> ws), k + n).
Proof.
  induction n as [|n IH]; intros words k; cbn [random_words_loop].
  - exists []. cbn. rewrite app_nil_r, Nat.add_0_r. repeat split. constructor.
  - destruct (at_index_defined commonWords (random_index random k (length commonWords)))
      as (w & Hw & Hin).
    { apply random_index_range; [assumption|].
      destruct commonWords; [congruence | cbn; lia]. }
    rewrite Hw.
    destruct (IH (words ++ [Some w]) (S k)) as (ws & Hlen & Hall & ->).
    exists (w :: ws). cbn [length fmap list_fmap]. rewrite <- app_assoc.
    split; [now rewrite Hlen|]. split; [now constructor|].
    cbn [app]. f_equal. lia.
Qed.

Lemma count_spaces_free (w : jsstring) : space ∉ w -> count_spaces w = 0.
Proof.
  intros H. unfold count_spaces.
  induction w as [|c w IH]; [reflexivity|].
  rewrite filter_cons_False.
  - apply IH. intros Hin. apply H. now right.
  - intros ->. apply H. left.
Qed.

Lemma count_spaces_join (ws : list jsstring) :
  Forall (fun w => space ∉ w) ws ->
  count_spaces (join (Some <$> ws)) = length ws - 1.
Proof.
  induction 1 as [|w ws Hw Hall IH]; [reflexivity|].
  destruct ws as [|w' ws].
  - cbn. now apply count_spaces_free.
  - change (join (Some <$> w :: w' :: ws))
      with (w ++ space :: join (Some <$> w' :: ws)).
    unfold count_spaces in *. rewrite filter_app, length_app.
    rewrite filter_cons_True by reflexivity. cbn [length] in *.
    fold (count_spaces w). rewrite (count_spaces_free w Hw), IH. lia.
Qed.

(** The words mode returns exactly [wordCount] words of the word list,
    joined by single spaces, and uses [wordCount] random draws; when no
    word of the list holds a space, the text has [wordCount - 1] spaces. *)
Theorem generateRandomWords_words (wordCount k : nat) :
  exists ws,
    length ws = wordCount /\
    Forall (fun w => w ∈ commonWords) ws /\
    generateRandomWords commonWords random wordCount k =
      (join (Some <$> ws), k + wordCount) /\
    (Forall (fun w => space ∉ w) commonWords ->
       count_spaces (fst (generateRandomWords commonWords random wordCount k))
       = wordCount - 1).
Proof.
  destruct (random_words_loop_drawn wordCount [] k) as (ws & Hlen & Hall & Hloop).
  exists ws. unfold generateRandomWords. rewrite Hloop. cbn [app fst].
  split; [exact Hlen|]. split; [exact Hall|]. split; [reflexivity|].
  intros Hfree. rewrite <- Hlen. apply count_spaces_join.
  rewrite Forall_forall in *. intros w Hw. apply Hfree. now apply Hall.
Qed.

End WordsFacts.

Lemma generateRandomWords_words_witness :
  exists ws,
    length ws = 5 /\
    Forall (fun w => w ∈ TextGenerator.example_words) ws /\
    TextGenerator.generateRandomWords TextGenerator.example_words
      TextGenerator.draws_alternate 5 0 = (TextGenerator.join (Some <$> ws), 0 + 5) /\
    (Forall (fun w => TextGenerator.space ∉ w) TextGenerator.example_words ->
       TextGeneratorMore.count_spaces
         (fst (TextGenerator.generateRandomWords TextGenerator.example_words
                 TextGenerator.draws_alternate 5 0)) = 5 - 1).
Proof.
  apply (generateRandomWords_words TextGenerator.example_words
           TextGenerator.draws_alternate draws_alternate_in_range).
  discriminate.
Defined.

(** ** Sentences mode ([generateRandomSentences]) *)

Section SentencesFacts.
Import TextGenerator TextGeneratorMore.

Variable sentences : list jsstring.
Variable random : nat -> Q.
Hypothesis Hnonempty : Forall (fun s => s <> []) sentences.

Lemma join_snoc (xs : list (option jsstring)) (e : option jsstring) :
  join (xs ++ [e]) =
  join xs ++ match xs with [] => [] | _ => [space] end ++ join_element e.
Proof.
  induction xs as [|x [|y xs] IH].
  - reflexivity.
  - reflexivity.
  - change (join ((x :: y :: xs) ++ [e]))
      with (join_element x ++ space :: join ((y :: xs) ++ [e])).
    rewrite IH.
    change (join (x :: y :: xs)) with (join_element x ++ space :: join (y :: xs)).
    rewrite <- !app_assoc. reflexivity.
Qed.

Lemma at_index_nonempty (i : Z) (s : jsstring) :
  at_index sentences i = Some s -> s <> [].
Proof.
  unfold at_index. destruct (i <? 0)%Z; [discriminate|].
  intros H. apply list_elem_of_lookup_2 in H.
  rewrite Forall_forall in Hnonempty. now apply Hnonempty.
Qed.

Lemma sentences_loop_invariant (targetLength : nat) (fuel : nat) :
  forall (text : jsstring) (usedSentences : gset Z) (k : nat) (text' : jsstring) (k' : nat),
  sentences_invariant sentences targetLength text usedSentences ->
  sentences_loop sentences random fuel targetLength text usedSentences k
    = Returned (text', k') ->
  exists usedSentences', sentences_invariant sentences targetLength text' usedSentences'.
Proof.
  induction fuel as [|fuel IH]; intros text used k text' k' Hinv; cbn [sentences_loop];
    [discriminate|].
  destruct (bool_decide (length text < targetLength) && bool_decide (size used < length sentences))
    eqn:Hcond.
  2:{ intros E. inversion E; subst. now exists used. }
  destruct (pick_unused sentences random fuel used k) as [[idx k1]| |] eqn:Hpick;
    try discriminate.
  assert (Hfresh : idx ∉ used).
  { clear -Hpick. revert k Hpick. induction fuel as [|fuel IHf]; intros k; cbn [pick_unused];
      [discriminate|].
    case_bool_decide as Hin; [apply IHf|].
    intros E. inversion E; subst. exact Hin. }
  destruct (at_index sentences idx) as [sentence|] eqn:Hat; [|discriminate].
  destruct (bool_decide (length text + length sentence + 1 <= targetLength + 50))
    eqn:Hfit.
  2:{ intros E. inversion E; subst. now exists used. }
  apply bool_decide_eq_true in Hfit.
  apply IH. destruct Hinv as (idxs & Hnd & Hsub & Hdef & Htext & Hsize).
  exists (idxs ++ [idx]). split; [|split; [|split; [|split]]].
  - apply NoDup_app. split; [exact Hnd|]. split.
    + intros i Hi Hi'. apply list_elem_of_singleton in Hi' as ->. apply Hfresh. now apply Hsub.
    + apply NoDup_singleton.
  - intros i Hi. apply elem_of_app in Hi as [Hi|Hi].
    + apply elem_of_union_r. now apply Hsub.
    + apply list_elem_of_singleton in Hi as ->. apply elem_of_union_l. now apply elem_of_singleton.
  - apply Forall_app. split; [exact Hdef|]. constructor; [|constructor].
    rewrite Hat. now eexists.
  - unfold chosen_text. rewrite fmap_app. cbn [fmap list_fmap].
    rewrite join_snoc, Hat. cbn [join_element]. fold (chosen_text sentences idxs).
    rewrite <- Htext. f_equal. f_equal.
    destruct Hsize as [->|[Hne _]].
    + rewrite Htext. reflexivity.
    + destruct text; [congruence|].
      destruct idxs; [cbn in Htext; discriminate | reflexivity].
  - right. pose proof (at_index_nonempty idx sentence Hat) as Hs.
    split.
    + intros E. apply app_eq_nil in E as [_ E]. apply app_eq_nil in E as [_ E].
      congruence.
    + rewrite !length_app.
      assert (length (separator text) <= 1) by (destruct text; cbn; lia).
      destruct text as [|c text].
      * cbn [separator length] in *. clear -Hfit. lia.
      * cbn [separator length] in *. clear -Hfit. lia.
Qed.

Hypothesis Hrange : draws_in_range random.
Hypothesis Hfair : draws_every_index random (length sentences).
Hypothesis Hsentences : sentences <> [].

(** The sentences mode returns, given enough loop iterations, either the
    first sentence (nothing was accumulated) or sentences of the list
    taken at pairwise distinct indices and joined by single spaces, with
    at most [targetLength + 50] code units in all. *)
Theorem generateRandomSentences_distinct (targetLength k : nat) :
  exists text k' f0,
    (forall fuel, f0 <= fuel ->
       generateRandomSentences sentences random fuel targetLength k
         = Returned (Some text, k')) /\
    (sentences !! 0 = Some text \/
     exists idxs : list Z,
       idxs <> [] /\ NoDup idxs /\
       Forall (fun i => is_Some (at_index sentences i)) idxs /\
       text = chosen_text sentences idxs /\
       length text <= targetLength + 50).
Proof.
  destruct (generateRandomSentences_returns sentences random Hrange Hfair
              targetLength k Hsentences Hnonempty) as (text & k' & f0 & Hne & Hret).
  exists text, k', f0. split; [exact Hret|].
  specialize (Hret f0 (Nat.le_refl _)). unfold generateRandomSentences in Hret.
  destruct (sentences_loop sentences random f0 targetLength [] ∅ k)
    as [[t k1]| |] eqn:Hloop; try discriminate.
  injection Hret as Ht <-.
  destruct (sentences_loop_invariant targetLength f0 [] ∅ k t k1) as (used' & Hinv);
    [|exact Hloop|].
  { exists []. split; [constructor|]. split; [intros i Hi; inversion Hi|].
    split; [constructor|]. split; [reflexivity | now left]. }
  destruct t as [|c t]; [now left|].
  right. injection Ht as <-.
  destruct Hinv as (idxs & Hnd & _ & Hdef & Htext & Hsize).
  exists idxs. destruct Hsize as [->|[_ Hlen]]; [discriminate|].
  split; [|repeat split; assumption].
  intros ->. discriminate.
Qed.

End SentencesFacts.

Lemma generateRandomSentences_distinct_witness :
  exists text k' f0,
    (forall fuel, f0 <= fuel ->
       TextGenerator.generateRandomSentences TextGenerator.example_sentences
         TextGenerator.draws_alternate fuel 50 0 = TextGenerator.Returned (Some text, k')) /\
    (TextGenerator.example_sentences !! 0 = Some text \/
     exists idxs : list Z,
       idxs <> [] /\ NoDup idxs /\
       Forall (fun i => is_Some (TextGenerator.at_index TextGenerator.example_sentences i)) idxs /\
       text = TextGeneratorMore.chosen_text TextGenerator.example_sentences idxs /\
       length text <= 50 + 50).
Proof.
  apply (generateRandomSentences_distinct TextGenerator.example_sentences
           TextGenerator.draws_alternate).
  - repeat constructor; discriminate.
  - exact draws_alternate_in_range.
  - exact draws_alternate_every_index.
  - discriminate.
Defined.

(** ** Mixed mode ([generateMixedText]) when a space follows the target
    length *)

Section MixedFacts.
Import TextGenerator.

Lemma indexOf_present (s : jsstring) (c : N) (j : nat) :
  s !! j = Some c -> exists k0, k0 <= j /\ indexOf s c = Z.of_nat k0.
Proof.
  revert j. induction s as [|x s IH]; intros j Hj; [now destruct j|].
  cbn [indexOf]. destruct (x =? c)%N eqn:Ex.
  - exists 0. split; [lia | reflexivity].
  - destruct j as [|j].
    + cbn in Hj. injection Hj as ->. rewrite N.eqb_refl in Ex. discriminate.
    + destruct (IH j Hj) as (k0 & Hk & ->).
      replace (Z.of_nat k0 <? 0)%Z with false by (symmetry; apply Z.ltb_ge; lia).
      exists (S k0). split; lia.
Qed.

(** Given enough loop iterations, the mixed mode accumulates a text of at
    least [targetLength] code units; and when that text has a space at or
    after position [targetLength], the mode returns the text cut just
    before the first such space: the result has at least [targetLength]
    units and the cut does not split a word. *)
Theorem generateMixedText_cut_at_space (commonWords sentences : list jsstring)
    (random : nat -> Q) (fuel targetLength k : nat) :
  draws_in_range random -> 2 * targetLength + 1 < fuel ->
  exists text k',
    mixed_accumulate commonWords sentences random fuel targetLength k
      = Returned (text, k') /\
    targetLength <= length text /\
    forall j, targetLength <= j -> text !! j = Some space ->
      exists m,
        targetLength <= m <= j /\
        text !! m = Some space /\
        (forall i, targetLength <= i < m -> text !! i <> Some space) /\
        generateMixedText commonWords sentences random fuel targetLength k
          = Returned (take m text, k') /\
        length (take m text) = m /\
        ~ splits_word text m.
Proof.
  intros Hrange Hfuel.
  set (useWords := negb (Qle_bool (random k) (1 # 2))).
  destruct (mixed_loop_returns commonWords sentences random Hrange
              targetLength fuel [] useWords (S k)) as (text & k' & Hloop & Hlen).
  { cbn [length]. destruct useWords; lia. }
  exists text, k'.
  assert (Hacc : mixed_accumulate commonWords sentences random fuel targetLength k
                 = Returned (text, k')).
  { unfold mixed_accumulate. fold useWords. exact Hloop. }
  split; [exact Hacc|]. split; [exact Hlen|].
  intros j Hj Hspace.
  destruct (indexOf_present (drop targetLength text) space (j - targetLength))
    as (k0 & Hk0 & Hidx).
  { rewrite lookup_drop. now replace (targetLength + (j - targetLength)) with j by lia. }
  destruct (truncate_at_space_found text targetLength k0 Hidx) as (Hcut & Hat & Hfirst).
  exists (targetLength + k0). split; [lia|]. split; [exact Hat|]. split; [exact Hfirst|].
  split; [|split].
  - unfold generateMixedText. rewrite Hacc. now rewrite Hcut.
  - apply lookup_lt_Some in Hat. rewrite length_take. lia.
  - intros (a & b & _ & _ & Hb & _ & Hne). rewrite Hat in Hb. congruence.
Qed.

Lemma generateMixedText_cut_at_space_witness :
  exists text k',
    mixed_accumulate example_words example_sentences draws_zero 100 20 0
      = Returned (text, k') /\
    20 <= length text /\
    forall j, 20 <= j -> text !! j = Some space ->
      exists m,
        20 <= m <= j /\
        text !! m = Some space /\
        (forall i, 20 <= i < m -> text !! i <> Some space) /\
        generateMixedText example_words example_sentences draws_zero 100 20 0
          = Returned (take m text, k') /\
        length (take m text) = m /\
        ~ splits_word text m.
Proof.
  apply (generateMixedText_cut_at_space example_words example_sentences draws_zero 100 20 0).
  - intros k. split; [apply Qle_refl | reflexivity].
  - lia.
Defined.

(** On the example corpus, with the pangram drawn first and a target
    length of 20, the cut falls before the space that follows [jumps]. *)
Example generateMixedText_cut_example :
  generateMixedText example_words example_sentences draws_zero 100 20 0
    = Returned (js "The quick brown fox jumps", 2).
Proof. vm_compute. reflexivity. Qed.

End MixedFacts.

(** ** Text for a time limit ([generateTextForTime]) *)

Section ForTimeFacts.
Import TextGenerator TextGeneratorMore.

(** The estimate for every whole number of seconds up to ten minutes. *)
Lemma estimate_fits_minutes :
  forallb estimate_fits (Binary64.whole_seconds (10 * 60)) = true.
Proof. vm_compute. reflexivity. Qed.

Lemma estimate_fits_spec (seconds : Z) :
  (1 <= seconds <= 600)%Z ->
  exists wordCount,
    1 <= wordCount /\
    Binary64.to_length (estimatedWords (Binary64.of_Z seconds)) = Some wordCount /\
    Binary64.to_length (Binary64.mul (estimatedWords (Binary64.of_Z seconds))
                                     (Binary64.of_Z 5)) = Some (wordCount * 5).
Proof.
  intros Hs. pose proof estimate_fits_minutes as Hall.
  rewrite forallb_forall in Hall. specialize (Hall seconds).
  unfold estimate_fits in Hall.
  destruct (Binary64.to_length (estimatedWords (Binary64.of_Z seconds))) as [n|];
    [|discriminate Hall; apply whole_seconds_In; change (Z.of_nat (10 * 60)) with 600%Z; lia].
  destruct (Binary64.to_length _) as [c|];
    [|discriminate Hall; apply whole_seconds_In; change (Z.of_nat (10 * 60)) with 600%Z; lia].
  assert (H : (1 <=? n) && (c =? n * 5) = true).
  { apply Hall. apply whole_seconds_In. change (Z.of_nat (10 * 60)) with 600%Z. lia. }
  apply andb_true_iff in H as [H1 H2].
  apply Nat.leb_le in H1. apply Nat.eqb_eq in H2. subst c.
  exists n. repeat split. exact H1.
Qed.

(** The estimate is computed in binary64: for 13 seconds the product is
    just above 13 and the estimate is 14 words; for the time limits the
    component offers it is 15, 30, 60 and 120 words. *)
Example estimatedWords_examples :
  Binary64.to_length (estimatedWords (Binary64.of_Z 13)) = Some 14 /\
  map (fun seconds => Binary64.to_length (estimatedWords (Binary64.of_Z seconds)))
      [15; 30; 60; 120]%Z = [Some 15; Some 30; Some 60; Some 120].
Proof. split; vm_compute; reflexivity. Qed.

(** For every whole number of seconds from 1 to 600 as time limit and
    every mode, the text generated for the time limit is a non-empty
    string and no exception is raised, given enough loop iterations: the
    word count is at least 1 and the character count at least 5, so the
    lengths for which the words and mixed modes return an empty text are
    never asked for. *)
Theorem generateTextForTime_nonempty (commonWords sentences : list jsstring)
    (random : nat -> Q) (seconds : Z) (mode : jsstring) (k : nat) :
  draws_in_range random ->
  commonWords <> [] -> Forall (fun w => w <> []) commonWords ->
  sentences <> [] -> Forall (fun s => s <> []) sentences ->
  (mode = js "sentences" -> draws_every_index random (length sentences)) ->
  (1 <= seconds <= 600)%Z ->
  exists f0, forall fuel, f0 <= fuel ->
    exists text k',
      generateTextForTime commonWords sentences random fuel
                          (Binary64.of_Z seconds) mode k =
        Some (Returned (Some text, k')) /\
      text <> [].
Proof.
  intros Hrange Hw Hwall Hs Hsall Hfair Hsec.
  destruct (estimate_fits_spec seconds Hsec) as (n & Hn & Hwords & Hchars).
  unfold generateTextForTime. cbn zeta. rewrite Hwords, Hchars.
  destruct (decide (mode = js "words")) as [->|Hnw].
  - rewrite bool_decide_eq_true_2 by reflexivity.
    exists 0. intros fuel _. unfold generateText.
    rewrite bool_decide_eq_true_2 by reflexivity.
    eexists _, _. split; [reflexivity|].
    now apply generateRandomWords_nonempty.
  - rewrite (bool_decide_eq_false_2 (mode = js "words")) by assumption.
    destruct (decide (mode = js "sentences")) as [->|Hns].
    + rewrite bool_decide_eq_true_2 by reflexivity.
      destruct (generateRandomSentences_returns sentences random Hrange
                  (Hfair eq_refl) (n * 5) k Hs Hsall)
        as (text & k' & f0 & Hne & Hret).
      exists f0. intros fuel Hf. exists text, k'. split; [|exact Hne].
      unfold generateText.
      rewrite bool_decide_eq_false_2 by discriminate.
      rewrite bool_decide_eq_true_2 by reflexivity.
      f_equal. now apply Hret.
    + rewrite bool_decide_eq_false_2 by assumption.
      exists (2 * (n * 5) + 2). intros fuel Hf.
      destruct (generateMixedText_returns commonWords sentences random Hrange
                  (n * 5) k fuel ltac:(lia) ltac:(lia))
        as (text & k' & Hret & Hne).
      exists text, k'. split; [|exact Hne].
      unfold generateText.
      rewrite !bool_decide_eq_false_2 by discriminate.
      rewrite bool_decide_eq_true_2 by reflexivity.
      now rewrite Hret.
Qed.

Lemma generateTextForTime_nonempty_witness :
  exists f0, forall fuel, f0 <= fuel ->
    exists text k',
      generateTextForTime example_words example_sentences draws_alternate fuel
        (Binary64.of_Z 15) (js "mixed") 0 = Some (Returned (Some text, k')) /\
      text <> [].
Proof.
  apply generateTextForTime_nonempty.
  - exact draws_alternate_in_range.
  - discriminate.
  - repeat constructor; discriminate.
  - discriminate.
  - repeat constructor; discriminate.
  - discriminate.
  - lia.
Defined.

End ForTimeFacts.

(** ** Time display ([formatTime]) *)

Section FormatTimeFacts.
Import TypingLogicMore.













Example formatTime_examples :
  formatTime_text 0 = "00:00"%string /\ formatTime_text 75 = "01:15"%string /\
  formatTime_text 599 = "09:59"%string /\
  formatTime_text (100 * 60) = "100:00"%string.
Proof. repeat split. Qed.

End FormatTimeFacts.

(** ** Speed trend ([calculateTrend]) *)

Section TrendFacts.
Import Num NumOps TypingLogicMore.











End TrendFacts.

(** ** Pause, timer and statistics effect of the component *)

Section LifecycleFacts.
Import Num NumOps TypingTest Lifecycle.

(** What a first completion leaves in the state, and what it stores when
    the store works. *)
Lemma handleTestComplete_effect (b : bool) (snap : State) (w : World) :
  isComplete snap = false ->
  let finalTimeElapsed :=
    if truthy (timeElapsed snap) then timeElapsed snap else timeLimit snap in
  let finalStats :=
    Engine.calculateRealTimeStats (testText snap) (typedText snap) finalTimeElapsed in
  let netWPM :=
    Metrics.calculateNetWPM (Engine.wpm finalStats)
      (of_nat (Engine.mistakes finalStats)) finalTimeElapsed in
  let analysis := Analyzer.analyzeTypedText (testText snap) (typedText snap) in
  let r := buildResult snap finalTimeElapsed finalStats netWPM analysis (now w) in
  state (handleTestComplete b snap w) =
    setIsComplete true (setIsActive false (setCurrentStats finalStats (state w))) /\
  (storageThrows w = false ->
   last (storage (handleTestComplete b snap w)) = Some (mkSaved r (now w) (now w))).
Proof.
  intros Hc. cbn zeta. rewrite (handleTestComplete_unfold b snap w Hc). cbn zeta.
  destruct (sound_frame snap w) as (Hst1 & Hsto1 & Hn1 & Hth1 & Hnow1).
  set (w1 := if isSoundEnabled snap then playSound testComplete (4 # 10) w else w) in *.
  rewrite Hnow1.
  match goal with |- context [saveTestResult ?r0 w1] => set (r := r0) end.
  destruct (saveTestResult_frame r w1) as (Hst2 & _).
  split.
  - destruct b; cbn [notify clearInterval set_state state]; now rewrite Hst2, Hst1.
  - intros Hs.
    destruct (saveTestResult_last r w1 ltac:(congruence)) as (_ & Hlast).
    rewrite Hnow1 in Hlast.
    destruct b; cbn [notify clearInterval set_state storage]; exact Hlast.
Qed.

(** A completion never touches the elapsed time of the state. *)
Lemma handleTestComplete_timeElapsed (b : bool) (snap : State) (w : World) :
  timeElapsed (state (handleTestComplete b snap w)) = timeElapsed (state w).
Proof.
  destruct (isComplete snap) eqn:Hc.
  - unfold handleTestComplete. now rewrite Hc.
  - destruct (handleTestComplete_effect b snap w Hc) as [-> _]. reflexivity.
Qed.

Lemma Qfloor_thousandths (n : Z) : Qfloor (inject_Z n / 1000) = (n / 1000)%Z.
Proof.
  transitivity (Qfloor (n # 1000)); [|reflexivity].
  apply Qfloor_comp. unfold Qeq, Qdiv, Qmult, Qinv, inject_Z. cbn. lia.
Qed.

(** The time the interval callback measures. *)
Lemma timerTick_elapsed (b : bool) (snap : State) (s : Session) :
  timeElapsed (state (world (timerTick b snap s))) =
  floor (div (sub (of_Z (now (world s))) (ref_value (startTimeRef s))) (of_Z 1000)).
Proof.
  unfold timerTick. cbn [world].
  destruct (geb _ _); [rewrite handleTestComplete_timeElapsed|]; reflexivity.
Qed.





(** The measurement when the start reference holds the instant [t0]. *)
Lemma measured_elapsed (s : Session) (t0 : Z) :
  startTimeRef s = Some (of_Z t0) ->
  floor (div (sub (of_Z (now (world s))) (ref_value (startTimeRef s))) (of_Z 1000)) =
  of_Z ((now (world s) - t0) / 1000).
Proof.
  intros Hr. rewrite Hr. unfold ref_value, of_Z. cbn [sub div floor].
  replace (Qeq_bool (inject_Z 1000) 0) with false by reflexivity.
  cbn [floor]. unfold of_Z. do 2 f_equal.
  rewrite <- Qfloor_thousandths. apply Qfloor_comp.
  rewrite !Qred_correct. unfold Zminus. rewrite inject_Z_plus, inject_Z_opp.
  reflexivity.
Qed.

Lemma geb_whole (a b : Z) : geb (of_Z a) (of_Z b) = bool_decide (b <= a)%Z.
Proof.
  unfold of_Z. cbn [geb]. case_bool_decide as H.
  - apply Qle_bool_iff. now rewrite <- Zle_Qle.
  - destruct (Qle_bool _ _) eqn:E; [|reflexivity].
    apply Qle_bool_iff in E. now rewrite <- Zle_Qle in E.
Qed.

Lemma timerTick_whole (b : bool) (snap : State) (s : Session) (t0 L : Z) :
  startTimeRef s = Some (of_Z t0) -> timeLimit snap = of_Z L ->
  let elapsed := ((now (world s) - t0) / 1000)%Z in
  let w1 := set_state (setTimeElapsed (of_Z elapsed)) (world s) in
  world (timerTick b snap s) =
    if bool_decide (L <= elapsed)%Z then handleTestComplete b snap w1 else w1.
Proof.
  intros Hr Hl. cbn zeta. unfold timerTick. cbn [world].
  rewrite (measured_elapsed s t0 Hr), Hl, geb_whole. reflexivity.
Qed.

(** When the measured time reaches the limit, the callback completes the
    session: the state shows the measured whole seconds, and one result
    is stored, whose elapsed time is the one of the render the interval
    belongs to ([timeElapsed || timeLimit] of that render), not the
    measurement that ended the session. *)
Theorem timerTick_time_up (b : bool) (snap : State) (s : Session) (t0 L : Z) :
  isComplete snap = false -> storageThrows (world s) = false ->
  startTimeRef s = Some (of_Z t0) -> timeLimit snap = of_Z L ->
  (L * 1000 <= now (world s) - t0)%Z ->
  let s' := timerTick b snap s in
  isComplete (state (world s')) = true /\ isActive (state (world s')) = false /\
  timeElapsed (state (world s')) = of_Z ((now (world s) - t0) / 1000) /\
  exists saved,
    last (storage (world s')) = Some saved /\
    Result.timeElapsed (result saved) =
      (if truthy (timeElapsed snap) then timeElapsed snap else timeLimit snap).
Proof.
  intros Hc Hs Hr Hl Hle. cbn zeta.
  assert (Ht : timeElapsed (state (world (timerTick b snap s))) =
               of_Z ((now (world s) - t0) / 1000)).
  { rewrite timerTick_elapsed. now apply measured_elapsed. }
  revert Ht. rewrite (timerTick_whole b snap s t0 L Hr Hl).
  rewrite bool_decide_eq_true_2 by (apply Z.div_le_lower_bound; lia).
  intros Ht.
  set (w1 := set_state (setTimeElapsed (of_Z ((now (world s) - t0) / 1000))) (world s)) in *.
  destruct (handleTestComplete_effect b snap w1 Hc) as [Hst Hlast].
  cbn zeta in Hlast. rewrite Hst, (Hlast Hs).
  split; [reflexivity|]. split; [reflexivity|]. split; [rewrite <- Hst; exact Ht|].
  eexists. split; reflexivity.
Qed.

Lemma timerTick_time_up_witness :
  let s := mkSession example_world (Some (of_Z 1699999985000)) in
  isComplete (state (world (timerTick true example_session s))) = true.
Proof.
  cbn zeta.
  apply (timerTick_time_up true example_session
           (mkSession example_world (Some (of_Z 1699999985000)))
           1699999985000 15); first [reflexivity | cbn; lia].
Defined.

(** Before the limit the callback only records the measured whole
    seconds: nothing else in the world changes. *)
Theorem timerTick_before_limit (b : bool) (snap : State) (s : Session) (t0 L : Z) :
  startTimeRef s = Some (of_Z t0) -> timeLimit snap = of_Z L ->
  (now (world s) - t0 < L * 1000)%Z ->
  world (timerTick b snap s) =
    set_state (setTimeElapsed (of_Z ((now (world s) - t0) / 1000))) (world s) /\
  startTimeRef (timerTick b snap s) = startTimeRef s.
Proof.
  intros Hr Hl Hlt. split; [|reflexivity].
  rewrite (timerTick_whole b snap s t0 L Hr Hl).
  rewrite bool_decide_eq_false_2; [reflexivity|].
  assert ((now (world s) - t0) / 1000 < L)%Z by (apply Z.div_lt_upper_bound; lia).
  lia.
Qed.

Lemma timerTick_before_limit_witness :
  let s := mkSession example_world (Some (of_Z 1699999989100)) in
  world (timerTick true example_session s) =
  set_state (setTimeElapsed (of_Z 10)) example_world.
Proof.
  cbn zeta.
  apply (timerTick_before_limit true example_session
           (mkSession example_world (Some (of_Z 1699999989100)))
           1699999989100 15); first [reflexivity | cbn; lia].
Defined.


(** An accepted input replaces the typed text and leaves the rest of the
    state and the store alone. *)
Lemma handleInputChange_state (value : jsstring) (snap : State) (w : World) :
  running snap -> length value <= length (testText snap) ->
  state (handleInputChange value snap w) = setTypedText value (state w) /\
  storageThrows (handleInputChange value snap w) = storageThrows w.
Proof.
  intros (Ha & Hp & Hc) Hlen. unfold handleInputChange.
  rewrite Ha, Hp, Hc. cbn [negb orb].
  rewrite (bool_decide_eq_true_2 (length value <= _)) by assumption.
  destruct (bool_decide (length (typedText snap) < length value)); [|now split].
  destruct (bool_decide _), (isSoundEnabled snap); now split.
Qed.

(** A text compared with itself: every character is correct. *)
Lemma analyzeTypedText_same (t : jsstring) :
  let a := Analyzer.analyzeTypedText t t in
  Analyzer.correctCharacters a = length t /\
  Analyzer.incorrectCharacters a = 0 /\
  Analyzer.mistakes a = [].
Proof.
  cbn zeta. unfold Analyzer.analyzeTypedText. rewrite Nat.max_id.
  destruct (analyze_upto_spec t t (length t)) as (_ & Hm & Hc & Hi & _).
  assert (Hnil : forall n, flat_map (Analyzer.spec_mistakes t t) (seq 0 n) = []).
  { intros n. induction n as [|n IH]; [reflexivity|].
    rewrite seq_S, flat_map_app, IH. cbn [app flat_map]. rewrite app_nil_r.
    unfold Analyzer.spec_mistakes. cbn [Nat.add].
    destruct (t !! n); [now rewrite decide_True|reflexivity]. }
  assert (Hsum : forall n, n <= length t ->
            list_sum (map (Analyzer.spec_correct t t) (seq 0 n)) = n).
  { intros n. induction n as [|n IH]; [reflexivity|]. intros Hn.
    rewrite seq_S, map_app, list_sum_app, IH by lia.
    change (list_sum (map (Analyzer.spec_correct t t) [0 + n]))
      with (Analyzer.spec_correct t t n + 0).
    unfold Analyzer.spec_correct.
    destruct (t !! n) eqn:E.
    - rewrite decide_True by reflexivity. lia.
    - apply lookup_ge_None in E. lia. }
  rewrite Hc, Hi, Hm, Hnil, Hsum by lia. repeat split.
Qed.

Lemma calculateAccuracy_all_correct (n : nat) :
  Metrics.calculateAccuracy (of_nat n) (of_nat n) = of_Z 100.
Proof.
  destruct n as [|n]; [reflexivity|].
  unfold of_nat, of_Z at 1 2.
  rewrite calculateAccuracy_rational by (apply of_nat_nonzero; lia).
  assert (E : Qfloor (inject_Z (Z.of_nat (S n)) / inject_Z (Z.of_nat (S n)) * 1000 + (1 # 2))
              = 1000%Z).
  { transitivity (Qfloor (inject_Z 1000 + (1 # 2))); [|apply Qfloor_half_integer].
    apply Qfloor_comp. apply Qplus_comp; [|reflexivity].
    pose proof (of_nat_nonzero (S n) ltac:(lia)) as Hx.
    set (x := inject_Z (Z.of_nat (S n))) in *.
    change (inject_Z 1000) with (1000 : Q). now field. }
  rewrite E. reflexivity.
Qed.

Lemma shouldEnd_same (target : jsstring) (timeLimit elapsed : num) :
  Engine.shouldEnd (Engine.checkEndConditions target target timeLimit elapsed) = true.
Proof.
  unfold Engine.checkEndConditions. cbn [Engine.shouldEnd].
  rewrite substring_prefix, firstn_all. rewrite !bool_decide_eq_true_2 by done.
  apply orb_true_r.
Qed.

(** Typing the whole target in a running session: the input is taken,
    and the statistics effect of the next render completes the session
    and stores a result in which every character of the target is
    correct, nothing is incorrect, no mistake is recorded and the
    accuracy is 100. *)
Theorem statsEffect_completes_on_target (b : bool) (w : World) :
  running (state w) -> testText (state w) <> [] -> storageThrows w = false ->
  let typed := handleInputChange (testText (state w)) (state w) w in
  let w' := statsEffect b (state typed) typed in
  isComplete (state w') = true /\ isActive (state w') = false /\
  typedText (state w') = testText (state w) /\
  exists saved,
    last (storage w') = Some saved /\
    Result.correctCharacters (result saved) = length (testText (state w)) /\
    Result.incorrectCharacters (result saved) = 0 /\
    Result.mistakes (result saved) = 0 /\
    Result.mistakeDetails (result saved) = [] /\
    Result.accuracy (result saved) = of_Z 100.
Proof.
  intros Hrun Hne Hs. cbn zeta.
  destruct (handleInputChange_state (testText (state w)) (state w) w Hrun (le_n _))
    as [Hst Hth].
  destruct Hrun as (Ha & Hp & Hc).
  set (typed := handleInputChange (testText (state w)) (state w) w) in *.
  unfold statsEffect. rewrite Hst.
  cbn [setTypedText isActive testText typedText timeLimit timeElapsed isComplete].
  rewrite Ha, Hc, (bool_decide_eq_false_2 _ Hne). cbn [andb negb].
  rewrite shouldEnd_same. cbn [andb negb].
  match goal with |- context [handleTestComplete b ?sn ?w0] =>
    destruct (handleTestComplete_effect b sn w0 Hc) as [Hst' Hlast]
  end.
  cbn zeta in Hlast. rewrite Hst', Hlast by (cbn [set_state storageThrows]; congruence).
  cbn [set_state state setCharacterStates setCurrentStats setIsActive setIsComplete
       isComplete isActive typedText].
  rewrite Hst. cbn [setTypedText typedText].
  split; [reflexivity|]. split; [reflexivity|]. split; [reflexivity|].
  eexists. split; [reflexivity|].
  cbn [result buildResult Result.correctCharacters Result.incorrectCharacters
       Result.mistakes Result.mistakeDetails Result.accuracy
       setTypedText testText typedText].
  unfold Engine.calculateRealTimeStats.
  cbn [Engine.correctCharacters Engine.incorrectCharacters Engine.accuracy].
  destruct (analyzeTypedText_same (testText (state w))) as (E1 & E2 & E3).
  rewrite E1, E2, E3.
  assert (Et : Analyzer.totalCharacters
                 (Analyzer.analyzeTypedText (testText (state w)) (testText (state w)))
               = length (testText (state w))).
  { unfold Analyzer.analyzeTypedText.
    now destruct (analyze_upto_spec (testText (state w)) (testText (state w))
                    (Nat.max (length (testText (state w))) (length (testText (state w)))))
      as (_ & _ & _ & _ & ->). }
  rewrite Et, calculateAccuracy_all_correct. repeat split.
Qed.

Lemma statsEffect_completes_on_target_witness :
  let w := set_state (setTypedText (js "the cat sa")) example_world in
  let typed := handleInputChange (js "the cat sat") (state w) w in
  isComplete (state (statsEffect true (state typed) typed)) = true.
Proof.
  cbn zeta.
  apply (statsEffect_completes_on_target true
           (set_state (setTypedText (js "the cat sa")) example_world)).
  - repeat split.
  - discriminate.
  - reflexivity.
Defined.

End LifecycleFacts.

(** ** Theme preference and clearing the results *)

Section PreferencesFacts.
Import Num NumOps TypingTest ResultStore Preferences.

(** Saving a theme and reading it back: the save answers whether the
    store works; the theme read back is the saved one, except that the
    empty theme, like every theme with a store that raises, reads back
    as [mauve]; and no other key changes. *)
Theorem saveTheme_getTheme (theme : jsstring) (ls : LocalStorage) :
  fst (saveTheme theme ls) = negb (raises ls) /\
  getTheme (snd (saveTheme theme ls)) =
    (if raises ls || bool_decide (theme = []) then js "mauve" else theme) /\
  forall key, key <> THEMES ->
    getItem key (snd (saveTheme theme ls)) = getItem key ls.
Proof.
  unfold saveTheme, getTheme, setItem, getItem.
  destruct (raises ls) eqn:E; cbn.
  - rewrite ?E. now repeat split.
  - split; [reflexivity|]. split.
    + now rewrite lookup_insert_eq.
    + intros key Hk. rewrite ?E. now rewrite lookup_insert_ne.
Qed.

Lemma saveTheme_getTheme_witness :
  let ls := mkLocalStorage (<[js "typeVelocity_settings" := js "{}"]> empty) false in
  getItem (js "typeVelocity_settings") (snd (saveTheme (js "ocean") ls)) =
  getItem (js "typeVelocity_settings") ls.
Proof.
  cbn zeta.
  apply (saveTheme_getTheme (js "ocean")
           (mkLocalStorage (<[js "typeVelocity_settings" := js "{}"]> empty) false)).
  discriminate.
Defined.

(** Clearing a working store: the call answers [true]; afterwards no
    result is listed, the statistics are all zero, and the next saved
    result is the only one stored. *)
Theorem clearTestResults_resets (w : World) (limit : nat) (r : Result.t) :
  storageThrows w = false ->
  let w' := snd (clearTestResults w) in
  fst (clearTestResults w) = true /\
  getTestResults w' = [] /\
  getRecentResults limit w' = [] /\
  getTestStatistics w' =
    mkStatistics 0 (of_Z 0) (of_Z 0) (of_Z 0) (of_Z 0) (of_Z 0) 0 0 /\
  storage (snd (saveTestResult r w')) = [mkSaved r (now w) (now w)].
Proof.
  intros Hs. unfold clearTestResults. rewrite Hs. cbn [fst snd].
  unfold getRecentResults, getTestStatistics, getTestResults, saveTestResult, slice_last.
  cbn [storageThrows storage now]. rewrite ?Hs.
  repeat split. now destruct (bool_decide (limit = 0)).
Qed.

Lemma clearTestResults_resets_witness :
  getTestResults (snd (clearTestResults example_world)) = [].
Proof.
  apply (clearTestResults_resets example_world 10
           (buildResult example_session (of_Z 10) initialStats (of_Z 0)
              (Analyzer.analyzeTypedText [] []) 0%Z)).
  reflexivity.
Defined.

End PreferencesFacts.

(** ** Result page and dashboard *)

Section ViewsFacts.
Import Num NumOps TypingTest ResultStore Views.

Lemma geb_threshold_mono (x : num) (a b : Z) :
  (b <= a)%Z -> geb x (of_Z a) = true -> geb x (of_Z b) = true.
Proof.
  intros Hab. destruct x as [| | |q]; cbn; try done.
  intros H. apply Qle_bool_iff in H. apply Qle_bool_iff.
  eapply Qle_trans; [|exact H]. now rewrite <- Zle_Qle.
Qed.

Lemma ltb_threshold (x : num) (a : Z) :
  ltb x (of_Z a) = negb (is_NaN x) && negb (geb x (of_Z a)).
Proof. destruct x as [| | |q]; reflexivity. Qed.

Lemma geb_not_NaN (x : num) (a : Z) : geb x (of_Z a) = true -> is_NaN x = false.
Proof. now destruct x. Qed.

(** A number that is not [NaN] meets exactly one of the four conditions
    of a chart with the thresholds [c < b < a]; [NaN] meets none. *)
Lemma four_tiers (x : num) (a b c : Z) :
  (c <= b)%Z -> (b <= a)%Z ->
  Nat.b2n (geb x (of_Z a)) +
  Nat.b2n (geb x (of_Z b) && ltb x (of_Z a)) +
  Nat.b2n (geb x (of_Z c) && ltb x (of_Z b)) +
  Nat.b2n (ltb x (of_Z c)) =
  Nat.b2n (negb (is_NaN x)).
Proof.
  intros Hcb Hba. rewrite !ltb_threshold.
  pose proof (geb_threshold_mono x a b Hba) as H1.
  pose proof (geb_threshold_mono x b c Hcb) as H2.
  pose proof (geb_not_NaN x c) as H3.
  destruct (geb x (of_Z a)), (geb x (of_Z b)), (geb x (of_Z c)), (is_NaN x);
    cbn; try reflexivity;
    first [discriminate (H1 eq_refl) | discriminate (H2 eq_refl) | discriminate (H3 eq_refl)].
Qed.

Lemma length_filter_b2n {A : Type} (p : A -> bool) (l : list A) :
  length (List.filter p l) = list_sum (map (fun d => Nat.b2n (p d)) l).
Proof.
  induction l as [|d l IH]; [reflexivity|].
  cbn [List.filter map]. change (list_sum (?x :: ?r)) with (x + list_sum r).
  destruct (p d); cbn [length Nat.b2n]; lia.
Qed.

Lemma four_tiers_count {A : Type} (f : A -> num) (a b c : Z) (l : list A) :
  (c <= b)%Z -> (b <= a)%Z ->
  length (List.filter (fun d => geb (f d) (of_Z a)) l) +
  length (List.filter (fun d => geb (f d) (of_Z b) && ltb (f d) (of_Z a)) l) +
  length (List.filter (fun d => geb (f d) (of_Z c) && ltb (f d) (of_Z b)) l) +
  length (List.filter (fun d => ltb (f d) (of_Z c)) l) =
  length (List.filter (fun d => negb (is_NaN (f d))) l).
Proof.
  intros Hcb Hba. rewrite !length_filter_b2n.
  induction l as [|d l IH]; [reflexivity|].
  cbn [map]. repeat change (list_sum (?x :: ?r)) with (x + list_sum r).
  pose proof (four_tiers (f d) a b c Hcb Hba). lia.
Qed.

(** Dropping the empty slices changes neither the total nor the value
    shown for a slice. *)
Lemma positive_slices_sum (l : list Bucket) :
  list_sum (map value (List.filter (fun item => 0 <? value item) l)) =
  list_sum (map value l).
Proof.
  induction l as [|x l IH]; [reflexivity|].
  cbn [List.filter]. destruct (0 <? value x) eqn:E.
  - cbn [map]. repeat change (list_sum (?y :: ?r)) with (y + list_sum r). lia.
  - apply Nat.ltb_ge in E. cbn [map].
    repeat change (list_sum (?y :: ?r)) with (y + list_sum r). lia.
Qed.

Lemma positive_slices_shown (bucket : string) (l : list Bucket) :
  shown bucket (List.filter (fun item => 0 <? value item) l) = shown bucket l.
Proof.
  unfold shown. induction l as [|x l IH]; [reflexivity|].
  cbn [List.filter]. destruct (0 <? value x) eqn:E.
  - cbn [List.filter]. destruct (String.eqb (name x) bucket); [|exact IH].
    cbn [map]. repeat change (list_sum (?y :: ?r)) with (y + list_sum r). lia.
  - apply Nat.ltb_ge in E. destruct (String.eqb (name x) bucket); [|exact IH].
    cbn [map]. repeat change (list_sum (?y :: ?r)) with (y + list_sum r). lia.
Qed.

Lemma positive_slices_all (l : list Bucket) :
  Forall (fun item => 0 < value item) (List.filter (fun item => 0 <? value item) l).
Proof.
  apply Forall_forall. intros x Hx. apply list_elem_of_In, filter_In in Hx.
  destruct Hx as [_ Hx]. now apply Nat.ltb_lt in Hx.
Qed.

(** The slices of each distribution chart are all positive, and their
    values add up to the number of data whose accuracy (or speed) is a
    number: each such datum is counted in exactly one slice, and a datum
    whose value is [NaN] is counted in none. *)
Theorem distributions_partition {Datum : Type} (accuracy wpm : Datum -> num)
    (chartData : list Datum) :
  Forall (fun item => 0 < value item) (accuracyDistribution accuracy chartData) /\
  list_sum (map value (accuracyDistribution accuracy chartData)) =
    length (List.filter (fun d => negb (is_NaN (accuracy d))) chartData) /\
  Forall (fun item => 0 < value item) (speedDistribution wpm chartData) /\
  list_sum (map value (speedDistribution wpm chartData)) =
    length (List.filter (fun d => negb (is_NaN (wpm d))) chartData).
Proof.
  unfold accuracyDistribution, speedDistribution.
  split; [apply positive_slices_all|]. split; [|split; [apply positive_slices_all|]].
  - rewrite positive_slices_sum. cbn [map value].
    repeat change (list_sum (?y :: ?r)) with (y + list_sum r). cbn [list_sum].
    rewrite <- (four_tiers_count accuracy 95 90 80) by lia.
    change (list_sum []) with 0. lia.
  - rewrite positive_slices_sum. cbn [map value].
    repeat change (list_sum (?y :: ?r)) with (y + list_sum r).
    rewrite <- (four_tiers_count wpm 70 50 30) by lia.
    change (list_sum []) with 0. lia.
Qed.

Lemma level_tiers (x : num) (l : Level) :
  negb (is_NaN x) && bool_decide (level (getPerformanceLevel x) = l) =
  match l with
  | Expert => geb x (of_Z 70)
  | Advanced => geb x (of_Z 50) && ltb x (of_Z 70)
  | Intermediate => geb x (of_Z 30) && ltb x (of_Z 50)
  | Beginner => ltb x (of_Z 30)
  end.
Proof.
  unfold getPerformanceLevel. rewrite !ltb_threshold.
  pose proof (geb_threshold_mono x 70 50 ltac:(lia)) as H1.
  pose proof (geb_threshold_mono x 50 30 ltac:(lia)) as H2.
  pose proof (geb_not_NaN x 30) as H3.
  destruct (geb x (of_Z 70)), (geb x (of_Z 50)), (geb x (of_Z 30)), (is_NaN x), l;
    cbn; try reflexivity;
    first [discriminate (H1 eq_refl) | discriminate (H2 eq_refl) | discriminate (H3 eq_refl)].
Qed.

(** The speed chart and the result page agree: the slice named after a
    performance level shows the number of data whose speed is a number
    and has that level on the result page.  A [NaN] speed is a Beginner
    on the result page and in no slice of the chart. *)
Theorem speedDistribution_levels {Datum : Type} (wpm : Datum -> num)
    (chartData : list Datum) (l : Level) :
  shown (level_bucket l) (speedDistribution wpm chartData) =
    length (List.filter
              (fun d => negb (is_NaN (wpm d)) &&
                        bool_decide (level (getPerformanceLevel (wpm d)) = l))
              chartData) /\
  level (getPerformanceLevel NaN) = Beginner.
Proof.
  split; [|reflexivity].
  unfold speedDistribution. rewrite positive_slices_shown.
  rewrite (filter_ext _ _ (fun d => level_tiers (wpm d) l)).
  destruct l; cbn; lia.
Qed.

(** With at least two recent results, the comparison figures of the
    dashboard are computed from the newest half of them: the results it
    calls previous are the last [half] stored results, newest first,
    where [half] is half the number of recent results, rounded down. *)
Theorem previousResults_newest (w : World) (limit : nat) :
  storageThrows w = false -> 0 < limit ->
  let recent := getRecentResults limit w in
  let half := Nat.min limit (length (storage w)) / 2 in
  length recent = Nat.min limit (length (storage w)) /\
  previousResults recent = reverse (drop (length (storage w) - half) (storage w)) /\
  (2 <= length recent -> previousResults recent <> [] /\
                         previousPeriodStats recent <> None).
Proof.
  intros Hs Hl. cbn zeta.
  unfold getRecentResults, getTestResults, slice_last. rewrite Hs.
  rewrite bool_decide_eq_false_2 by lia.
  set (rs := storage w).
  assert (Hlen : length (reverse (drop (length rs - limit) rs)) =
                 Nat.min limit (length rs)).
  { rewrite length_reverse, length_drop. lia. }
  split; [exact Hlen|].
  assert (Hhalf : Nat.min limit (length rs) / 2 <= Nat.min limit (length rs)).
  { apply Nat.Div0.div_le_upper_bound. lia. }
  assert (Hprev : previousResults (reverse (drop (length rs - limit) rs)) =
                  reverse (drop (length rs - Nat.min limit (length rs) / 2) rs)).
  { unfold previousResults. rewrite Hlen.
    set (half := Nat.min limit (length rs) / 2) in *.
    rewrite take_reverse, length_drop, drop_drop. f_equal. f_equal. lia. }
  split; [exact Hprev|].
  intros H2. rewrite Hlen in H2.
  assert (Hpos : 0 < Nat.min limit (length rs) / 2).
  { apply Nat.div_str_pos. lia. }
  split.
  - rewrite Hprev. intros E. apply (f_equal length) in E.
    rewrite length_reverse, length_drop in E. cbn [length] in E.
    set (half := Nat.min limit (length rs) / 2) in *. clearbody half. lia.
  - unfold previousPeriodStats. rewrite Hlen.
    now rewrite bool_decide_eq_false_2 by lia.
Qed.

Lemma previousResults_newest_witness :
  let r := buildResult example_session (of_Z 10) initialStats (of_Z 0)
             (Analyzer.analyzeTypedText [] []) 0%Z in
  let w := mkWorld example_session
             [mkSaved r 1 1; mkSaved r 2 2; mkSaved r 3 3; mkSaved r 4 4; mkSaved r 5 5]
             false 0%Z [] None [] [] in
  map TypingTest.id (previousResults (getRecentResults 20 w)) = [5; 4]%Z.
Proof.
  cbn zeta.
  match goal with |- context [getRecentResults 20 ?w0] =>
    destruct (previousResults_newest w0 20 eq_refl ltac:(lia)) as (_ & H & _)
  end.
  rewrite H. reflexivity.
Defined.

End ViewsFacts.

(** ** Mistake frequencies *)

Section MistakeAnalysisFacts.
Import Num TypingTest ResultStore MistakeAnalysis.

Lemma count_mistakes_flat (results : list SavedResult) (freq0 : list (list N * nat)) :
  foldl (fun mistakeFreq r =>
           foldl (fun mistakeFreq m => bump (mistake_key m) mistakeFreq)
                 mistakeFreq (Result.mistakeDetails (result r)))
        freq0 results =
  foldl (fun mistakeFreq m => bump (mistake_key m) mistakeFreq) freq0
        (flat_map (fun r => Result.mistakeDetails (result r)) results).
Proof.
  revert freq0. induction results as [|r results IH]; intros freq0; [reflexivity|].
  cbn [foldl flat_map]. rewrite foldl_app. apply IH.
Qed.

Lemma bump_keys (key : list N) (freq : list (list N * nat)) :
  (bump key freq).*1 = if decide (key ∈ freq.*1) then freq.*1 else freq.*1 ++ [key].
Proof.
  induction freq as [|[k c] freq IH].
  - cbn. rewrite decide_False; [reflexivity | apply not_elem_of_nil].
  - cbn [bump]. case_bool_decide as Hk.
    + subst k. cbn [fmap list_fmap fst]. rewrite decide_True; [reflexivity | left].
    + cbn [fmap list_fmap fst] in *. rewrite IH.
      destruct (decide (key ∈ freq.*1)) as [Hin|Hin].
      * rewrite decide_True; [reflexivity | now right].
      * rewrite decide_False; [reflexivity|].
        rewrite elem_of_cons. intros [->|?]; contradiction.
Qed.

Lemma bump_elem (key : list N) (freq : list (list N * nat)) (k : list N) (c : nat) :
  NoDup freq.*1 ->
  (k, c) ∈ bump key freq ->
  (k <> key /\ (k, c) ∈ freq) \/
  (k = key /\ ((exists c0, (key, c0) ∈ freq /\ c = c0 + 1) \/
               ((key ∉ freq.*1) /\ c = 1))).
Proof.
  induction freq as [|[k0 c0] freq IH]; intros Hnd.
  - cbn. intros H. apply list_elem_of_singleton in H. injection H as -> ->.
    right. split; [reflexivity|]. right. split; [apply not_elem_of_nil | reflexivity].
  - cbn [fmap list_fmap fst] in Hnd. apply NoDup_cons in Hnd as [Hk0 Hnd].
    cbn [bump]. case_bool_decide as Hk.
    + subst k0. rewrite elem_of_cons. intros [E|Hin].
      * injection E as -> ->. right. split; [reflexivity|]. left.
        exists c0. split; [left | reflexivity].
      * left. split; [|now right].
        intros ->. apply Hk0. apply list_elem_of_fmap. now exists (key, c).
    + rewrite elem_of_cons. intros [E|Hin].
      * injection E as -> ->. left. split; [exact Hk | left].
      * destruct (IH Hnd Hin) as [[Hne Hin']|[-> Hcase]].
        -- left. split; [exact Hne | now right].
        -- right. split; [reflexivity|].
           destruct Hcase as [(c1 & Hc1 & ->)|[Hnot ->]].
           ++ left. exists c1. split; [now right | reflexivity].
           ++ right. split; [|reflexivity].
              cbn [fmap list_fmap fst]. rewrite elem_of_cons.
              intros [E|?]; [now subst | contradiction].
Qed.

Lemma occurrences_snoc (key : list N) (ms : list Analyzer.Mistake) (m : Analyzer.Mistake) :
  occurrences key (ms ++ [m]) =
  occurrences key ms + (if decide (mistake_key m = key) then 1 else 0).
Proof.
  unfold occurrences. rewrite filter_app, length_app. f_equal.
  destruct (decide (mistake_key m = key)) as [E|E].
  - now rewrite filter_cons_True.
  - now rewrite filter_cons_False.
Qed.

Lemma occurrences_absent (key : list N) (ms : list Analyzer.Mistake) :
  (forall m, m ∈ ms -> mistake_key m <> key) -> occurrences key ms = 0.
Proof.
  intros H. unfold occurrences. induction ms as [|m ms IH]; [reflexivity|].
  rewrite filter_cons_False by (apply H; left).
  apply IH. intros m' Hm'. apply H. now right.
Qed.

(** The frequency table after the loops: one line for each key met, with
    the number of records filed under it. *)
Lemma count_loop_invariant (ms : list Analyzer.Mistake) :
  let freq := foldl (fun mistakeFreq m => bump (mistake_key m) mistakeFreq) [] ms in
  NoDup freq.*1 /\
  (forall k c, (k, c) ∈ freq -> c = occurrences k ms /\ 0 < c) /\
  (forall m, m ∈ ms -> mistake_key m ∈ freq.*1).
Proof.
  cbn zeta. induction ms as [|m ms IH] using rev_ind.
  - cbn. split; [constructor|]. split.
    + intros k c H. now apply elem_of_nil in H.
    + intros m H. now apply elem_of_nil in H.
  - rewrite foldl_app. cbn [foldl].
    set (freq := foldl (fun mistakeFreq m => bump (mistake_key m) mistakeFreq) [] ms) in *.
    destruct IH as (Hnd & Hcount & Hall).
    split; [|split].
    + rewrite bump_keys. destruct (decide _) as [Hin|Hin]; [exact Hnd|].
      apply NoDup_app. split; [exact Hnd|]. split.
      * intros x Hx Hx'. apply list_elem_of_singleton in Hx'. now subst.
      * apply NoDup_singleton.
    + intros k c Hkc. rewrite occurrences_snoc.
      destruct (bump_elem _ _ _ _ Hnd Hkc) as [[Hne Hin]|[-> Hcase]].
      * destruct (Hcount k c Hin) as [-> Hpos].
        rewrite decide_False by congruence. split; lia.
      * rewrite decide_True by reflexivity.
        destruct Hcase as [(c0 & Hc0 & ->)|[Hnot ->]].
        -- destruct (Hcount _ _ Hc0) as [-> Hpos]. split; lia.
        -- rewrite occurrences_absent; [split; lia|].
           intros m' Hm' E. apply Hnot. rewrite <- E. now apply Hall.
    + intros m' Hm'. rewrite bump_keys.
      apply elem_of_app in Hm' as [Hm'|Hm'].
      * destruct (decide _); [now apply Hall|].
        apply elem_of_app. left. now apply Hall.
      * apply list_elem_of_singleton in Hm'. subst m'.
        destruct (decide _) as [Hin|Hin]; [exact Hin|].
        apply elem_of_app. right. left.
Qed.

Lemma insert_desc_perm (e : Entry) (l : list Entry) : insert_desc e l ≡ₚ e :: l.
Proof.
  induction l as [|x l IH]; [reflexivity|].
  cbn [insert_desc]. case_bool_decide; [reflexivity|].
  rewrite IH. apply Permutation_swap.
Qed.

Lemma sort_desc_perm (l : list Entry) : sort_desc l ≡ₚ l.
Proof.
  induction l as [|x l IH]; [reflexivity|].
  cbn [sort_desc foldr]. fold (sort_desc l). now rewrite insert_desc_perm, IH.
Qed.

Lemma insert_desc_sorted (e : Entry) (l : list Entry) :
  StronglySorted (fun x y => count y <= count x) l ->
  StronglySorted (fun x y => count y <= count x) (insert_desc e l).
Proof.
  induction 1 as [|x l Hs IH Hx]; [repeat constructor|].
  cbn [insert_desc]. case_bool_decide as Hc.
  - constructor; [now constructor|].
    constructor; [exact Hc|].
    eapply Forall_impl; [exact Hx|]. cbn. intros y Hy. lia.
  - constructor; [exact IH|].
    rewrite insert_desc_perm. constructor; [lia | exact Hx].
Qed.

Lemma sort_desc_sorted (l : list Entry) :
  StronglySorted (fun x y => count y <= count x) (sort_desc l).
Proof.
  induction l as [|x l IH]; [constructor|].
  cbn [sort_desc foldr]. now apply insert_desc_sorted.
Qed.

Lemma StronglySorted_take {A : Type} (R : A -> A -> Prop) (n : nat) (l : list A) :
  StronglySorted R l -> StronglySorted R (take n l).
Proof.
  intros H. revert n. induction H as [|x l Hs IH Hx]; intros [|n]; cbn; try constructor.
  - apply IH.
  - apply Forall_take. exact Hx.
Qed.

(** The analysis lists at most ten entries, larger counts first, no key
    twice; and the count of each entry is the number of stored mistake
    records filed under its key, which is at least one. *)
Theorem getMistakeAnalysis_ranked (w : World) :
  let analysis := getMistakeAnalysis w in
  length analysis <= 10 /\
  StronglySorted (fun x y => count y <= count x) analysis /\
  NoDup (map mistake analysis) /\
  forall e, e ∈ analysis ->
    count e = occurrences (mistake e) (stored_mistakes w) /\ 0 < count e.
Proof.
  cbn zeta. unfold getMistakeAnalysis, count_mistakes.
  rewrite count_mistakes_flat. fold (stored_mistakes w).
  destruct (count_loop_invariant (stored_mistakes w)) as (Hnd & Hcount & _).
  set (freq := foldl (fun mistakeFreq m => bump (mistake_key m) mistakeFreq) []
                     (stored_mistakes w)) in *.
  split; [rewrite length_take; lia|].
  split; [apply StronglySorted_take, sort_desc_sorted|].
  split.
  - rewrite <- firstn_map.
    eapply sublist_NoDup; [|apply sublist_take].
    rewrite sort_desc_perm.
    replace (map mistake (map to_entry freq)) with freq.*1; [exact Hnd|].
    rewrite map_map. reflexivity.
  - intros e He. apply elem_of_take in He as (i & He & _).
    apply list_elem_of_lookup_2 in He. rewrite sort_desc_perm in He.
    apply list_elem_of_fmap in He as ([k c] & -> & Hkc).
    cbn [to_entry count mistake fst snd]. now apply Hcount.
Qed.

Lemma getMistakeAnalysis_ranked_witness :
  let a := Analyzer.analyzeTypedText (js "the cat sat") (js "tha cot sat") in
  let r := buildResult example_session (of_Z 10) initialStats (of_Z 0) a 0%Z in
  let w := mkWorld example_session [mkSaved r 1 1; mkSaved r 2 2] false 0%Z [] None [] [] in
  let e := mkEntry (js "e" ++ arrow ++ js "a") 2 (Some (js "e")) (Some (js "a")) in
  count e = occurrences (mistake e) (stored_mistakes w) /\ 0 < count e.
Proof.
  cbn zeta.
  match goal with |- context [stored_mistakes ?w0] =>
    destruct (getMistakeAnalysis_ranked w0) as (_ & _ & _ & H)
  end.
  apply H. apply list_elem_of_lookup_2 with 0. reflexivity.
Defined.

Lemma occurrences_positive (key : list N) (ms : list Analyzer.Mistake) :
  0 < occurrences key ms -> exists m, m ∈ ms /\ mistake_key m = key.
Proof.
  unfold occurrences. intros H.
  destruct (filter (fun m => mistake_key m = key) ms) as [|m rest] eqn:E;
    [cbn in H; lia|].
  assert (Hm : m ∈ filter (fun m => mistake_key m = key) ms) by (rewrite E; left).
  apply list_elem_of_filter in Hm as [Hk Hm]. now exists m.
Qed.

(** Splitting the key of two one-unit strings gives them back. *)
Lemma split_key (x y : N) :
  split arrow ([x] ++ arrow ++ [y]) = [[x]; [y]].
Proof.
  unfold split, arrow. cbn [app split_go length take].
  rewrite bool_decide_eq_false_2 by (intros [=]).
  cbn [split_go length take].
  rewrite bool_decide_eq_true_2 by reflexivity.
  cbn [split_go length Nat.sub take].
  rewrite bool_decide_eq_false_2 by (intros [=]).
  reflexivity.
Qed.

Lemma or_question_unit (s : list N) :
  length s <= 1 -> exists x, or_question s = [x].
Proof.
  destruct s as [|x [|y s]]; cbn; intros H.
  - now exists 63%N.
  - now exists x.
  - lia.
Qed.

(** The records of an analysis hold strings of at most one unit. *)
Lemma analysis_mistake_units (originalText typedText : list N) (m : Analyzer.Mistake) :
  m ∈ Analyzer.mistakes (Analyzer.analyzeTypedText originalText typedText) ->
  length (Analyzer.expected m) <= 1 /\ length (Analyzer.typed m) <= 1.
Proof.
  unfold Analyzer.analyzeTypedText.
  destruct (analyze_upto_spec originalText typedText
              (Nat.max (length originalText) (length typedText))) as (_ & -> & _).
  intros H. apply list_elem_of_In, in_flat_map in H as (i & _ & H).
  unfold Analyzer.spec_mistakes in H.
  destruct (originalText !! i), (typedText !! i); try destruct (decide _);
    cbn in H; try contradiction;
    destruct H as [<-|[]]; cbn; lia.
Qed.

(** When the stored mistake records are those of analyses, each entry of
    the mistake analysis stands for a stored record: its key is the key
    of that record, and the expected and typed strings read back from
    the key are those of the record, with [?] for an empty one. *)
Theorem getMistakeAnalysis_fields (w : World) :
  (forall r, r ∈ getTestResults w ->
     exists originalText typedText,
       Result.mistakeDetails (result r) =
       Analyzer.mistakes (Analyzer.analyzeTypedText originalText typedText)) ->
  forall e, e ∈ getMistakeAnalysis w ->
    exists m, m ∈ stored_mistakes w /\
      mistake e = mistake_key m /\
      expected e = Some (or_question (Analyzer.expected m)) /\
      typed e = Some (or_question (Analyzer.typed m)).
Proof.
  intros Hsrc e He.
  unfold getMistakeAnalysis, count_mistakes in He.
  rewrite count_mistakes_flat in He. fold (stored_mistakes w) in He.
  destruct (count_loop_invariant (stored_mistakes w)) as (_ & Hcount & _).
  apply elem_of_take in He as (i & He & _).
  apply list_elem_of_lookup_2 in He. rewrite sort_desc_perm in He.
  apply list_elem_of_fmap in He as ([k c] & -> & Hkc).
  destruct (Hcount k c Hkc) as [-> Hpos].
  destruct (occurrences_positive k _ Hpos) as (m & Hm & Hk).
  exists m. split; [exact Hm|]. cbn [to_entry mistake expected typed fst].
  split; [now symmetry|].
  assert (Hunits : length (Analyzer.expected m) <= 1 /\ length (Analyzer.typed m) <= 1).
  { unfold stored_mistakes in Hm.
    apply list_elem_of_In, in_flat_map in Hm as (r & Hr & Hm).
    apply list_elem_of_In in Hr, Hm.
    destruct (Hsrc r Hr) as (o & t & E). rewrite E in Hm.
    now apply analysis_mistake_units in Hm. }
  destruct Hunits as [He Ht].
  destruct (or_question_unit _ He) as (x & Hx), (or_question_unit _ Ht) as (y & Hy).
  rewrite <- Hk. unfold mistake_key. rewrite Hx, Hy, split_key. split; reflexivity.
Qed.

Lemma getMistakeAnalysis_fields_witness :
  let a := Analyzer.analyzeTypedText (js "the cat sat") (js "tha cot sat!") in
  let r := buildResult example_session (of_Z 10) initialStats (of_Z 0) a 0%Z in
  let w := mkWorld example_session [mkSaved r 1 1] false 0%Z [] None [] [] in
  let e := mkEntry (js "?" ++ arrow ++ js "!") 1 (Some (js "?")) (Some (js "!")) in
  exists m, m ∈ stored_mistakes w /\
    mistake e = mistake_key m /\
    expected e = Some (or_question (Analyzer.expected m)) /\
    typed e = Some (or_question (Analyzer.typed m)).
Proof.
  cbn zeta.
  match goal with |- context [stored_mistakes ?w0] =>
    apply (getMistakeAnalysis_fields w0)
  end.
  - intros r Hr. apply list_elem_of_singleton in Hr. subst r.
    now exists (js "the cat sat"), (js "tha cot sat!").
  - apply list_elem_of_lookup_2 with 2. reflexivity.
Defined.

End MistakeAnalysisFacts.
